(** * library-search: CSV parsing, text normalisation, search and paging

    A shallow embedding of [src/lib/csv.js] and of the two variants of
    [App.jsx] (the single-dataset variant with a two-character minimum, and
    the two-site variant with whitespace-insensitive matching), followed by
    the properties of these functions.

    JavaScript strings are sequences of UTF-16 code units; they are modelled
    as lists of code units ([N], each below 65536). *)

From Stdlib Require Import NArith ZArith QArith Qround List Bool Lia Ascii String DecimalString.
From stdpp Require Import base decidable option list numbers countable gmap.
Import ListNotations.

Local Open Scope N_scope.

(** ** JavaScript string primitives *)

Module JS.

Abbreviation jsstring := (list N).

(** ASCII literals: [u] of the Rocq string [abc] is the JavaScript string
    [abc]. *)
Definition u (s : string) : jsstring :=
  List.map N_of_ascii (list_ascii_of_string s).

Definition DQUOTE : N := 0x22.
Definition COMMA : N := 0x2C.
Definition LF : N := 0x0A.
Definition CR : N := 0x0D.
Definition SPACE : N := 0x20.
Definition BOM : N := 0xFEFF.

(** Strict equality [===] on strings. *)
Definition streq (a b : jsstring) : bool := bool_decide (a = b).

(** The code units matched by the regular expression class [\s], which are
    also the ones removed by [String.prototype.trim]: ECMAScript WhiteSpace
    (TAB, VT, FF, ZWNBSP and the space separators) and LineTerminator
    (LF, CR, LS, PS). *)
Definition isWhiteSpace (c : N) : bool :=
  (c =? 0x09) || (c =? 0x0A) || (c =? 0x0B) || (c =? 0x0C) || (c =? 0x0D)
  || (c =? 0x20) || (c =? 0xA0) || (c =? 0x1680)
  || ((0x2000 <=? c) && (c <=? 0x200A))
  || (c =? 0x2028) || (c =? 0x2029) || (c =? 0x202F) || (c =? 0x205F)
  || (c =? 0x3000) || (c =? 0xFEFF).

Fixpoint trimStart (s : jsstring) : jsstring :=
  match s with
  | [] => []
  | c :: r => if isWhiteSpace c then trimStart r else s
  end.

Definition trimEnd (s : jsstring) : jsstring := rev (trimStart (rev s)).

(** [s.trim()] *)
Definition trim (s : jsstring) : jsstring := trimEnd (trimStart s).

(** [s.replace(/\s+/g, rep)]: every maximal run of white space is replaced
    by [rep]. [inRun] tells that the previous code unit belonged to the run
    being replaced. *)
Fixpoint replaceWsFrom (rep : jsstring) (inRun : bool) (s : jsstring) : jsstring :=
  match s with
  | [] => []
  | c :: r =>
      if isWhiteSpace c
      then (if inRun then [] else rep) ++ replaceWsFrom rep true r
      else c :: replaceWsFrom rep false r
  end.

Definition replaceWs (rep : jsstring) (s : jsstring) : jsstring :=
  replaceWsFrom rep false s.

(** [s.startsWith(q)] *)
Fixpoint startsWith (s q : jsstring) {struct q} : bool :=
  match q with
  | [] => true
  | b :: q' =>
      match s with
      | [] => false
      | a :: s' => (a =? b) && startsWith s' q'
      end
  end.

(** [s.includes(q)]: [q] occurs in [s] as a contiguous run of code units. *)
Fixpoint includes (s q : jsstring) : bool :=
  startsWith s q ||
  match s with
  | [] => false
  | _ :: s' => includes s' q
  end.

Definition isHighSurrogate (c : N) : bool := (0xD800 <=? c) && (c <=? 0xDBFF).
Definition isLowSurrogate (c : N) : bool := (0xDC00 <=? c) && (c <=? 0xDFFF).

(** [Array.from(s)]: the string iterator yields one element per code point;
    a high surrogate followed by a low surrogate is one element, any other
    code unit is an element of its own. *)
Fixpoint arrayFrom (s : jsstring) : list jsstring :=
  match s with
  | [] => []
  | c :: r =>
      match r with
      | d :: r' =>
          if isHighSurrogate c && isLowSurrogate d
          then [c; d] :: arrayFrom r'
          else [c] :: arrayFrom r
      | [] => [[c]]
      end
  end.

(** Template literal [`${n}`] for a non-negative integer: its decimal
    digits. *)
Definition toStringNat (n : nat) : jsstring :=
  u (NilZero.string_of_uint (Nat.to_uint n)).

(** [a.slice(start, end)] on arrays, for integer arguments. *)
Definition sliceIndex (len k : Z) : Z :=
  if (k <? 0)%Z then Z.max (len + k) 0 else Z.min k len.

Definition slice {A} (a : list A) (start end_ : Z) : list A :=
  let len := Z.of_nat (length a) in
  let k := sliceIndex len start in
  let final := sliceIndex len end_ in
  take (Z.to_nat (final - k)) (drop (Z.to_nat k) a).

End JS.

Import JS.

(** [String.prototype.toLowerCase] follows the Unicode case tables, which are
    not part of this repository: the function is a parameter of the
    development. The two facts used of it, where one is needed, are its
    behaviour on ASCII strings (the letters A-Z are mapped to a-z and nothing
    else changes) and that only the empty string is mapped to the empty
    string. *)
Class Casing := toLowerCase : jsstring -> jsstring.

Definition lowerUnit (c : N) : N :=
  if (0x41 <=? c) && (c <=? 0x5A) then c + 0x20 else c.

Definition isAscii (c : N) : Prop := c < 0x80.

Class CasingLaws (C : Casing) := {
  toLowerCase_ascii : forall s : jsstring,
    Forall isAscii s -> toLowerCase s = List.map lowerUnit s;
  toLowerCase_nil : forall s : jsstring, toLowerCase s = [] -> s = []
}.

(** The casing that lowers A-Z only; it agrees with JavaScript on every
    string without cased letters outside ASCII. *)
Definition asciiCasing : Casing := List.map lowerUnit.

(** ** [src/lib/csv.js] *)

Module Csv.

(** The loop variables of [parseCSV]. *)
Record PState := mkPState {
  rows : list (list jsstring);
  row : list jsstring;
  field : jsstring;
  inQuotes : bool
}.

Definition initial : PState := mkPState [] [] [] false.

(** [row.some((v) => (v ?? '').toString().trim() !== '')] *)
Definition hasContent (r : list jsstring) : bool :=
  existsb (fun v => negb (streq (trim v) [])) r.

(** [row.push(field); if (row.some(...)) rows.push(row);] *)
Definition flushRow (rs : list (list jsstring)) (r : list jsstring) (f : jsstring)
  : list (list jsstring) :=
  let r' := r ++ [f] in
  if hasContent r' then rs ++ [r'] else rs.

(** One iteration of the [for] loop, on the code unit [ch = text[i]] with
    [next = text[i + 1]] ([None] past the end). The boolean tells whether
    the body ran [i++], so that the unit after [ch] is skipped. *)
Definition step (st : PState) (ch : N) (next : option N) : PState * bool :=
  if ch =? DQUOTE then
    if inQuotes st && bool_decide (next = Some DQUOTE)
    then (mkPState (rows st) (row st) (field st ++ [DQUOTE]) (inQuotes st), true)
    else (mkPState (rows st) (row st) (field st) (negb (inQuotes st)), false)
  else if negb (inQuotes st) && (ch =? COMMA) then
    (mkPState (rows st) (row st ++ [field st]) [] (inQuotes st), false)
  else if negb (inQuotes st) && ((ch =? LF) || (ch =? CR)) then
    (mkPState (flushRow (rows st) (row st) (field st)) [] [] (inQuotes st),
     (ch =? CR) && bool_decide (next = Some LF))
  else
    (mkPState (rows st) (row st) (field st ++ [ch]) (inQuotes st), false).

(** The loop itself; the argument is the unread suffix [text[i..]]. *)
Fixpoint scan (text : jsstring) (st : PState) : PState :=
  match text with
  | [] => st
  | ch :: rest =>
      let '(st', skip) := step st ch (head rest) in
      if skip
      then match rest with
           | [] => st'
           | _ :: rest' => scan rest' st'
           end
      else scan rest st'
  end.

Definition parseCSV (text : jsstring) : list (list jsstring) :=
  let st := scan text initial in
  flushRow (rows st) (row st) (field st).

(** The same loop told with the index [i]: it stops when [i < text.length]
    fails. Each iteration moves [i] forward, so [text.length] iterations
    are enough; [fuel] bounds their number. *)
Fixpoint loop (text : jsstring) (fuel i : nat) (st : PState) : PState :=
  match fuel with
  | O => st
  | S fuel' =>
      match text !! i with
      | None => st
      | Some ch =>
          let '(st', skip) := step st ch (text !! (i + 1)%nat) in
          loop text fuel' (if skip then i + 2 else i + 1)%nat st'
      end
  end.

(** [stripBom]; the empty string is falsy and is returned as it is. *)
Definition stripBom (s : jsstring) : jsstring :=
  match s with
  | [] => []
  | c :: r => if c =? BOM then r else s
  end.

(** Arguments that may be [undefined] are options; [v ?? ''] is
    [default [] v]. *)
Definition normalizeHeader (h : option jsstring) : jsstring :=
  replaceWs [] (trim (stripBom (default [] h))).

Definition ID_KEY : jsstring := u "__id".
Definition PROTO_KEY : jsstring := u "__proto__".

(** [obj[key] = v] on an ordinary object: the own property is created or
    overwritten, except for the key [__proto__], whose inherited setter
    ignores a string. *)
Definition objSet (k v : jsstring) (obj : gmap jsstring jsstring)
  : gmap jsstring jsstring :=
  if streq k PROTO_KEY then obj else <[k := v]> obj.

(** [headers[i] || `__col_${i}`] *)
Definition columnKey (headers : list jsstring) (i : nat) : jsstring :=
  let h := default [] (headers !! i) in
  if streq h [] then u "__col_" ++ toStringNat i else h.

(** [(r[i] ?? '').toString().trim()] *)
Definition cell (r : list jsstring) (i : nat) : jsstring :=
  trim (default [] (r !! i)).

(** The body of the loop over the header positions: [obj[key] = ...]. *)
Definition setColumn (headers r : list jsstring) (obj : gmap jsstring jsstring)
    (i : nat) : gmap jsstring jsstring :=
  objSet (columnKey headers i) (cell r i) obj.

(** The callback of [dataRows.map]: the object literal with [__id], then
    the loop over the header positions. *)
Definition toObject (headers : list jsstring) (idx : nat) (r : list jsstring)
  : gmap jsstring jsstring :=
  foldl (setColumn headers r)
        {[ ID_KEY := toStringNat idx ]}
        (seq 0 (length headers)).

Definition rowsToObjects (rows : list (list jsstring))
  : list (gmap jsstring jsstring) :=
  match rows with
  | [] => []
  | headersRaw :: dataRows =>
      let headers := List.map (fun h => normalizeHeader (Some h)) headersRaw in
      imap (toObject headers) dataRows
  end.

Definition normalizeText `{Casing} (s : option jsstring) : jsstring :=
  replaceWs [SPACE] (toLowerCase (trim (default [] s))).

(** [countGraphemes] *)
Definition countGraphemes (s : option jsstring) : nat :=
  length (arrayFrom (default [] s)).

End Csv.


(** ** Paging, shared by the two variants of [App.jsx] *)

Module Paging.

Local Open Scope Z_scope.

Definition PAGE_SIZE : Z := 10.

(** [Math.max(1, Math.ceil(totalResults / PAGE_SIZE))]; the quotient is
    taken in the rationals, which the floating-point quotient of two such
    integers rounds up to the same integer. *)
Definition totalPages (totalResults : nat) : Z :=
  Z.max 1 (Qceiling (Qdiv (inject_Z (Z.of_nat totalResults)) (inject_Z PAGE_SIZE))).

(** [Math.min(Math.max(1, currentPage), totalPages)] *)
Definition safePage (totalResults : nat) (currentPage : Z) : Z :=
  Z.min (Z.max 1 currentPage) (totalPages totalResults).

(** [filtered.slice(start, start + PAGE_SIZE)] with
    [start = (safePage - 1) * PAGE_SIZE] *)
Definition pageItems {A} (filtered : list A) (currentPage : Z) : list A :=
  let start := (safePage (length filtered) currentPage - 1) * PAGE_SIZE in
  slice filtered start (start + PAGE_SIZE).

(** The updaters of the two pager buttons: [Math.max(1, p - 1)] and
    [Math.min(totalPages, p + 1)]. *)
Definition prevPage (p : Z) : Z := Z.max 1 (p - 1).

Definition nextPage (totalResults : nat) (p : Z) : Z :=
  Z.min (totalPages totalResults) (p + 1).

(** [!loading && totalResults > PAGE_SIZE]: whether the pager is rendered. *)
Definition pagerShown (loading : bool) (totalResults : nat) : bool :=
  negb loading && (PAGE_SIZE <? Z.of_nat totalResults).

End Paging.

(** ** [src/App.jsx]: one dataset, queries of two characters or more *)

Module Strict.

(** The values of [FIELD_OPTIONS]: the names of the title, author and
    publisher columns. *)
Definition K_TITLE : jsstring := [0xC11C; 0xBA85].
Definition K_AUTHOR : jsstring := [0xC800; 0xC790].
Definition K_PUBLISHER : jsstring := [0xCD9C; 0xD310; 0xC0AC].

(** The objects of [books]: an [id] and the three columns. *)
Record Book := mkBook {
  id : option jsstring;
  title : jsstring;
  author : jsstring;
  publisher : jsstring
}.

(** [b[key]] for the own properties of a book. *)
Definition bookGet (b : Book) (key : jsstring) : option jsstring :=
  if streq key K_TITLE then Some (title b)
  else if streq key K_AUTHOR then Some (author b)
  else if streq key K_PUBLISHER then Some (publisher b)
  else if streq key (u "id") then id b
  else None.

Definition pickField (obj : gmap jsstring jsstring) (wantedHeader : jsstring)
  : option jsstring :=
  obj !! Csv.normalizeHeader (Some wantedHeader).

(** The callback of [objs.map] in the loading effect. *)
Definition toBook (o : gmap jsstring jsstring) : Book :=
  mkBook (o !! Csv.ID_KEY)
         (trim (default [] (pickField o K_TITLE)))
         (trim (default [] (pickField o K_AUTHOR)))
         (trim (default [] (pickField o K_PUBLISHER))).

Definition loadBooks (text : jsstring) : list Book :=
  List.map toBook (Csv.rowsToObjects (Csv.parseCSV text)).

(** The state of the component that searching reads and writes. *)
Record State := mkState {
  books : list Book;
  selectedField : jsstring;
  query : jsstring;
  submittedQuery : jsstring;
  error : jsstring;
  currentPage : Z
}.

(** The two messages of [setError]: a query is asked for; a query of two
    characters or more, spaces aside, is asked for. *)
Definition MSG_EMPTY : jsstring :=
  [0xAC80; 0xC0C9; 0xC5B4; 0xB97C; 0x20; 0xC785; 0xB825; 0xD574; 0xC8FC;
   0xC138; 0xC694; 0x2E].

Definition MSG_TOO_SHORT : jsstring :=
  [0xAC80; 0xC0C9; 0xC5B4; 0xB294; 0x20; 0xACF5; 0xBC31; 0xC744; 0x20; 0xC81C;
   0xC678; 0xD558; 0xACE0; 0x20; 0x32; 0xAE00; 0xC790; 0x20; 0xC774; 0xC0C1;
   0x20; 0xC785; 0xB825; 0xD574; 0x20; 0xC8FC; 0xC138; 0xC694; 0x2E].

(** [setError(err); setSubmittedQuery(sub); setCurrentPage(1);] *)
Definition withSearch (st : State) (err sub : jsstring) : State :=
  mkState (books st) (selectedField st) (query st) sub err 1.

Definition runSearch (st : State) : State :=
  let trimmed := trim (query st) in
  if streq trimmed [] then withSearch st MSG_EMPTY []
  else
    let len := length (arrayFrom trimmed) in
    if (len <? 2)%nat then withSearch st MSG_TOO_SHORT []
    else withSearch st [] trimmed.

Section Filtering.
Context `{Casing}.

Definition matches (selected q : jsstring) (b : Book) : bool :=
  includes (Csv.normalizeText (bookGet b selected)) q.

Definition filtered (st : State) : list Book :=
  let q := Csv.normalizeText (Some (submittedQuery st)) in
  if streq q [] then []
  else List.filter (matches (selectedField st) q) (books st).

Definition pageItems (st : State) : list Book :=
  Paging.pageItems (filtered st) (currentPage st).


End Filtering.

(** [submittedQuery.trim() !== ''] *)
Definition hasSearched (st : State) : bool :=
  negb (streq (trim (submittedQuery st)) []).

End Strict.

(** ** The two-site variant of [App.jsx]: queries of one character or more,
    matching that also ignores white space *)

Module Lenient.

Definition K_TITLE : jsstring := Strict.K_TITLE.
Definition K_AUTHOR : jsstring := Strict.K_AUTHOR.
Definition K_PUBLISHER : jsstring := Strict.K_PUBLISHER.

(** [CSV_BY_SITE] *)
Definition CSV_BY_SITE (site : jsstring) : option jsstring :=
  if streq site (u "3") then Some (u "books_3.csv")
  else if streq site (u "4") then Some (u "books_4.csv")
  else None.

(** What [await fetch(url)] followed by [await res.text()] can do: resolve
    with a status and a body, or reject with an error message. *)
Inductive FetchResult :=
| Response (ok : bool) (status : nat) (text : jsstring)
| Rejected (message : jsstring).

(** The messages: a site is to be chosen first; a query is asked for; no
    file is configured for the site; and the text that follows the file
    name when the response is not a success, up to the status. *)
Definition MSG_NO_SITE : jsstring :=
  [0x33; 0xB2E8; 0xC9C0; 0x2F; 0x34; 0xB2E8; 0xC9C0; 0xB97C; 0x20; 0xBA3C;
   0xC800; 0x20; 0xC120; 0xD0DD; 0xD574; 0x20; 0xC8FC; 0xC138; 0xC694; 0x2E].

Definition MSG_EMPTY : jsstring := Strict.MSG_EMPTY.

Definition MSG_NO_CSV : jsstring :=
  [0x43; 0x53; 0x56; 0x20; 0xD30C; 0xC77C; 0x20; 0xC124; 0xC815; 0xC774; 0x20;
   0xC5C6; 0xC2B5; 0xB2C8; 0xB2E4; 0x2E; 0x20; 0x43; 0x53; 0x56; 0x5F; 0x42;
   0x59; 0x5F; 0x53; 0x49; 0x54; 0x45; 0xB97C; 0x20; 0xD655; 0xC778; 0xD574;
   0x20; 0xC8FC; 0xC138; 0xC694; 0x2E].

Definition MSG_LOAD_TAIL : jsstring :=
  [0xB97C; 0x20; 0xBD88; 0xB7EC; 0xC624; 0xC9C0; 0x20; 0xBABB; 0xD588; 0xC2B5;
   0xB2C8; 0xB2E4; 0x2E; 0x20; 0x28; 0x48; 0x54; 0x54; 0x50; 0x20].

(** The callback of [objs.map] in [loadSiteBooksIfNeeded]; the objects have
    the shape of the books of the other variant. *)
Definition toBook (o : gmap jsstring jsstring) : Strict.Book :=
  Strict.mkBook (o !! Csv.ID_KEY)
                (trim (default [] (o !! K_TITLE)))
                (trim (default [] (o !! K_AUTHOR)))
                (trim (default [] (o !! K_PUBLISHER))).

Record State := mkState {
  loading : bool;
  loadError : jsstring;
  site : jsstring;
  selectedField : jsstring;
  query : jsstring;
  submittedQuery : jsstring;
  error : jsstring;
  currentPage : Z;
  (** [cache[site]]; an absent key stands for [null] *)
  cache : gmap jsstring (list Strict.Book)
}.

(** [site ? cache[site] ?? [] : []] *)
Definition books (st : State) : list Strict.Book :=
  if streq (site st) [] then [] else default [] (cache st !! site st).

Section Loading.
Context (BASE_URL : jsstring) (fetch : jsstring -> FetchResult).

(** [loadSiteBooksIfNeeded]: [inl message] is a thrown error, [inr c] the
    cache after the call. *)
Definition loadSiteBooksIfNeeded (c : gmap jsstring (list Strict.Book))
    (siteValue : jsstring) : jsstring + gmap jsstring (list Strict.Book) :=
  if streq siteValue [] then inr c
  else match c !! siteValue with
       | Some _ => inr c
       | None =>
           match CSV_BY_SITE siteValue with
           | None => inl MSG_NO_CSV
           | Some filename =>
               match fetch (BASE_URL ++ filename) with
               | Rejected message => inl message
               | Response false status _ =>
                   inl (filename ++ MSG_LOAD_TAIL ++ toStringNat status ++ u ")")
               | Response true _ text =>
                   let mapped :=
                     List.map toBook (Csv.rowsToObjects (Csv.parseCSV text)) in
                   inr (<[siteValue := mapped]> c)
               end
           end
       end.

(** [runSearch], from the click to the end of its [finally] block. *)
Definition runSearch (st : State) : State :=
  let trimmed := trim (query st) in
  if streq (site st) [] then
    mkState (loading st) (loadError st) (site st) (selectedField st) (query st)
            [] MSG_NO_SITE 1 (cache st)
  else if streq trimmed [] then
    mkState (loading st) (loadError st) (site st) (selectedField st) (query st)
            [] MSG_EMPTY 1 (cache st)
  else
    match loadSiteBooksIfNeeded (cache st) (site st) with
    | inr c =>
        mkState false [] (site st) (selectedField st) (query st)
                trimmed [] 1 c
    | inl message =>
        mkState false message (site st) (selectedField st) (query st)
                [] [] 1 (cache st)
    end.

(** [onChange] of the site selector: the five resets, then the preload of
    the chosen site with its [try], [catch] and [finally]. *)
Definition selectSite (next : jsstring) (st : State) : State :=
  if streq next [] then
    mkState (loading st) [] next (selectedField st) (query st) [] [] 1 (cache st)
  else
    match loadSiteBooksIfNeeded (cache st) next with
    | inr c =>
        mkState false [] next (selectedField st) (query st) [] [] 1 c
    | inl message =>
        mkState false message next (selectedField st) (query st) [] [] 1 (cache st)
    end.

End Loading.

(** [submittedQuery.trim() !== ''] *)
Definition hasSearched (st : State) : bool :=
  negb (streq (trim (submittedQuery st)) []).

Section Filtering.
Context `{Casing}.

Definition normalizeBase (s : option jsstring) : jsstring :=
  replaceWs [SPACE] (toLowerCase (trim (default [] s))).

Definition normalizeNoSpace (s : option jsstring) : jsstring :=
  replaceWs [] (normalizeBase s).

(** The callback of [books.filter]. *)
Definition matches (selected q qNoSpace : jsstring) (b : Strict.Book) : bool :=
  let target := default [] (Strict.bookGet b selected) in
  let t := normalizeBase (Some target) in
  let tNoSpace := normalizeNoSpace (Some target) in
  includes t q || includes tNoSpace qNoSpace.

Definition filtered (st : State) : list Strict.Book :=
  let q := normalizeBase (Some (submittedQuery st)) in
  if streq q [] then []
  else
    let qNoSpace := normalizeNoSpace (Some (submittedQuery st)) in
    List.filter (matches (selectedField st) q qNoSpace) (books st).

Definition pageItems (st : State) : list Strict.Book :=
  Paging.pageItems (filtered st) (currentPage st).

End Filtering.

End Lenient.

(** * The vocabulary of the statements *)

(** The four ways in which an iteration changes the loop variables. *)
Definition pushUnits (st : Csv.PState) (w : jsstring) : Csv.PState :=
  Csv.mkPState (Csv.rows st) (Csv.row st) (Csv.field st ++ w) (Csv.inQuotes st).

Definition toggled (st : Csv.PState) : Csv.PState :=
  Csv.mkPState (Csv.rows st) (Csv.row st) (Csv.field st) (negb (Csv.inQuotes st)).

Definition endField (st : Csv.PState) : Csv.PState :=
  Csv.mkPState (Csv.rows st) (Csv.row st ++ [Csv.field st]) [] (Csv.inQuotes st).

Definition endRow (st : Csv.PState) : Csv.PState :=
  Csv.mkPState (Csv.flushRow (Csv.rows st) (Csv.row st) (Csv.field st)) [] []
               (Csv.inQuotes st).

(** The ceiling of [n / 10], in integers. *)
Definition ceilTenth (n : Z) : Z := (- ((- n) / 10))%Z.

Definition allWs (s : jsstring) : Prop := Forall (fun c => isWhiteSpace c = true) s.
Definition noWs (s : jsstring) : Prop := Forall (fun c => isWhiteSpace c = false) s.

Definition nonWs (c : N) : bool := negb (isWhiteSpace c).

(** The shape of a string whose runs of white space were replaced by one
    space each: a white-space code unit is a space and is not preceded by
    another one. [prevWs] tells whether the code unit before the string is
    white space. *)
Fixpoint collapsedFrom (prevWs : bool) (s : jsstring) : Prop :=
  match s with
  | [] => True
  | c :: r =>
      if isWhiteSpace c
      then c = SPACE /\ prevWs = false /\ collapsedFrom true r
      else collapsedFrom false r
  end.

Definition collapsed (s : jsstring) : Prop := collapsedFrom false s.

(** The writing that the parser undoes: a field is put between quotes with
    its own quotes doubled, and the fields of a row are joined by commas. *)
Fixpoint escapeQuotes (w : jsstring) : jsstring :=
  match w with
  | [] => []
  | c :: r =>
      if c =? DQUOTE then DQUOTE :: DQUOTE :: escapeQuotes r
      else c :: escapeQuotes r
  end.

Definition quoted (w : jsstring) : jsstring := DQUOTE :: escapeQuotes w ++ [DQUOTE].

Fixpoint joinFields (fs : list jsstring) : jsstring :=
  match fs with
  | [] => []
  | f :: fs' =>
      match fs' with
      | [] => f
      | _ :: _ => f ++ COMMA :: joinFields fs'
      end
  end.

(** The code units of a line that has nothing but commas and white space. *)
Definition blankUnit (c : N) : Prop :=
  c = COMMA \/ (isWhiteSpace c = true /\ c <> LF /\ c <> CR).

(** A field that needs no quotes, and lines joined by a line end. *)
Definition plainField (w : jsstring) : Prop :=
  Forall (fun c => c <> DQUOTE /\ c <> COMMA /\ c <> LF /\ c <> CR) w.

Fixpoint joinLines (sep : jsstring) (ls : list jsstring) : jsstring :=
  match ls with
  | [] => []
  | l :: ls' =>
      match ls' with
      | [] => l
      | _ :: _ => l ++ sep ++ joinLines sep ls'
      end
  end.

(** The keys under which the columns of a table are stored: the normalised
    header cells, each empty one replaced by [__col_] and its position. *)
Definition columnKeys (headersRaw : list jsstring) : list jsstring :=
  let headers := List.map (fun h => Csv.normalizeHeader (Some h)) headersRaw in
  List.map (Csv.columnKey headers) (seq 0 (length headers)).

(** The count of user-perceived characters asked of the length check, as far
    as combining marks go: over the code points of the string, a code point
    of the block Combining Diacritical Marks (U+0300 to U+036F) belongs to
    the character before it, and every other code point, as well as the
    first one of the string, starts a character. *)
Definition isCombiningMark (cp : jsstring) : bool :=
  match cp with
  | [c] => (0x300 <=? c) && (c <=? 0x36F)
  | _ => false
  end.

Definition userPerceivedLength (s : jsstring) : nat :=
  match arrayFrom s with
  | [] => 0
  | _ :: r => S (length (List.filter (fun cp => negb (isCombiningMark cp)) r))
  end.

(** The loop variables with [rs] put before the rows read so far. *)
Definition shiftRows (rs : list (list jsstring)) (st : Csv.PState) : Csv.PState :=
  Csv.mkPState (rs ++ Csv.rows st) (Csv.row st) (Csv.field st) (Csv.inQuotes st).

(** The three columns that the books keep. *)
Definition bookKeys : list jsstring :=
  [Strict.K_TITLE; Strict.K_AUTHOR; Strict.K_PUBLISHER].

(** The page numbers [1 .. totalPages], and the pages they show. *)
Definition pageNumbers (totalResults : nat) : list Z :=
  List.map (fun k => Z.of_nat (S k)) (seq 0 (Z.to_nat (Paging.totalPages totalResults))).

Definition allPages {A} (results : list A) : list (list A) :=
  List.map (Paging.pageItems results) (pageNumbers (length results)).

(** * Sample tables, texts and states *)

Definition bookFoo : Strict.Book := Strict.mkBook (Some (u "0")) (u "FOO BAR") [] [].

Definition stateFoo : Strict.State :=
  Strict.mkState [bookFoo] Strict.K_TITLE (u " foo   bar ") [] [] 1.

Definition bookSpaced : Strict.Book :=
  Strict.mkBook (Some (u "0")) (u "foo bar") [] [].

Definition stateFoobar : Lenient.State :=
  Lenient.mkState false [] (u "3") Lenient.K_TITLE (u "foobar") (u "foobar") [] 1
                  {[ u "3" := [bookSpaced] ]}.

(** The same site and books, with the query typed and not yet submitted. *)
Definition stateTyped : Lenient.State :=
  Lenient.mkState false [] (u "3") Lenient.K_TITLE (u " foobar ") [] [] 1
                  {[ u "3" := [bookSpaced] ]}.

Definition noFetch (url : jsstring) : Lenient.FetchResult := Lenient.Rejected [].

Definition lineDoe : jsstring := [DQUOTE] ++ u "Doe, Jane" ++ [DQUOTE] ++ u ",Title,Pub".

Definition lineHi : jsstring :=
  [DQUOTE] ++ u "He said " ++ [DQUOTE; DQUOTE] ++ u "hi" ++ [DQUOTE; DQUOTE; DQUOTE]
  ++ u ",A,B".

Definition textCrlf : jsstring := u "a,b" ++ [CR; LF] ++ u "c,d".
Definition textLf : jsstring := u "a,b" ++ [LF] ++ u "c,d".
Definition textBlank : jsstring := u "a,b" ++ [LF] ++ u ", ," ++ [LF] ++ u "c,d".

Definition linesPlain : list (list jsstring) :=
  [ [u "a"; u "b"]; [[]; u " "; []]; [u "c"; u "d"] ].

Definition rowsClash : list (list jsstring) :=
  [ [u "__id"; u "a"; u "a"; u " "; u "__proto__"];
    [u "x"; u "1"; u "2"; u "v"; u "p"] ].

Definition rowsBooks : list (list jsstring) :=
  [ [BOM :: u "Title "; []; u "Author"];
    [u " Dune "; u "x"; u "Herbert"];
    [u "Emma"] ].

Definition bookAbc : Strict.Book := Strict.mkBook (Some (u "0")) (u "abc") [] [].

(** Results of the query [ab] are shown, and the input box was emptied. *)
Definition stateShown : Strict.State :=
  Strict.mkState [bookAbc] Strict.K_TITLE [] (u "ab") [] 1.

Definition stateOneLetter : Strict.State :=
  Strict.mkState [bookAbc] Strict.K_TITLE (u " a ") (u "ab") [] 3.

Definition stateNoSite : Lenient.State :=
  Lenient.mkState false [] [] Lenient.K_TITLE (u "abc") [] [] 2 ∅.

Definition queryAccent : jsstring := [0x65; 0x301].

Definition stateAccent : Strict.State :=
  Strict.mkState [] Strict.K_TITLE queryAccent [] [] 1.


Definition queryEmoji : jsstring := [0xD83D; 0xDE00; 0xD83D; 0xDE01].

Definition stateEmoji : Strict.State :=
  Strict.mkState [] Strict.K_TITLE (SPACE :: queryEmoji) [] [] 5.

(** A table whose second and third columns have the same name, and whose
    first header cell starts with a byte-order mark. *)
Definition rowsTwice : list (list jsstring) :=
  [ [BOM :: Strict.K_TITLE; u "a"; u " a "];
    [u " Dune "; u "1"; u " 2 "];
    [u "Emma"] ].

Definition bookOne : Strict.Book :=
  Strict.mkBook (Some (u "0")) (u "The Book  One") [] [].

Definition booksShelf : list Strict.Book :=
  [ Strict.mkBook (Some (u "0")) (u "Dune") (u "Herbert") [];
    Strict.mkBook (Some (u "1")) (u "Dune Messiah") (u "Herbert") [];
    Strict.mkBook (Some (u "2")) (u "Emma") (u "Austen") [] ].

(** A server that has the file of site 3 and answers 404 for the rest. *)
Definition fetchThree (url : jsstring) : Lenient.FetchResult :=
  if streq url (u "/lib/books_3.csv")
  then Lenient.Response true 200
         (Strict.K_TITLE ++ [COMMA] ++ Strict.K_AUTHOR ++ [LF] ++ u "Dune,Herbert")
  else Lenient.Response false 404 [].

Definition stateFresh : Lenient.State :=
  Lenient.mkState false [] [] Lenient.K_TITLE [] [] [] 1 ∅.

Definition stateAsk (site : jsstring) : Lenient.State :=
  Lenient.mkState false [] site Lenient.K_TITLE (u " dune ") [] [] 4 ∅.

(** * Properties *)

(** ** White space, trimming and replacement *)

Lemma trimStart_ws_app (a s : jsstring) :
  allWs a -> trimStart (a ++ s) = trimStart s.
Proof.
  induction 1 as [|c a Hc _ IH]; simpl; [reflexivity|].
  now rewrite Hc.
Qed.

Lemma trimStart_nil_iff (s : jsstring) : trimStart s = [] <-> allWs s.
Proof.
  induction s as [|c s IH]; simpl.
  - split; [constructor | reflexivity].
  - destruct (isWhiteSpace c) eqn:Hc.
    + rewrite IH. split; [now constructor | now inversion 1].
    + split; [discriminate|]. inversion 1; congruence.
Qed.

Lemma trimStart_app_keep (s b : jsstring) :
  trimStart s <> [] -> trimStart (s ++ b) = trimStart s ++ b.
Proof.
  induction s as [|c s IH]; simpl; [congruence|].
  destruct (isWhiteSpace c); [exact IH | reflexivity].
Qed.

Lemma allWs_rev (s : jsstring) : allWs s -> allWs (rev s).
Proof. unfold allWs. rewrite !List.Forall_forall. intros H c Hc. apply H. now apply in_rev. Qed.

Lemma trimEnd_app_ws (s b : jsstring) : allWs b -> trimEnd (s ++ b) = trimEnd s.
Proof.
  intros Hb. unfold trimEnd. rewrite rev_app_distr.
  now rewrite trimStart_ws_app by now apply allWs_rev.
Qed.

Lemma trimEnd_nil_iff (s : jsstring) : trimEnd s = [] <-> allWs s.
Proof.
  unfold trimEnd. split.
  - intros H. apply (f_equal (@rev N)) in H. rewrite rev_involutive in H. simpl in H.
    apply trimStart_nil_iff in H. apply allWs_rev in H. now rewrite rev_involutive in H.
  - intros H. apply allWs_rev, trimStart_nil_iff in H. now rewrite H.
Qed.

(** [trimStart] and [trimEnd] only drop a prefix and a suffix of white
    space. *)
Lemma trimStart_split (s : jsstring) :
  exists a, allWs a /\ s = a ++ trimStart s.
Proof.
  induction s as [|c s [a [Ha IH]]]; simpl.
  - exists []. split; [constructor | reflexivity].
  - destruct (isWhiteSpace c) eqn:Hc.
    + exists (c :: a). split; [now constructor | simpl; congruence].
    + exists []. split; [constructor | reflexivity].
Qed.

Lemma trimEnd_split (s : jsstring) :
  exists b, allWs b /\ s = trimEnd s ++ b.
Proof.
  destruct (trimStart_split (rev s)) as [a [Ha Hs]].
  exists (rev a). split; [now apply allWs_rev|].
  unfold trimEnd. rewrite <- rev_app_distr, <- Hs. now rewrite rev_involutive.
Qed.

Lemma trim_split (s : jsstring) :
  exists a b, allWs a /\ allWs b /\ s = a ++ trim s ++ b.
Proof.
  destruct (trimStart_split s) as [a [Ha Hs]].
  destruct (trimEnd_split (trimStart s)) as [b [Hb Ht]].
  exists a, b. unfold trim. repeat split; trivial. now rewrite <- Ht.
Qed.

Lemma allWs_app (a b : jsstring) : allWs (a ++ b) <-> allWs a /\ allWs b.
Proof. apply List.Forall_app. Qed.

Lemma trim_nil_iff (s : jsstring) : trim s = [] <-> allWs s.
Proof.
  unfold trim. rewrite trimEnd_nil_iff. split.
  - intros H. destruct (trimStart_split s) as [a [Ha Hs]]. rewrite Hs.
    apply allWs_app. now split.
  - intros H. apply trimStart_nil_iff in H. rewrite H. constructor.
Qed.

(** Trimming ignores white space around the string. *)
Lemma trim_ws_around (a s b : jsstring) :
  allWs a -> allWs b -> trim (a ++ s ++ b) = trim s.
Proof.
  intros Ha Hb. unfold trim. rewrite trimStart_ws_app by assumption.
  destruct (trimStart s) eqn:Hs.
  - apply trimStart_nil_iff in Hs.
    assert (H : allWs (s ++ b)) by (apply allWs_app; now split).
    apply trimStart_nil_iff in H. now rewrite H.
  - rewrite trimStart_app_keep by congruence. rewrite Hs.
    now apply trimEnd_app_ws.
Qed.

(** What is left by trimming neither starts nor ends with white space. *)
Lemma trimStart_cons (s : jsstring) (c : N) (r : jsstring) :
  trimStart s = c :: r -> isWhiteSpace c = false.
Proof.
  induction s as [|a s IH]; simpl; [discriminate|].
  destruct (isWhiteSpace a) eqn:Ha; [exact IH|]. now intros [= <- _].
Qed.

Lemma trimEnd_snoc (s : jsstring) (init : jsstring) (c : N) :
  trimEnd s = init ++ [c] -> isWhiteSpace c = false.
Proof.
  unfold trimEnd. intros H. apply (f_equal (@rev N)) in H.
  rewrite rev_involutive, rev_app_distr in H. simpl in H.
  now apply trimStart_cons in H.
Qed.

Lemma trim_cons (s : jsstring) (c : N) (r : jsstring) :
  trim s = c :: r -> isWhiteSpace c = false.
Proof.
  intros H. destruct (trimEnd_split (trimStart s)) as [b [_ Hb]].
  fold (trim s) in Hb. rewrite H in Hb. simpl in Hb.
  now apply trimStart_cons in Hb.
Qed.

Lemma trim_snoc (s : jsstring) (init : jsstring) (c : N) :
  trim s = init ++ [c] -> isWhiteSpace c = false.
Proof. apply trimEnd_snoc. Qed.

Lemma trimStart_id (x : jsstring) :
  (forall c r, x = c :: r -> isWhiteSpace c = false) -> trimStart x = x.
Proof.
  destruct x as [|c r]; intros H; simpl; [reflexivity|].
  now rewrite (H c r eq_refl).
Qed.

Lemma trimEnd_id (x : jsstring) :
  (forall init c, x = init ++ [c] -> isWhiteSpace c = false) -> trimEnd x = x.
Proof.
  intros H. unfold trimEnd. rewrite trimStart_id; [apply rev_involutive|].
  intros c r Hr. apply (H (rev r) c).
  rewrite <- (rev_involutive x), Hr. reflexivity.
Qed.

Lemma trim_idempotent (s : jsstring) : trim (trim s) = trim s.
Proof.
  unfold trim at 1. rewrite (trimStart_id (trim s)) by apply trim_cons.
  apply trimEnd_id. apply trim_snoc.
Qed.

Lemma replaceWsFrom_snoc_keep (rep : jsstring) (inRun : bool) (x : jsstring) (c : N) :
  isWhiteSpace c = false ->
  replaceWsFrom rep inRun (x ++ [c]) = replaceWsFrom rep inRun x ++ [c].
Proof.
  intros Hc. revert inRun. induction x as [|a x IH]; intros inRun; simpl.
  - now rewrite Hc.
  - destruct (isWhiteSpace a).
    + now rewrite IH, app_assoc.
    + now rewrite IH.
Qed.

Lemma isWhiteSpace_lowerUnit (c : N) : isWhiteSpace (lowerUnit c) = isWhiteSpace c.
Proof.
  unfold lowerUnit.
  destruct (N.leb_spec 0x41 c); [|reflexivity].
  destruct (N.leb_spec c 0x5A); [|reflexivity]. simpl.
  unfold isWhiteSpace.
  rewrite !(proj2 (N.eqb_neq _ _)) by lia.
  rewrite (proj2 (N.leb_gt 0x2000 (c + 0x20))), (proj2 (N.leb_gt 0x2000 c)) by lia.
  reflexivity.
Qed.

(** Replacing the runs by the empty string removes every white-space code
    unit. *)
Lemma replaceWsFrom_nil (inRun : bool) (s : jsstring) :
  replaceWsFrom [] inRun s = List.filter nonWs s.
Proof.
  revert inRun. induction s as [|c s IH]; intros inRun; simpl; [reflexivity|].
  unfold nonWs at 1. destruct (isWhiteSpace c); simpl.
  - destruct inRun; simpl; apply IH.
  - f_equal. apply IH.
Qed.

Lemma replaceWs_nil (s : jsstring) : replaceWs [] s = List.filter nonWs s.
Proof. apply replaceWsFrom_nil. Qed.

Lemma filter_nonWs_allWs (a : jsstring) : allWs a -> List.filter nonWs a = [].
Proof.
  induction 1 as [|c a Hc _ IH]; simpl; [reflexivity|].
  unfold nonWs at 1. now rewrite Hc.
Qed.

Lemma filter_nonWs_noWs (s : jsstring) : noWs (List.filter nonWs s).
Proof.
  unfold noWs. apply List.Forall_forall. intros c Hc.
  apply filter_In in Hc. destruct Hc as [_ Hc]. unfold nonWs in Hc.
  now destruct (isWhiteSpace c).
Qed.

Lemma filter_nonWs_trim (s : jsstring) :
  List.filter nonWs (trim s) = List.filter nonWs s.
Proof.
  destruct (trim_split s) as [a [b [Ha [Hb Hs]]]].
  rewrite Hs at 2. rewrite !List.filter_app.
  now rewrite (filter_nonWs_allWs a), (filter_nonWs_allWs b), app_nil_r.
Qed.

Lemma replaceWsFrom_space_collapsed (inRun : bool) (s : jsstring) :
  collapsedFrom inRun (replaceWsFrom [SPACE] inRun s)
  /\ collapsedFrom false (replaceWsFrom [SPACE] inRun s).
Proof.
  revert inRun. induction s as [|c s IH]; intros inRun; simpl; [tauto|].
  destruct (isWhiteSpace c) eqn:Hc.
  - destruct inRun; simpl.
    + destruct (IH true) as [H1 H2]. split; assumption.
    + destruct (IH true) as [H1 H2]. change (isWhiteSpace SPACE) with true.
      simpl. tauto.
  - simpl. rewrite Hc. destruct (IH false) as [H1 H2]. split; assumption.
Qed.

Lemma replaceWs_space_collapsed (s : jsstring) : collapsed (replaceWs [SPACE] s).
Proof. apply (replaceWsFrom_space_collapsed false s). Qed.

Lemma collapsedFrom_weaken (b : bool) (s : jsstring) :
  collapsedFrom b s -> collapsedFrom false s.
Proof.
  destruct s as [|c s]; simpl; [trivial|].
  destruct (isWhiteSpace c); tauto.
Qed.

(** The same shape, told on positions. *)
Lemma collapsedFrom_spec (b : bool) (s : jsstring) :
  collapsedFrom b s ->
  (forall c, In c s -> isWhiteSpace c = true -> c = SPACE)
  /\ (forall (i : nat) c d, s !! i = Some c -> s !! S i = Some d ->
        isWhiteSpace c = true -> d <> SPACE /\ isWhiteSpace d <> true).
Proof.
  revert b. induction s as [|c s IH]; intros b H.
  - split; [intros c [] | intros i c d Hc; destruct i; discriminate Hc].
  - simpl in H. destruct (isWhiteSpace c) eqn:Hc.
    + destruct H as [Heq [_ H]]. destruct (IH _ H) as [IH1 IH2]. split.
      * intros x [<-|Hx] Hw; [assumption | now apply IH1].
      * intros [|i] x d Hx Hd Hw; simpl in *.
        -- destruct s as [|e s]; [discriminate|]. simpl in Hd.
           injection Hd as <-. simpl in H.
           destruct (isWhiteSpace e) eqn:He.
           ++ destruct H as [_ [H _]]; discriminate.
           ++ split; [intros ->; discriminate He | congruence].
        -- now apply (IH2 i x d).
    + destruct (IH _ H) as [IH1 IH2]. split.
      * intros x [<-|Hx] Hw; [congruence | now apply IH1].
      * intros [|i] x d Hx Hd Hw; simpl in *.
        -- injection Hx as <-. congruence.
        -- now apply (IH2 i x d).
Qed.

Lemma replaceWs_space_nil (s : jsstring) : replaceWs [SPACE] s = [] -> s = [].
Proof.
  unfold replaceWs. destruct s as [|c s]; simpl; [reflexivity|].
  destruct (isWhiteSpace c); discriminate.
Qed.

(** ** Substring search *)

Lemma startsWith_spec (s q : jsstring) :
  startsWith s q = true <-> exists y, s = q ++ y.
Proof.
  revert s. induction q as [|b q IH]; intros s; simpl.
  - split; [intros _; now exists s | reflexivity].
  - destruct s as [|a s].
    + split; [discriminate | intros [y Hy]; discriminate].
    + rewrite andb_true_iff, N.eqb_eq, IH. split.
      * intros [-> [y ->]]. now exists y.
      * intros [y Hy]. injection Hy as -> ->. split; [reflexivity | now exists y].
Qed.

Lemma includes_spec (s q : jsstring) :
  includes s q = true <-> exists x y, s = x ++ q ++ y.
Proof.
  induction s as [|a s IH]; simpl; rewrite orb_true_iff, startsWith_spec.
  - split.
    + intros [[y Hy]|H]; [now exists [], y | discriminate].
    + intros [x [y H]]. left. destruct x; [now exists y | discriminate].
  - rewrite IH. split.
    + intros [[y Hy]|[x [y Hy]]]; [now exists [], y|].
      exists (a :: x), y. simpl. now rewrite Hy.
    + intros [[|a' x] [y Hy]]; [left; now exists y|].
      right. injection Hy as -> ->. now exists x, y.
Qed.

Lemma includes_filter (f : N -> bool) (s q : jsstring) :
  includes s q = true -> includes (List.filter f s) (List.filter f q) = true.
Proof.
  rewrite !includes_spec. intros [x [y ->]].
  exists (List.filter f x), (List.filter f y). now rewrite !List.filter_app.
Qed.

(** ** Casing *)

Lemma asciiCasing_laws : CasingLaws asciiCasing.
Proof.
  split.
  - reflexivity.
  - intros s. unfold toLowerCase, asciiCasing. now destruct s.
Qed.

Lemma isAscii_trim (s : jsstring) : Forall isAscii s -> Forall isAscii (trim s).
Proof.
  destruct (trim_split s) as [a [b [_ [_ Hs]]]]. intros H. rewrite Hs in H.
  apply List.Forall_app in H. destruct H as [_ H].
  apply List.Forall_app in H. tauto.
Qed.

Ltac ascii := vm_compute; repeat constructor.

(** ** Header normalisation *)

Lemma normalizeHeader_filter (h : jsstring) :
  Csv.normalizeHeader (Some h) = List.filter nonWs h.
Proof.
  unfold Csv.normalizeHeader. simpl. rewrite replaceWs_nil, filter_nonWs_trim.
  destruct h as [|c h]; simpl; [reflexivity|].
  destruct (c =? BOM) eqn:Hc; [|reflexivity].
  apply N.eqb_eq in Hc. subst c. reflexivity.
Qed.

(** C8. For every header cell, [normalizeHeader] drops a leading byte-order
    mark, ignores the white space around the cell and removes every
    white-space code unit inside it (the result is the cell without its
    white-space code units, so nothing is collapsed to a space); the cell
    [Title Name], with a space before and after it, gives the key
    [TitleName]. *)
Theorem normalizeHeader_strips_all_white_space :
  (forall h, Csv.stripBom (BOM :: h) = h)
  /\ (forall h, Csv.normalizeHeader (Some (BOM :: h)) = Csv.normalizeHeader (Some h))
  /\ (forall a h b, allWs a -> allWs b ->
        Csv.normalizeHeader (Some (a ++ h ++ b)) = Csv.normalizeHeader (Some h))
  /\ (forall h, Csv.normalizeHeader (Some h) = List.filter nonWs h)
  /\ (forall h, noWs (Csv.normalizeHeader (Some h)))
  /\ Csv.normalizeHeader (Some (u " Title Name ")) = u "TitleName".
Proof.
  repeat split.
  - intros h. rewrite !normalizeHeader_filter. reflexivity.
  - intros a h b Ha Hb. rewrite !normalizeHeader_filter, !List.filter_app.
    now rewrite (filter_nonWs_allWs a), (filter_nonWs_allWs b), app_nil_r.
  - apply normalizeHeader_filter.
  - intros h. rewrite normalizeHeader_filter. apply filter_nonWs_noWs.
Qed.

Lemma normalizeHeader_strips_all_white_space_witness :
  allWs (u "  ") /\ allWs [0x09] /\
  Csv.normalizeHeader (Some (u "  " ++ u "Ti tle" ++ [0x09]))
  = Csv.normalizeHeader (Some (u "Ti tle")).
Proof.
  split; [ascii|]. split; [ascii|].
  apply (proj1 (proj2 (proj2 normalizeHeader_strips_all_white_space))); ascii.
Defined.

(** ** The search normaliser *)

Section Normaliser.
Context {C : Casing} {HC : CasingLaws C}.

Lemma normalizeText_ascii (s : jsstring) :
  Forall isAscii s ->
  Csv.normalizeText (Some s) = replaceWs [SPACE] (List.map lowerUnit (trim s)).
Proof.
  intros Hs. unfold Csv.normalizeText. simpl.
  now rewrite toLowerCase_ascii by now apply isAscii_trim.
Qed.

Lemma normalizeText_nil_iff (s : jsstring) :
  Csv.normalizeText (Some s) = [] <-> trim s = [].
Proof.
  unfold Csv.normalizeText. simpl. split.
  - intros Hn. now apply toLowerCase_nil, replaceWs_space_nil.
  - intros ->. now rewrite (toLowerCase_ascii []) by constructor.
Qed.

Lemma normalizeText_ascii_ends (s : jsstring) :
  Forall isAscii s ->
  (forall c rest, Csv.normalizeText (Some s) = c :: rest -> isWhiteSpace c = false)
  /\ (forall init c, Csv.normalizeText (Some s) = init ++ [c] -> isWhiteSpace c = false).
Proof.
  intros Hs. rewrite normalizeText_ascii by assumption. unfold replaceWs. split.
  - intros c rest. destruct (trim s) as [|d t] eqn:Ht; [discriminate|].
    apply trim_cons in Ht. simpl. rewrite isWhiteSpace_lowerUnit, Ht.
    intros [= <- _]. now rewrite isWhiteSpace_lowerUnit.
  - intros init c. destruct (trim s) as [|d0 t0] eqn:Ht.
    + simpl. now destruct init.
    + assert (Hne : d0 :: t0 <> []) by discriminate.
      destruct (exists_last Hne) as [t [d Hd]]. rewrite Hd in *. clear Hd Hne.
      apply trim_snoc in Ht. rewrite List.map_app. simpl List.map.
      rewrite replaceWsFrom_snoc_keep by now rewrite isWhiteSpace_lowerUnit.
      intros H. apply app_inj_tail in H. destruct H as [_ <-].
      now rewrite isWhiteSpace_lowerUnit.
Qed.

Lemma normalizeBase_ascii (s : jsstring) :
  Forall isAscii s ->
  Lenient.normalizeBase (Some s) = replaceWs [SPACE] (List.map lowerUnit (trim s)).
Proof. apply normalizeText_ascii. Qed.

Lemma normalizeBase_nil_iff (s : jsstring) :
  Lenient.normalizeBase (Some s) = [] <-> trim s = [].
Proof. apply normalizeText_nil_iff. Qed.

End Normaliser.

(** The query that [runSearch] submits is a trimmed one. *)
Lemma strict_runSearch_submitted_trimmed (st : Strict.State) :
  trim (Strict.submittedQuery (Strict.runSearch st))
  = Strict.submittedQuery (Strict.runSearch st).
Proof.
  unfold Strict.runSearch. cbv zeta.
  destruct (streq _ []); [reflexivity|].
  destruct (_ <? 2)%nat; [reflexivity|]. simpl. apply trim_idempotent.
Qed.

Lemma lenient_runSearch_submitted_trimmed (BASE_URL : jsstring)
    (fetch : jsstring -> Lenient.FetchResult) (st : Lenient.State) :
  trim (Lenient.submittedQuery (Lenient.runSearch BASE_URL fetch st))
  = Lenient.submittedQuery (Lenient.runSearch BASE_URL fetch st).
Proof.
  unfold Lenient.runSearch. cbv zeta.
  destruct (streq (Lenient.site st) []); [reflexivity|].
  destruct (streq _ []); [reflexivity|].
  destruct (Lenient.loadSiteBooksIfNeeded _ _ _ _); simpl;
    [reflexivity | apply trim_idempotent].
Qed.

(** C9. [normalizeText] ignores the white space around its argument, leaves
    every run of white space as one space, and lowers the letters (on ASCII
    strings: A-Z, and the result neither starts nor ends with white space);
    the filter keeps the books whose normalised field contains
    the normalised query, both normalised by this function, which
    [normalizeBase] of the other variant is too. The query [ foo   bar ],
    with spaces around it, finds the candidate [FOO BAR]. *)
Theorem normalizeText_filter {C : Casing} {HC : CasingLaws C} :
  (forall a s b, allWs a -> allWs b ->
     Csv.normalizeText (Some (a ++ s ++ b)) = Csv.normalizeText (Some s))
  /\ (forall s c, In c (Csv.normalizeText (Some s)) -> isWhiteSpace c = true -> c = SPACE)
  /\ (forall s (i : nat) c d,
        Csv.normalizeText (Some s) !! i = Some c ->
        Csv.normalizeText (Some s) !! S i = Some d ->
        isWhiteSpace c = true -> d <> SPACE /\ isWhiteSpace d <> true)
  /\ (forall s, Forall isAscii s ->
        Csv.normalizeText (Some s) = replaceWs [SPACE] (List.map lowerUnit (trim s))
        /\ (forall c rest, Csv.normalizeText (Some s) = c :: rest ->
              isWhiteSpace c = false)
        /\ (forall init c, Csv.normalizeText (Some s) = init ++ [c] ->
              isWhiteSpace c = false))
  /\ (forall st b, trim (Strict.submittedQuery st) <> [] ->
        (In b (Strict.filtered st) <->
         In b (Strict.books st)
         /\ includes (Csv.normalizeText (Strict.bookGet b (Strict.selectedField st)))
                     (Csv.normalizeText (Some (Strict.submittedQuery st))) = true))
  /\ (forall st0 b,
        let st := Strict.runSearch st0 in
        Strict.submittedQuery st <> [] ->
        (In b (Strict.filtered st) <->
         In b (Strict.books st)
         /\ includes (Csv.normalizeText (Strict.bookGet b (Strict.selectedField st)))
                     (Csv.normalizeText (Some (Strict.submittedQuery st))) = true))
  /\ (forall s, Lenient.normalizeBase s = Csv.normalizeText s)
  /\ Csv.normalizeText (Some (u " foo   bar ")) = u "foo bar"
  /\ Csv.normalizeText (Some (u "FOO BAR")) = u "foo bar"
  /\ Strict.filtered (Strict.runSearch stateFoo) = [bookFoo].
Proof.
  assert (Hall : forall st b, trim (Strict.submittedQuery st) <> [] ->
        (In b (Strict.filtered st) <->
         In b (Strict.books st)
         /\ includes (Csv.normalizeText (Strict.bookGet b (Strict.selectedField st)))
                     (Csv.normalizeText (Some (Strict.submittedQuery st))) = true)).
  { intros st b Hq. unfold Strict.filtered.
    destruct (streq _ []) eqn:Hn.
    + apply bool_decide_eq_true in Hn. now apply normalizeText_nil_iff in Hn.
    + rewrite filter_In. reflexivity. }
  split; [|split; [|split; [|split; [|split; [|split;
    [|split; [reflexivity|split; [|split]]]]]]]].
  - intros a s b Ha Hb. unfold Csv.normalizeText. simpl.
    now rewrite trim_ws_around.
  - intros s. apply (collapsedFrom_spec false). apply replaceWs_space_collapsed.
  - intros s. apply (collapsedFrom_spec false). apply replaceWs_space_collapsed.
  - intros s Hs. split; [now apply normalizeText_ascii|].
    now apply normalizeText_ascii_ends.
  - exact Hall.
  - intros st0 b st Hne. apply Hall.
    unfold st in *. now rewrite strict_runSearch_submitted_trimmed.
  - rewrite normalizeText_ascii by ascii. vm_compute. reflexivity.
  - rewrite normalizeText_ascii by ascii. vm_compute. reflexivity.
  - change (Strict.runSearch stateFoo)
      with (Strict.mkState [bookFoo] Strict.K_TITLE (u " foo   bar ")
                           (u "foo   bar") [] 1).
    assert (Hq : Csv.normalizeText (Some (u "foo   bar")) = u "foo bar")
      by (rewrite normalizeText_ascii by ascii; vm_compute; reflexivity).
    assert (Ht : Csv.normalizeText (Strict.bookGet bookFoo Strict.K_TITLE) = u "foo bar")
      by (change (Strict.bookGet bookFoo Strict.K_TITLE) with (Some (u "FOO BAR"));
          rewrite normalizeText_ascii by ascii; vm_compute; reflexivity).
    unfold Strict.filtered.
    cbn [Strict.submittedQuery Strict.selectedField Strict.books].
    rewrite Hq. change (streq (u "foo bar") []) with false. cbv iota.
    cbn [List.filter]. unfold Strict.matches. rewrite Ht. reflexivity.
Qed.

Lemma normalizeText_filter_witness :
  (allWs (u " ") /\ allWs (u "  ") /\
   @Csv.normalizeText asciiCasing (Some (u " " ++ u "A b" ++ u "  "))
   = @Csv.normalizeText asciiCasing (Some (u "A b")))
  /\ (In SPACE (@Csv.normalizeText asciiCasing (Some (u "A  b"))) /\
      isWhiteSpace SPACE = true /\ SPACE = SPACE)
  /\ (@Csv.normalizeText asciiCasing (Some (u "A  b")) !! 1%nat = Some SPACE /\
      @Csv.normalizeText asciiCasing (Some (u "A  b")) !! 2%nat = Some 0x62 /\
      isWhiteSpace SPACE = true /\ 0x62 <> SPACE /\ isWhiteSpace 0x62 <> true)
  /\ (Forall isAscii (u " A  b") /\
      @Csv.normalizeText asciiCasing (Some (u " A  b"))
      = replaceWs [SPACE] (List.map lowerUnit (trim (u " A  b"))))
  /\ (trim (Strict.submittedQuery (Strict.runSearch stateFoo)) <> [] /\
      (In bookFoo (@Strict.filtered asciiCasing (Strict.runSearch stateFoo)) <->
       In bookFoo (Strict.books (Strict.runSearch stateFoo))
       /\ includes
            (@Csv.normalizeText asciiCasing
               (Strict.bookGet bookFoo (Strict.selectedField (Strict.runSearch stateFoo))))
            (@Csv.normalizeText asciiCasing
               (Some (Strict.submittedQuery (Strict.runSearch stateFoo)))) = true))
  /\ (Strict.submittedQuery (Strict.runSearch stateFoo) <> [] /\
      (In bookFoo (@Strict.filtered asciiCasing (Strict.runSearch stateFoo)) <->
       In bookFoo (Strict.books (Strict.runSearch stateFoo))
       /\ includes
            (@Csv.normalizeText asciiCasing
               (Strict.bookGet bookFoo (Strict.selectedField (Strict.runSearch stateFoo))))
            (@Csv.normalizeText asciiCasing
               (Some (Strict.submittedQuery (Strict.runSearch stateFoo)))) = true)).
Proof.
  pose proof (@normalizeText_filter asciiCasing asciiCasing_laws)
    as [T1 [T2 [T3 [T4 [T5 [T6 _]]]]]].
  assert (Hin : In SPACE (@Csv.normalizeText asciiCasing (Some (u "A  b"))))
    by (vm_compute; tauto).
  assert (Ha : Forall isAscii (u " A  b")) by ascii.
  split; [split; [ascii|]; split; [ascii|]; apply T1; ascii|].
  split; [split; [exact Hin|]; split; [reflexivity|];
          exact (T2 (u "A  b") SPACE Hin eq_refl)|].
  split; [split; [reflexivity|]; split; [reflexivity|]; split; [reflexivity|];
          exact (T3 (u "A  b") 1%nat SPACE 0x62 eq_refl eq_refl eq_refl)|].
  split; [split; [exact Ha|]; exact (proj1 (T4 (u " A  b") Ha))|].
  split; [split; [vm_compute; discriminate|]; apply T5; vm_compute; discriminate|].
  split; [vm_compute; discriminate|].
  apply (T6 stateFoo bookFoo). vm_compute. discriminate.
Defined.

(** ** Matching that ignores white space *)

(** C6. In the two-site variant, for a submitted query that is not empty
    after trimming, as is every query other than the empty one that
    [runSearch] submits, a book is in the result exactly when it is one of the
    books of the site and its selected field, normalised, contains the
    normalised query, or the same holds of the two with all white space
    removed. The query [foobar] finds [foo bar] by the second test only. *)
Theorem lenient_filter_disjunction {C : Casing} {HC : CasingLaws C} :
  (forall st b, trim (Lenient.submittedQuery st) <> [] ->
     let target := Some (default [] (Strict.bookGet b (Lenient.selectedField st))) in
     let q := Some (Lenient.submittedQuery st) in
     (In b (Lenient.filtered st) <->
      In b (Lenient.books st)
      /\ (includes (Lenient.normalizeBase target) (Lenient.normalizeBase q) = true
          \/ includes (Lenient.normalizeNoSpace target) (Lenient.normalizeNoSpace q) = true)))
  /\ (forall BASE_URL fetch st0 b,
        let st := Lenient.runSearch BASE_URL fetch st0 in
        Lenient.submittedQuery st <> [] ->
        let target := Some (default [] (Strict.bookGet b (Lenient.selectedField st))) in
        let q := Some (Lenient.submittedQuery st) in
        (In b (Lenient.filtered st) <->
         In b (Lenient.books st)
         /\ (includes (Lenient.normalizeBase target) (Lenient.normalizeBase q) = true
             \/ includes (Lenient.normalizeNoSpace target) (Lenient.normalizeNoSpace q) = true)))
  /\ includes (Lenient.normalizeBase (Some (u "foo bar")))
              (Lenient.normalizeBase (Some (u "foobar"))) = false
  /\ includes (Lenient.normalizeNoSpace (Some (u "foo bar")))
              (Lenient.normalizeNoSpace (Some (u "foobar"))) = true
  /\ Lenient.filtered stateFoobar = [bookSpaced].
Proof.
  assert (Hq : Lenient.normalizeBase (Some (u "foobar")) = u "foobar")
    by (rewrite normalizeBase_ascii by ascii; vm_compute; reflexivity).
  assert (Ht : Lenient.normalizeBase (Some (u "foo bar")) = u "foo bar")
    by (rewrite normalizeBase_ascii by ascii; vm_compute; reflexivity).
  assert (Hall : forall st b, trim (Lenient.submittedQuery st) <> [] ->
     (In b (Lenient.filtered st) <->
      In b (Lenient.books st)
      /\ (includes
            (Lenient.normalizeBase
               (Some (default [] (Strict.bookGet b (Lenient.selectedField st)))))
            (Lenient.normalizeBase (Some (Lenient.submittedQuery st))) = true
          \/ includes
               (Lenient.normalizeNoSpace
                  (Some (default [] (Strict.bookGet b (Lenient.selectedField st)))))
               (Lenient.normalizeNoSpace (Some (Lenient.submittedQuery st))) = true))).
  { intros st b Hne. unfold Lenient.filtered.
    destruct (streq _ []) eqn:Hn.
    + apply bool_decide_eq_true in Hn. now apply normalizeBase_nil_iff in Hn.
    + rewrite filter_In. unfold Lenient.matches. rewrite orb_true_iff. reflexivity. }
  split; [|split; [|split; [|split]]].
  - intros st b Hne target q. now apply Hall.
  - intros BASE_URL fetch st0 b st Hne target q. apply Hall.
    unfold st in *. now rewrite lenient_runSearch_submitted_trimmed.
  - rewrite Hq, Ht. vm_compute. reflexivity.
  - unfold Lenient.normalizeNoSpace. rewrite Hq, Ht. vm_compute. reflexivity.
  - unfold Lenient.filtered.
    change (Lenient.books stateFoobar) with [bookSpaced].
    change (Lenient.submittedQuery stateFoobar) with (u "foobar").
    change (Lenient.selectedField stateFoobar) with Lenient.K_TITLE.
    unfold Lenient.normalizeNoSpace. rewrite Hq.
    change (streq (u "foobar") []) with false. cbv iota.
    cbn [List.filter]. unfold Lenient.matches.
    change (default [] (Strict.bookGet bookSpaced Lenient.K_TITLE)) with (u "foo bar").
    unfold Lenient.normalizeNoSpace. rewrite Ht. reflexivity.
Qed.

Lemma lenient_filter_disjunction_witness :
  (trim (Lenient.submittedQuery stateFoobar) <> [] /\
   (In bookSpaced (@Lenient.filtered asciiCasing stateFoobar) <->
    In bookSpaced (Lenient.books stateFoobar)
    /\ (includes (@Lenient.normalizeBase asciiCasing (Some (u "foo bar")))
                 (@Lenient.normalizeBase asciiCasing (Some (u "foobar"))) = true
        \/ includes (@Lenient.normalizeNoSpace asciiCasing (Some (u "foo bar")))
                    (@Lenient.normalizeNoSpace asciiCasing (Some (u "foobar"))) = true)))
  /\ (Lenient.submittedQuery (Lenient.runSearch [] noFetch stateTyped) <> [] /\
      (In bookSpaced (@Lenient.filtered asciiCasing (Lenient.runSearch [] noFetch stateTyped)) <->
       In bookSpaced (Lenient.books (Lenient.runSearch [] noFetch stateTyped))
       /\ (includes (@Lenient.normalizeBase asciiCasing (Some (u "foo bar")))
                    (@Lenient.normalizeBase asciiCasing (Some (u "foobar"))) = true
           \/ includes (@Lenient.normalizeNoSpace asciiCasing (Some (u "foo bar")))
                       (@Lenient.normalizeNoSpace asciiCasing (Some (u "foobar"))) = true))).
Proof.
  pose proof (@lenient_filter_disjunction asciiCasing asciiCasing_laws) as [T1 [T2 _]].
  split.
  - split; [vm_compute; discriminate|].
    apply (T1 stateFoobar bookSpaced). vm_compute. discriminate.
  - split; [vm_compute; discriminate|].
    apply (T2 [] noFetch stateTyped bookSpaced). vm_compute. discriminate.
Defined.

Lemma normalizeNoSpace_filter {C : Casing} (s : option jsstring) :
  Lenient.normalizeNoSpace s = List.filter nonWs (Lenient.normalizeBase s).
Proof. unfold Lenient.normalizeNoSpace. apply replaceWs_nil. Qed.

(** C7. Whenever the normalised candidate contains the normalised query, the
    candidate without white space contains the query without white space;
    so the test of the two-site filter is the second of its two tests
    alone, and the result is the books passing that one. *)
Theorem collapsed_match_implies_stripped_match {C : Casing} :
  (forall t q : option jsstring,
     includes (Lenient.normalizeBase t) (Lenient.normalizeBase q) = true ->
     includes (Lenient.normalizeNoSpace t) (Lenient.normalizeNoSpace q) = true)
  /\ (forall selected (q : option jsstring) b,
        Lenient.matches selected (Lenient.normalizeBase q) (Lenient.normalizeNoSpace q) b
        = includes
            (Lenient.normalizeNoSpace (Some (default [] (Strict.bookGet b selected))))
            (Lenient.normalizeNoSpace q))
  /\ (forall st,
        Lenient.filtered st =
        if streq (Lenient.normalizeBase (Some (Lenient.submittedQuery st))) [] then []
        else List.filter
               (fun b =>
                  includes
                    (Lenient.normalizeNoSpace
                       (Some (default [] (Strict.bookGet b (Lenient.selectedField st)))))
                    (Lenient.normalizeNoSpace (Some (Lenient.submittedQuery st))))
               (Lenient.books st)).
Proof.
  assert (H1 : forall t q : option jsstring,
     includes (Lenient.normalizeBase t) (Lenient.normalizeBase q) = true ->
     includes (Lenient.normalizeNoSpace t) (Lenient.normalizeNoSpace q) = true).
  { intros t q H. rewrite !normalizeNoSpace_filter. now apply includes_filter. }
  assert (H2 : forall selected (q : option jsstring) b,
        Lenient.matches selected (Lenient.normalizeBase q) (Lenient.normalizeNoSpace q) b
        = includes
            (Lenient.normalizeNoSpace (Some (default [] (Strict.bookGet b selected))))
            (Lenient.normalizeNoSpace q)).
  { intros selected q b. unfold Lenient.matches. cbv zeta.
    destruct (includes (Lenient.normalizeBase _) (Lenient.normalizeBase q)) eqn:Hb;
      [|reflexivity].
    apply H1 in Hb. now rewrite Hb. }
  split; [exact H1|]. split; [exact H2|].
  intros st. unfold Lenient.filtered. destruct (streq _ []); [reflexivity|].
  apply List.filter_ext. intros b. apply H2.
Qed.

Lemma collapsed_match_implies_stripped_match_witness :
  includes (@Lenient.normalizeBase asciiCasing (Some (u "The Foo  Bar ")))
           (@Lenient.normalizeBase asciiCasing (Some (u "foo bar"))) = true
  /\ includes (@Lenient.normalizeNoSpace asciiCasing (Some (u "The Foo  Bar ")))
              (@Lenient.normalizeNoSpace asciiCasing (Some (u "foo bar"))) = true.
Proof.
  split; [vm_compute; reflexivity|].
  apply (proj1 (@collapsed_match_implies_stripped_match asciiCasing)).
  vm_compute. reflexivity.
Defined.

(** ** The CSV parser *)

Module ParserFacts.
Import Csv.

Lemma scan_cons (ch : N) (rest : jsstring) (st : PState) :
  scan (ch :: rest) st =
  let '(st', skip) := step st ch (head rest) in
  if skip then match rest with [] => st' | _ :: rest' => scan rest' st' end
  else scan rest st'.
Proof. reflexivity. Qed.

Lemma step_quote_escape (st : PState) :
  inQuotes st = true -> step st DQUOTE (Some DQUOTE) = (pushUnits st [DQUOTE], true).
Proof. intros H. unfold step, pushUnits, endField. rewrite H. reflexivity. Qed.

Lemma step_quote_toggle (st : PState) (next : option N) :
  inQuotes st = false \/ next <> Some DQUOTE ->
  step st DQUOTE next = (toggled st, false).
Proof.
  intros H. unfold step, toggled. change (DQUOTE =? DQUOTE) with true. cbv iota.
  destruct H as [H|H].
  - rewrite H. reflexivity.
  - rewrite (bool_decide_eq_false_2 _ H), andb_false_r. reflexivity.
Qed.

Lemma step_comma (st : PState) (next : option N) :
  inQuotes st = false -> step st COMMA next = (endField st, false).
Proof. intros H. unfold step, pushUnits, endField. rewrite H. reflexivity. Qed.

Lemma step_terminator (st : PState) (ch : N) (next : option N) :
  inQuotes st = false -> ch = LF \/ ch = CR ->
  step st ch next = (endRow st, (ch =? CR) && bool_decide (next = Some LF)).
Proof. intros H [->| ->]; unfold step, endRow; rewrite H; reflexivity. Qed.

Lemma step_literal (st : PState) (ch : N) (next : option N) :
  ch <> DQUOTE ->
  inQuotes st = true \/ (ch <> COMMA /\ ch <> LF /\ ch <> CR) ->
  step st ch next = (pushUnits st [ch], false).
Proof.
  intros Hq H. unfold step, pushUnits. apply N.eqb_neq in Hq. rewrite Hq.
  destruct H as [H|[H1 [H2 H3]]].
  - rewrite H. reflexivity.
  - apply N.eqb_neq in H1, H2, H3. rewrite H1, H2, H3, !andb_false_r. reflexivity.
Qed.

(** Their effect on the scan. *)
Lemma scan_quote_escape (st : PState) (rest : jsstring) :
  inQuotes st = true ->
  scan (DQUOTE :: DQUOTE :: rest) st = scan rest (pushUnits st [DQUOTE]).
Proof. intros H. rewrite scan_cons. simpl head. now rewrite step_quote_escape. Qed.

Lemma scan_quote_toggle (st : PState) (rest : jsstring) :
  inQuotes st = false \/ head rest <> Some DQUOTE ->
  scan (DQUOTE :: rest) st = scan rest (toggled st).
Proof. intros H. rewrite scan_cons. now rewrite step_quote_toggle. Qed.

Lemma scan_comma (st : PState) (rest : jsstring) :
  inQuotes st = false -> scan (COMMA :: rest) st = scan rest (endField st).
Proof. intros H. rewrite scan_cons. now rewrite step_comma. Qed.

Lemma scan_literal (st : PState) (ch : N) (rest : jsstring) :
  ch <> DQUOTE ->
  inQuotes st = true \/ (ch <> COMMA /\ ch <> LF /\ ch <> CR) ->
  scan (ch :: rest) st = scan rest (pushUnits st [ch]).
Proof. intros Hq H. rewrite scan_cons. now rewrite step_literal. Qed.

Lemma scan_lf (st : PState) (rest : jsstring) :
  inQuotes st = false -> scan (LF :: rest) st = scan rest (endRow st).
Proof.
  intros H. rewrite scan_cons.
  rewrite step_terminator by (trivial; now left). reflexivity.
Qed.

Lemma scan_crlf (st : PState) (rest : jsstring) :
  inQuotes st = false -> scan (CR :: LF :: rest) st = scan rest (endRow st).
Proof.
  intros H. rewrite scan_cons.
  rewrite step_terminator by (trivial; now right). reflexivity.
Qed.

Lemma scan_cr (st : PState) (rest : jsstring) :
  inQuotes st = false -> head rest <> Some LF ->
  scan (CR :: rest) st = scan rest (endRow st).
Proof.
  intros H Hn. rewrite scan_cons.
  rewrite step_terminator by (trivial; now right).
  now rewrite (bool_decide_eq_false_2 _ Hn), andb_false_r.
Qed.

Lemma pushUnits_pushUnits (st : PState) (a b : jsstring) :
  pushUnits (pushUnits st a) b = pushUnits st (a ++ b).
Proof. unfold pushUnits. simpl. now rewrite <- app_assoc. Qed.

Lemma pushUnits_nil (st : PState) : pushUnits st [] = st.
Proof. destruct st. unfold pushUnits. simpl. now rewrite app_nil_r. Qed.

(** Inside quotes, everything but a quote goes to the field. *)
Lemma scan_quoted_run (w rest : jsstring) (st : PState) :
  inQuotes st = true -> ~ In DQUOTE w ->
  scan (w ++ rest) st = scan rest (pushUnits st w).
Proof.
  revert st. induction w as [|c w IH]; intros st Hq Hw.
  - now rewrite pushUnits_nil.
  - simpl app. rewrite scan_literal.
    + rewrite IH; [now rewrite pushUnits_pushUnits | exact Hq |].
      intros Hin. apply Hw. now right.
    + intros ->. apply Hw. now left.
    + now left.
Qed.

(** The scan over the unread suffix is the loop over the index, and
    [text.length] iterations end that loop. *)
Lemma loop_scan (text : jsstring) (fuel i : nat) (st : PState) :
  (length text - i <= fuel)%nat -> loop text fuel i st = scan (drop i text) st.
Proof.
  revert i st. induction fuel as [|fuel IH]; intros i st Hf.
  - simpl. now rewrite drop_ge by lia.
  - simpl loop. destruct (text !! i) as [ch|] eqn:Hi.
    + rewrite (drop_S _ _ _ Hi), scan_cons.
      assert (Hh : head (drop (S i) text) = text !! (i + 1)%nat)
        by (rewrite head_lookup, lookup_drop; f_equal; lia).
      rewrite Hh.
      apply lookup_lt_Some in Hi.
      destruct (step st ch (text !! (i + 1)%nat)) as [st' skip].
      destruct skip; cbv beta iota zeta.
      * rewrite IH by lia. replace (i + 2)%nat with (S (S i)) by lia.
        destruct (text !! S i) as [d|] eqn:Hd.
        -- replace (i + 1)%nat with (S i) by lia. now rewrite (drop_S _ _ _ Hd).
        -- apply lookup_ge_None_1 in Hd.
           replace (i + 1)%nat with (S i) by lia.
           now rewrite !drop_ge by lia.
      * rewrite IH by lia. now replace (i + 1)%nat with (S i) by lia.
    + apply lookup_ge_None_1 in Hi. now rewrite drop_ge by lia.
Qed.

Lemma parseCSV_loop (text : jsstring) :
  parseCSV text =
  let st := loop text (length text) 0 initial in
  flushRow (rows st) (row st) (field st).
Proof. unfold parseCSV. now rewrite loop_scan by lia. Qed.

End ParserFacts.

(** *** Quoted fields *)

Module QuotedFields.
Import Csv ParserFacts.

Ltac side := simpl; first [reflexivity | vm_compute; congruence].

Lemma scan_escaped (w rest : jsstring) (st : PState) :
  inQuotes st = true ->
  scan (escapeQuotes w ++ rest) st = scan rest (pushUnits st w).
Proof.
  revert st. induction w as [|c w IH]; intros st Hq.
  - now rewrite pushUnits_nil.
  - simpl escapeQuotes. destruct (c =? DQUOTE) eqn:Hc.
    + apply N.eqb_eq in Hc. subst c. simpl app.
      rewrite scan_quote_escape by exact Hq.
      rewrite IH by exact Hq. now rewrite pushUnits_pushUnits.
    + apply N.eqb_neq in Hc. simpl app.
      rewrite scan_literal by (trivial; now left).
      rewrite IH by exact Hq. now rewrite pushUnits_pushUnits.
Qed.

Lemma scan_quoted (w rest : jsstring) (st : PState) :
  inQuotes st = false -> head rest <> Some DQUOTE ->
  scan (quoted w ++ rest) st = scan rest (pushUnits st w).
Proof.
  intros Hq Hr. unfold quoted. simpl app.
  rewrite scan_quote_toggle by now left.
  rewrite <- app_assoc. rewrite scan_escaped by (simpl; now rewrite Hq).
  simpl app. rewrite scan_quote_toggle by now right.
  f_equal. destruct st as [rs r f q]. simpl in Hq. subst q. reflexivity.
Qed.

Lemma joinFields_cons (f : jsstring) (fs : list jsstring) :
  fs <> [] -> joinFields (f :: fs) = f ++ COMMA :: joinFields fs.
Proof. destruct fs; [congruence | reflexivity]. Qed.

Lemma scan_quoted_row (fs : list jsstring) (f : jsstring) (rs : list (list jsstring))
    (r : list jsstring) :
  scan (joinFields (List.map quoted (fs ++ [f]))) (mkPState rs r [] false)
  = mkPState rs (r ++ fs) f false.
Proof.
  revert r. induction fs as [|a fs IH]; intros r.
  - cbn [app List.map joinFields]. rewrite <- (app_nil_r (quoted f)).
    rewrite scan_quoted by side. simpl.
    now rewrite app_nil_r.
  - simpl List.map. rewrite joinFields_cons
      by (rewrite List.map_app; simpl; now destruct (List.map quoted fs)).
    rewrite scan_quoted by side.
    rewrite scan_comma by reflexivity.
    unfold endField, pushUnits. simpl. rewrite IH. now rewrite <- app_assoc.
Qed.

Lemma parse_quoted_row (fs : list jsstring) :
  fs <> [] -> hasContent fs = true ->
  parseCSV (joinFields (List.map quoted fs)) = [fs].
Proof.
  intros Hne Hc. destruct (exists_last Hne) as [fs' [f ->]].
  unfold parseCSV, initial. rewrite scan_quoted_row. simpl.
  unfold flushRow. simpl. now rewrite Hc.
Qed.

End QuotedFields.

(** C4. At every position of every text, a quote read inside quotes and
    followed by a quote adds one quote to the field and both are passed;
    any other quote flips [inQuotes] and adds nothing; inside quotes every
    other code unit, commas and line ends included, goes to the field. So a
    row of fields written between quotes, with their quotes doubled, is read
    back as these fields. The line [lineDoe], whose first field [Doe, Jane]
    is between quotes, gives the three fields [Doe, Jane], [Title] and
    [Pub]; the first field of [lineHi], written between quotes with the
    quotes around [hi] doubled, is [He said], a space, and [hi] between
    quotes. *)
Theorem parseCSV_quotes :
  (forall st rest, Csv.inQuotes st = true ->
     Csv.scan (DQUOTE :: DQUOTE :: rest) st
     = Csv.scan rest (pushUnits st [DQUOTE]))
  /\ (forall st rest, Csv.inQuotes st = false \/ head rest <> Some DQUOTE ->
        Csv.scan (DQUOTE :: rest) st = Csv.scan rest (toggled st))
  /\ (forall st w rest, Csv.inQuotes st = true -> ~ In DQUOTE w ->
        Csv.scan (w ++ rest) st = Csv.scan rest (pushUnits st w))
  /\ (forall fs, fs <> [] -> Csv.hasContent fs = true ->
        Csv.parseCSV (joinFields (List.map quoted fs)) = [fs])
  /\ Csv.parseCSV lineDoe = [[u "Doe, Jane"; u "Title"; u "Pub"]]
  /\ Csv.parseCSV lineHi = [[u "He said " ++ [DQUOTE] ++ u "hi" ++ [DQUOTE]; u "A"; u "B"]].
Proof.
  split; [exact ParserFacts.scan_quote_escape|].
  split; [exact ParserFacts.scan_quote_toggle|].
  split; [intros st w rest; apply ParserFacts.scan_quoted_run|].
  split; [exact QuotedFields.parse_quoted_row|].
  split; vm_compute; reflexivity.
Qed.

Lemma parseCSV_quotes_witness :
  (Csv.inQuotes (Csv.mkPState [] [] (u "a") true) = true /\
   Csv.scan (DQUOTE :: DQUOTE :: u "b") (Csv.mkPState [] [] (u "a") true)
   = Csv.scan (u "b") (pushUnits (Csv.mkPState [] [] (u "a") true) [DQUOTE]))
  /\ ((Csv.inQuotes Csv.initial = false \/ head (u "a,b") <> Some DQUOTE) /\
      Csv.scan (DQUOTE :: u "a,b") Csv.initial
      = Csv.scan (u "a,b") (toggled Csv.initial))
  /\ (~ In DQUOTE (u "x,y") /\
      Csv.scan (u "x,y" ++ [DQUOTE]) (Csv.mkPState [] [] [] true)
      = Csv.scan [DQUOTE] (pushUnits (Csv.mkPState [] [] [] true) (u "x,y")))
  /\ ([u "a,b"; [DQUOTE]] <> [] /\ Csv.hasContent [u "a,b"; [DQUOTE]] = true /\
      Csv.parseCSV (joinFields (List.map quoted [u "a,b"; [DQUOTE]])) = [[u "a,b"; [DQUOTE]]]).
Proof.
  pose proof parseCSV_quotes as [T1 [T2 [T3 [T4 _]]]].
  split; [split; [reflexivity | now apply T1]|].
  split; [split; [now left | apply T2; now left]|].
  split.
  - assert (Hn : ~ In DQUOTE (u "x,y")) by (vm_compute; intuition discriminate).
    split; [exact Hn | now apply T3].
  - split; [discriminate|]. split; [reflexivity|]. now apply T4.
Defined.

(** *** Line ends and blank rows *)

Module BlankRows.
Import Csv ParserFacts.

Lemma hasContent_false_iff (r : list jsstring) :
  hasContent r = false <-> Forall (fun v => trim v = []) r.
Proof.
  unfold hasContent. induction r as [|v r IH]; simpl.
  - split; [constructor | reflexivity].
  - rewrite orb_false_iff, IH, negb_false_iff. unfold streq.
    rewrite bool_decide_eq_true. split.
    + intros [Hv Hr]. now constructor.
    + inversion 1. now split.
Qed.

Lemma hasContent_true_iff (r : list jsstring) :
  hasContent r = true <-> ~ Forall (fun v => trim v = []) r.
Proof.
  rewrite <- hasContent_false_iff. destruct (hasContent r); split; congruence.
Qed.

Lemma scan_blank_prefix (line rest : jsstring) (rs : list (list jsstring))
    (r : list jsstring) (f : jsstring) :
  Forall blankUnit line -> Forall (fun v => trim v = []) r -> trim f = [] ->
  exists r' f',
    Forall (fun v => trim v = []) r' /\ trim f' = [] /\
    scan (line ++ rest) (mkPState rs r f false) = scan rest (mkPState rs r' f' false).
Proof.
  intros Hl. revert r f. induction Hl as [|c line Hc _ IH]; intros r f Hr Hf.
  - exists r, f. now repeat split.
  - simpl app. destruct Hc as [->|[Hw [Hlf Hcr]]].
    + rewrite scan_comma by reflexivity. unfold endField. simpl.
      apply IH; [|reflexivity].
      apply List.Forall_app. split; [assumption | now constructor].
    + rewrite scan_literal.
      * unfold pushUnits. simpl. apply IH; [assumption|].
        apply trim_nil_iff. apply allWs_app. split.
        -- now apply trim_nil_iff.
        -- now constructor.
      * intros ->. discriminate Hw.
      * right. repeat split; trivial. intros ->. discriminate Hw.
Qed.

Lemma flushRow_blank (rs : list (list jsstring)) (r : list jsstring) (f : jsstring) :
  Forall (fun v => trim v = []) r -> trim f = [] -> flushRow rs r f = rs.
Proof.
  intros Hr Hf. unfold flushRow.
  assert (H : hasContent (r ++ [f]) = false).
  { apply hasContent_false_iff, List.Forall_app. split; [assumption | now constructor]. }
  now rewrite H.
Qed.

Lemma scan_blank_line (line rest : jsstring) (rs : list (list jsstring)) :
  Forall blankUnit line ->
  scan (line ++ LF :: rest) (mkPState rs [] [] false)
  = scan rest (mkPState rs [] [] false).
Proof.
  intros Hl.
  destruct (scan_blank_prefix line (LF :: rest) rs [] [] Hl) as [r' [f' [Hr [Hf ->]]]];
    [constructor | reflexivity |].
  rewrite scan_lf by reflexivity. unfold endRow. simpl.
  now rewrite flushRow_blank.
Qed.

Lemma scan_blank_line_crlf (line rest : jsstring) (rs : list (list jsstring)) :
  Forall blankUnit line ->
  scan (line ++ CR :: LF :: rest) (mkPState rs [] [] false)
  = scan rest (mkPState rs [] [] false).
Proof.
  intros Hl.
  destruct (scan_blank_prefix line (CR :: LF :: rest) rs [] [] Hl)
    as [r' [f' [Hr [Hf ->]]]]; [constructor | reflexivity |].
  rewrite scan_crlf by reflexivity. unfold endRow. simpl.
  now rewrite flushRow_blank.
Qed.

Lemma parse_blank_last_line (line : jsstring) :
  Forall blankUnit line -> parseCSV line = [].
Proof.
  intros Hl. unfold parseCSV, initial.
  destruct (scan_blank_prefix line [] [] [] [] Hl) as [r' [f' [Hr [Hf H]]]];
    [constructor | reflexivity |].
  rewrite app_nil_r in H. rewrite H. simpl. now apply flushRow_blank.
Qed.

End BlankRows.

(** *** Lines of plain fields *)

Module PlainLines.
Import Csv ParserFacts.

Lemma scan_plain_run (w rest : jsstring) (st : PState) :
  plainField w -> inQuotes st = false ->
  scan (w ++ rest) st = scan rest (pushUnits st w).
Proof.
  intros Hw. revert st. induction Hw as [|c w [Hq Hc] _ IH]; intros st Hst.
  - now rewrite pushUnits_nil.
  - simpl app. rewrite scan_literal by (trivial; now right).
    rewrite IH by exact Hst. now rewrite pushUnits_pushUnits.
Qed.

Lemma scan_plain_row (fs : list jsstring) (f rest : jsstring)
    (rs : list (list jsstring)) (r : list jsstring) :
  Forall plainField (fs ++ [f]) ->
  scan (joinFields (fs ++ [f]) ++ rest) (mkPState rs r [] false)
  = scan rest (mkPState rs (r ++ fs) f false).
Proof.
  revert r. induction fs as [|a fs IH]; intros r Hp.
  - cbn [app joinFields]. apply Forall_inv in Hp.
    rewrite scan_plain_run by (trivial; reflexivity).
    unfold pushUnits. simpl. now rewrite app_nil_r.
  - simpl app in Hp. pose proof (Forall_inv Hp) as Ha.
    apply Forall_inv_tail in Hp.
    cbn [app]. rewrite QuotedFields.joinFields_cons by now destruct fs.
    rewrite <- app_assoc. rewrite scan_plain_run by (trivial; reflexivity).
    simpl app. rewrite scan_comma by reflexivity.
    unfold endField, pushUnits. simpl. rewrite IH by assumption.
    now rewrite <- app_assoc.
Qed.

Lemma scan_line_end (sep rest : jsstring) (st : PState) :
  sep = [LF] \/ sep = [CR; LF] -> inQuotes st = false ->
  scan (sep ++ rest) st = scan rest (endRow st).
Proof. intros [-> | ->] Hst; simpl app; [now apply scan_lf | now apply scan_crlf]. Qed.

Lemma flushRow_cases (rs : list (list jsstring)) (fs : list jsstring) (f : jsstring) :
  flushRow rs fs f = rs ++ List.filter hasContent [fs ++ [f]].
Proof.
  unfold flushRow. simpl. destruct (hasContent (fs ++ [f])); [reflexivity|].
  now rewrite app_nil_r.
Qed.

Lemma joinLines_cons (sep l : jsstring) (ls : list jsstring) :
  ls <> [] -> joinLines sep (l :: ls) = l ++ sep ++ joinLines sep ls.
Proof. destruct ls; [congruence | reflexivity]. Qed.

Lemma scan_plain_lines (sep : jsstring) (lines : list (list jsstring))
    (rs : list (list jsstring)) :
  sep = [LF] \/ sep = [CR; LF] ->
  Forall (fun l => l <> [] /\ Forall plainField l) lines -> lines <> [] ->
  let st := scan (joinLines sep (List.map joinFields lines)) (mkPState rs [] [] false) in
  flushRow (rows st) (row st) (field st) = rs ++ List.filter hasContent lines.
Proof.
  intros Hsep Hl. revert rs. induction Hl as [|l lines [Hne Hp] Hl IH]; intros rs Hn;
    [congruence|].
  destruct (exists_last Hne) as [fs [f ->]].
  destruct lines as [|l2 lines].
  - cbn [List.map joinLines]. cbv zeta.
    rewrite <- (app_nil_r (joinFields (fs ++ [f]))).
    rewrite scan_plain_row by assumption. simpl. apply flushRow_cases.
  - cbn [List.map]. rewrite joinLines_cons by discriminate. cbv zeta.
    rewrite scan_plain_row by assumption.
    rewrite scan_line_end by (trivial; reflexivity).
    unfold endRow. cbn [rows row field inQuotes app].
    specialize (IH (flushRow rs fs f) ltac:(discriminate)).
    cbv zeta in IH. cbn [List.map] in IH. rewrite IH.
    rewrite flushRow_cases, <- app_assoc. f_equal.
    change ((fs ++ [f]) :: l2 :: lines) with ([fs ++ [f]] ++ l2 :: lines).
    now rewrite List.filter_app.
Qed.

Lemma parse_plain_lines (sep : jsstring) (lines : list (list jsstring)) :
  sep = [LF] \/ sep = [CR; LF] ->
  Forall (fun l => l <> [] /\ Forall plainField l) lines ->
  parseCSV (joinLines sep (List.map joinFields lines)) = List.filter hasContent lines.
Proof.
  intros Hsep Hl. destruct lines as [|l lines]; [reflexivity|].
  unfold parseCSV, initial.
  now rewrite (scan_plain_lines sep (l :: lines) []) by (trivial; discriminate).
Qed.

End PlainLines.

(** C5. At every position of every text, outside quotes, a line feed, a
    carriage return followed by a line feed (both passed at once), and a
    carriage return alone each end the row: the field is added to the row
    and the row is added to the rows read so far unless each of its fields
    is empty after trimming, that is, made of white space only. A line of
    commas and white space only adds no row, and lines of fields without
    quotes, commas and line ends, joined by either line end, are read back
    as the rows that are not blank. Both [a,b\r\nc,d] and [a,b\nc,d] give
    two rows of two fields, and a line [, ,] gives none. *)
Theorem parseCSV_line_ends :
  (forall st rest, Csv.inQuotes st = false ->
     Csv.scan (LF :: rest) st = Csv.scan rest (endRow st))
  /\ (forall st rest, Csv.inQuotes st = false ->
        Csv.scan (CR :: LF :: rest) st = Csv.scan rest (endRow st))
  /\ (forall st rest, Csv.inQuotes st = false -> head rest <> Some LF ->
        Csv.scan (CR :: rest) st = Csv.scan rest (endRow st))
  /\ (forall st,
        let r := Csv.row st ++ [Csv.field st] in
        (Forall allWs r -> Csv.rows (endRow st) = Csv.rows st)
        /\ (~ Forall allWs r -> Csv.rows (endRow st) = Csv.rows st ++ [r])
        /\ Csv.row (endRow st) = [] /\ Csv.field (endRow st) = [])
  /\ (forall v, trim v = [] <-> allWs v)
  /\ (forall rs line rest, Forall blankUnit line ->
        Csv.scan (line ++ LF :: rest) (Csv.mkPState rs [] [] false)
        = Csv.scan rest (Csv.mkPState rs [] [] false))
  /\ (forall rs line rest, Forall blankUnit line ->
        Csv.scan (line ++ CR :: LF :: rest) (Csv.mkPState rs [] [] false)
        = Csv.scan rest (Csv.mkPState rs [] [] false))
  /\ (forall line, Forall blankUnit line -> Csv.parseCSV line = [])
  /\ (forall sep lines, sep = [LF] \/ sep = [CR; LF] ->
        Forall (fun l => l <> [] /\ Forall plainField l) lines ->
        Csv.parseCSV (joinLines sep (List.map joinFields lines))
        = List.filter Csv.hasContent lines)
  /\ Csv.parseCSV textCrlf = [[u "a"; u "b"]; [u "c"; u "d"]]
  /\ Csv.parseCSV textLf = [[u "a"; u "b"]; [u "c"; u "d"]]
  /\ Csv.parseCSV textBlank = [[u "a"; u "b"]; [u "c"; u "d"]]
  /\ Csv.parseCSV (u ", ,") = [].
Proof.
  split; [exact ParserFacts.scan_lf|].
  split; [exact ParserFacts.scan_crlf|].
  split; [exact ParserFacts.scan_cr|].
  split.
  { intros st r.
    assert (Hiff : Forall allWs r <-> Forall (fun v => trim v = []) r).
    { rewrite !List.Forall_forall. split; intros H v Hv; apply trim_nil_iff; auto. }
    unfold endRow, Csv.flushRow. simpl. fold r.
    repeat split.
    - intros H. apply Hiff, BlankRows.hasContent_false_iff in H. now rewrite H.
    - intros H. rewrite Hiff in H. apply BlankRows.hasContent_true_iff in H.
      now rewrite H. }
  split; [exact trim_nil_iff|].
  split; [intros rs line rest; apply BlankRows.scan_blank_line|].
  split; [intros rs line rest; apply BlankRows.scan_blank_line_crlf|].
  split; [exact BlankRows.parse_blank_last_line|].
  split; [exact PlainLines.parse_plain_lines|].
  repeat split; vm_compute; reflexivity.
Qed.

Lemma parseCSV_line_ends_witness :
  (Csv.inQuotes (Csv.mkPState [] [u "a"] (u "b") false) = false /\
   head (u "c") <> Some LF /\
   Csv.scan (LF :: u "c") (Csv.mkPState [] [u "a"] (u "b") false)
   = Csv.scan (u "c") (endRow (Csv.mkPState [] [u "a"] (u "b") false)) /\
   Csv.scan (CR :: LF :: u "c") (Csv.mkPState [] [u "a"] (u "b") false)
   = Csv.scan (u "c") (endRow (Csv.mkPState [] [u "a"] (u "b") false)) /\
   Csv.scan (CR :: u "c") (Csv.mkPState [] [u "a"] (u "b") false)
   = Csv.scan (u "c") (endRow (Csv.mkPState [] [u "a"] (u "b") false)))
  /\ (Forall blankUnit (u ", ,") /\
      Csv.scan (u ", ," ++ LF :: u "x") (Csv.mkPState [[u "a"]] [] [] false)
      = Csv.scan (u "x") (Csv.mkPState [[u "a"]] [] [] false) /\
      Csv.scan (u ", ," ++ CR :: LF :: u "x") (Csv.mkPState [[u "a"]] [] [] false)
      = Csv.scan (u "x") (Csv.mkPState [[u "a"]] [] [] false) /\
      Csv.parseCSV (u ", ,") = [])
  /\ (Forall allWs ([u " "] ++ [[]]) /\
      Csv.rows (endRow (Csv.mkPState [[u "a"]] [u " "] [] false)) = [[u "a"]])
  /\ (~ Forall allWs ([u " "] ++ [u "b"]) /\
      Csv.rows (endRow (Csv.mkPState [[u "a"]] [u " "] (u "b") false))
      = [[u "a"]] ++ [[u " "] ++ [u "b"]])
  /\ (([CR; LF] = [LF] \/ [CR; LF] = [CR; LF]) /\
      Forall (fun l => l <> [] /\ Forall plainField l) linesPlain /\
      Csv.parseCSV (joinLines [CR; LF] (List.map joinFields linesPlain))
      = [[u "a"; u "b"]; [u "c"; u "d"]]).
Proof.
  pose proof parseCSV_line_ends as [T1 [T2 [T3 [T4 [_ [T6 [T7 [T8 [T9 _]]]]]]]]].
  assert (Hp : Forall (fun l => l <> [] /\ Forall plainField l) linesPlain).
  { unfold linesPlain, plainField.
    repeat (first [constructor | discriminate]). }
  assert (Hb : Forall blankUnit (u ", ,")).
  { change (u ", ,") with [COMMA; SPACE; COMMA].
    constructor; [now left|].
    constructor; [right; split; [reflexivity | split; discriminate]|].
    constructor; [now left | constructor]. }
  assert (Hw : Forall allWs ([u " "] ++ [[]])) by (repeat constructor).
  assert (Hn : ~ Forall allWs ([u " "] ++ [u "b"])).
  { intros H. apply List.Forall_app in H. destruct H as [_ H].
    inversion H as [|? ? Hbw _]. inversion Hbw as [|? ? Hc _]. discriminate Hc. }
  split.
  { split; [reflexivity|]. split; [discriminate|].
    split; [now apply T1|]. split; [now apply T2|].
    apply T3; [reflexivity | discriminate]. }
  split.
  { split; [exact Hb|]. split; [now apply T6|]. split; [now apply T7 | now apply T8]. }
  split.
  { split; [exact Hw|].
    exact (proj1 (T4 (Csv.mkPState [[u "a"]] [u " "] [] false)) Hw). }
  split.
  { split; [exact Hn|].
    exact (proj1 (proj2 (T4 (Csv.mkPState [[u "a"]] [u " "] (u "b") false))) Hn). }
  split; [now right|]. split; [exact Hp|].
  exact (T9 [CR; LF] linesPlain (or_intror eq_refl) Hp).
Defined.

(** ** Paging *)

Module PagingFacts.
Import Paging.
Local Open Scope Z_scope.

Lemma totalPages_ceil (n : nat) : totalPages n = Z.max 1 (ceilTenth (Z.of_nat n)).
Proof.
  unfold totalPages, ceilTenth, Qceiling, Qfloor, PAGE_SIZE. simpl.
  now rewrite Z.mul_1_r.
Qed.

Lemma ceilTenth_bounds (n : Z) : 10 * (ceilTenth n - 1) < n <= 10 * ceilTenth n.
Proof.
  unfold ceilTenth.
  pose proof (Z.div_mod (- n) 10 ltac:(lia)) as Hd.
  pose proof (Z.mod_pos_bound (- n) 10 ltac:(lia)) as Hm.
  lia.
Qed.

Lemma totalPages_pos (n : nat) : 1 <= totalPages n.
Proof. rewrite totalPages_ceil. lia. Qed.

Lemma safePage_range (n : nat) (p : Z) : 1 <= safePage n p <= totalPages n.
Proof. unfold safePage. pose proof (totalPages_pos n). lia. Qed.

(** The first index of the page is inside the list, or is its length. *)
Lemma page_start_le (n : nat) (p : Z) :
  0 <= (safePage n p - 1) * PAGE_SIZE <= Z.of_nat n.
Proof.
  pose proof (safePage_range n p) as Hr.
  rewrite totalPages_ceil in Hr.
  pose proof (ceilTenth_bounds (Z.of_nat n)) as Hc.
  unfold PAGE_SIZE. lia.
Qed.

Lemma slice_from_inside {A} (l : list A) (s e : Z) :
  0 <= s <= Z.of_nat (length l) -> s <= e ->
  slice l s e = take (Z.to_nat (e - s)) (drop (Z.to_nat s) l).
Proof.
  intros Hs He. unfold slice, sliceIndex.
  destruct (Z.ltb_spec s 0); [lia|]. destruct (Z.ltb_spec e 0); [lia|].
  rewrite (Z.min_l s) by lia.
  destruct (Z.le_ge_cases e (Z.of_nat (length l))) as [Hle|Hge].
  - now rewrite Z.min_l by lia.
  - rewrite Z.min_r by lia.
    rewrite !take_ge; trivial; rewrite length_drop; lia.
Qed.

Lemma pageItems_take_drop {A} (l : list A) (p : Z) :
  pageItems l p
  = take 10 (drop (Z.to_nat ((safePage (length l) p - 1) * PAGE_SIZE)) l).
Proof.
  unfold pageItems. cbv zeta.
  pose proof (page_start_le (length l) p) as Hs.
  rewrite slice_from_inside by (unfold PAGE_SIZE in *; lia).
  f_equal. unfold PAGE_SIZE. lia.
Qed.

End PagingFacts.

(** C10. For every list of results and every requested page number, with
    pages of 10: the number of pages is the larger of 1 and the ceiling of
    a tenth of the number of results; the page shown is the requested one
    when that is between 1 and the number of pages, the first page for a
    smaller request and the last for a larger one; and the items shown are
    the results at the positions from [(page - 1) * 10] up to, not
    including, [page * 10]. With 23 results there are 3 pages, a request
    for page 0 shows page 1 and a request for page 99 shows page 3. *)
Theorem pagination_clamps_and_slices {A} (results : list A) (pageNumber : Z) :
  let n := length results in
  let total := Paging.totalPages n in
  let page := Paging.safePage n pageNumber in
  let start := Z.to_nat ((page - 1) * 10) in
  (exists c, total = Z.max 1 c /\ (10 * (c - 1) < Z.of_nat n <= 10 * c)%Z)
  /\ (1 <= page <= total)%Z
  /\ ((1 <= pageNumber <= total)%Z -> page = pageNumber)
  /\ ((pageNumber < 1)%Z -> page = 1%Z)
  /\ ((total < pageNumber)%Z -> page = total)
  /\ Paging.pageItems results pageNumber = take 10 (drop start results)
  /\ (forall i : nat,
        Paging.pageItems results pageNumber !! i
        = if (i <? 10)%nat then results !! (start + i)%nat else None)
  /\ Paging.totalPages 23 = 3%Z
  /\ Paging.safePage 23 0 = 1%Z
  /\ Paging.safePage 23 99 = 3%Z.
Proof.
  intros n total page start.
  pose proof (PagingFacts.totalPages_pos n) as Hpos. fold total in Hpos.
  assert (Hitems : Paging.pageItems results pageNumber = take 10 (drop start results))
    by apply PagingFacts.pageItems_take_drop.
  split.
  { exists (ceilTenth (Z.of_nat n)). split.
    - apply PagingFacts.totalPages_ceil.
    - apply PagingFacts.ceilTenth_bounds. }
  split; [apply PagingFacts.safePage_range|].
  split; [unfold page, Paging.safePage; fold total; lia|].
  split; [unfold page, Paging.safePage; fold total; lia|].
  split; [unfold page, Paging.safePage; fold total; lia|].
  split; [exact Hitems|].
  split.
  { intros i. rewrite Hitems. destruct (Nat.ltb_spec i 10).
    - rewrite lookup_take_lt by assumption. apply lookup_drop.
    - now apply lookup_take_ge. }
  repeat split; vm_compute; reflexivity.
Qed.

Lemma pagination_clamps_and_slices_witness :
  ((Paging.totalPages (length (seq 0 23)) < 99)%Z
   /\ Paging.safePage (length (seq 0 23)) 99 = Paging.totalPages (length (seq 0 23))
   /\ Paging.pageItems (seq 0 23) 99 = [20; 21; 22]%nat)
  /\ ((0 < 1)%Z /\ Paging.safePage (length (seq 0 23)) 0 = 1%Z)
  /\ ((1 <= 2 <= Paging.totalPages (length (seq 0 23)))%Z
      /\ Paging.safePage (length (seq 0 23)) 2 = 2%Z).
Proof.
  split; [|split].
  - pose proof (pagination_clamps_and_slices (seq 0 23) 99) as [_ [_ [_ [_ [T [I _]]]]]].
    split; [reflexivity|]. split; [apply T; reflexivity|].
    rewrite I. reflexivity.
  - pose proof (pagination_clamps_and_slices (seq 0 23) 0) as [_ [_ [_ [T _]]]].
    split; [reflexivity|]. apply T. reflexivity.
  - pose proof (pagination_clamps_and_slices (seq 0 23) 2) as [_ [_ [T _]]].
    assert (H : (1 <= 2 <= Paging.totalPages (length (seq 0 23)))%Z)
      by (split; vm_compute; discriminate).
    split; [exact H|]. apply T. exact H.
Defined.

(** ** Rows to records *)

Module RecordFacts.
Import Csv.

Lemma objSet_lookup_ne (k v k' : jsstring) (obj : gmap jsstring jsstring) :
  k <> k' -> objSet k v obj !! k' = obj !! k'.
Proof.
  intros Hne. unfold objSet. destruct (streq k PROTO_KEY); [reflexivity|].
  now apply lookup_insert_ne.
Qed.

Lemma objSet_lookup_eq (k v : jsstring) (obj : gmap jsstring jsstring) :
  k <> PROTO_KEY -> objSet k v obj !! k = Some v.
Proof.
  intros Hne. unfold objSet, streq. rewrite (bool_decide_eq_false_2 _ Hne).
  apply lookup_insert_eq.
Qed.

Lemma elem_of_map {A B} (f : A -> B) (l : list A) (x : A) :
  x ∈ l -> f x ∈ List.map f l.
Proof. rewrite !list_elem_of_In. apply in_map. Qed.

Section Columns.
Variables (headers : list jsstring) (r : list jsstring).

Lemma columns_lookup_other (cols : list nat) (obj : gmap jsstring jsstring)
    (k : jsstring) :
  k ∉ List.map (columnKey headers) cols ->
  foldl (setColumn headers r) obj cols !! k = obj !! k.
Proof.
  revert obj. induction cols as [|a cols IH]; intros obj Hk; simpl; [reflexivity|].
  simpl in Hk. apply not_elem_of_cons in Hk. destruct Hk as [Hka Hk].
  rewrite IH by assumption. unfold setColumn. apply objSet_lookup_ne. congruence.
Qed.

Lemma columns_lookup (cols : list nat) (obj : gmap jsstring jsstring) (i : nat) :
  NoDup (List.map (columnKey headers) cols) -> i ∈ cols ->
  columnKey headers i <> PROTO_KEY ->
  foldl (setColumn headers r) obj cols !! columnKey headers i = Some (cell r i).
Proof.
  revert obj. induction cols as [|a cols IH]; intros obj Hnd Hi Hp; simpl.
  - now apply elem_of_nil in Hi.
  - simpl in Hnd. apply NoDup_cons in Hnd. destruct Hnd as [Ha Hnd].
    apply elem_of_cons in Hi. destruct Hi as [->|Hi].
    + rewrite columns_lookup_other by assumption.
      unfold setColumn. now apply objSet_lookup_eq.
    + now apply IH.
Qed.

End Columns.

Lemma toObject_id (headers : list jsstring) (idx : nat) (r : list jsstring) :
  ID_KEY ∉ List.map (columnKey headers) (seq 0 (length headers)) ->
  toObject headers idx r !! ID_KEY = Some (toStringNat idx).
Proof.
  intros H. unfold toObject. rewrite columns_lookup_other by assumption.
  apply lookup_singleton_eq.
Qed.

Lemma toObject_column (headers : list jsstring) (idx : nat) (r : list jsstring)
    (i : nat) :
  NoDup (List.map (columnKey headers) (seq 0 (length headers))) ->
  PROTO_KEY ∉ List.map (columnKey headers) (seq 0 (length headers)) ->
  (i < length headers)%nat ->
  toObject headers idx r !! columnKey headers i = Some (cell r i).
Proof.
  intros Hnd Hp Hi. unfold toObject.
  assert (Hin : i ∈ seq 0 (length headers)) by (apply elem_of_seq; lia).
  apply columns_lookup; trivial.
  intros Heq. apply Hp. rewrite <- Heq. now apply elem_of_map.
Qed.

End RecordFacts.

(** C3 does not hold as it is told. With the header
    [__id,a,a, ,__proto__] and the data row [x,1,2,v,p], the record of the
    row has the identifier [x], not [0]; the key [a] holds [2], not the
    cell [1] of the first column of that name; nothing is stored under the
    empty key of the fourth column (its cell is under [__col_3]); and
    nothing is stored under [__proto__]. *)
Lemma rowsToObjects_clash_counterexample :
  exists obj,
    Csv.rowsToObjects rowsClash !! 0%nat = Some obj
    /\ obj !! u "__id" = Some (u "x")
    /\ obj !! u "__id" <> Some (toStringNat 0)
    /\ Csv.normalizeHeader (Some (u "a")) = u "a"
    /\ obj !! u "a" = Some (u "2")
    /\ obj !! u "a" <> Some (trim (u "1"))
    /\ Csv.normalizeHeader (Some (u " ")) = []
    /\ obj !! [] = None
    /\ obj !! u "__col_3" = Some (u "v")
    /\ Csv.normalizeHeader (Some (u "__proto__")) = u "__proto__"
    /\ obj !! u "__proto__" = None.
Proof.
  eexists. split; [reflexivity|].
  repeat split; try (vm_compute; reflexivity); vm_compute; discriminate.
Qed.

(** C3, amended. For a table whose column keys are pairwise distinct and
    are neither [__id] nor [__proto__], every data row gets a record: its
    identifier is the position of the row among the data rows, in decimal;
    under the key of each column (the normalised header cell, or [__col_]
    and the position of the column when that is empty) it holds the cell
    of the row at that column, trimmed, and the empty string when the row
    has no cell there. There are as many records as data rows. *)
Theorem rowsToObjects_records (headersRaw : list jsstring)
    (dataRows : list (list jsstring)) (idx : nat) (r : list jsstring) :
  NoDup (columnKeys headersRaw) ->
  Csv.ID_KEY ∉ columnKeys headersRaw ->
  Csv.PROTO_KEY ∉ columnKeys headersRaw ->
  dataRows !! idx = Some r ->
  let headers := List.map (fun h => Csv.normalizeHeader (Some h)) headersRaw in
  exists obj,
    Csv.rowsToObjects (headersRaw :: dataRows) !! idx = Some obj
    /\ obj !! Csv.ID_KEY = Some (toStringNat idx)
    /\ (forall (i : nat) raw, headersRaw !! i = Some raw ->
          let h := Csv.normalizeHeader (Some raw) in
          let key := if streq h [] then u "__col_" ++ toStringNat i else h in
          obj !! key = Some (trim (default [] (r !! i)))
          /\ ((length r <= i)%nat -> obj !! key = Some []))
    /\ length (Csv.rowsToObjects (headersRaw :: dataRows)) = length dataRows.
Proof.
  intros Hnd Hid Hproto Hr headers.
  exists (Csv.toObject headers idx r).
  split; [|split; [|split]].
  - simpl. fold headers. rewrite list_lookup_imap, Hr. reflexivity.
  - now apply RecordFacts.toObject_id.
  - intros i raw Hraw h key.
    assert (Hi : (i < length headers)%nat).
    { unfold headers. rewrite length_map. now apply lookup_lt_Some in Hraw. }
    assert (Hh : headers !! i = Some h).
    { unfold headers, h. clear -Hraw. revert i Hraw.
      induction headersRaw as [|a l IH]; intros [|i] Hraw; simpl in *;
        try discriminate; [congruence | now apply IH]. }
    assert (Hkey : key = Csv.columnKey headers i).
    { unfold key, Csv.columnKey. now rewrite Hh. }
    rewrite Hkey, RecordFacts.toObject_column by assumption.
    split; [reflexivity|].
    intros Hlen. unfold Csv.cell. now rewrite (lookup_ge_None_2 r i).
  - simpl. apply length_imap.
Qed.

Lemma rowsToObjects_records_witness :
  NoDup (columnKeys [BOM :: u "Title "; []; u "Author"])
  /\ (Csv.ID_KEY ∉ columnKeys [BOM :: u "Title "; []; u "Author"])
  /\ (Csv.PROTO_KEY ∉ columnKeys [BOM :: u "Title "; []; u "Author"])
  /\ [[u " Dune "; u "x"; u "Herbert"]; [u "Emma"]] !! 1%nat = Some [u "Emma"]
  /\ exists obj,
       Csv.rowsToObjects rowsBooks !! 1%nat = Some obj
       /\ obj !! Csv.ID_KEY = Some (u "1")
       /\ obj !! u "Title" = Some (u "Emma")
       /\ obj !! u "__col_1" = Some []
       /\ obj !! u "Author" = Some [].
Proof.
  assert (H1 : NoDup (columnKeys [BOM :: u "Title "; []; u "Author"]))
    by (apply (bool_decide_unpack _); vm_compute; exact I).
  assert (H2 : Csv.ID_KEY ∉ columnKeys [BOM :: u "Title "; []; u "Author"])
    by (apply (bool_decide_unpack _); vm_compute; exact I).
  assert (H3 : Csv.PROTO_KEY ∉ columnKeys [BOM :: u "Title "; []; u "Author"])
    by (apply (bool_decide_unpack _); vm_compute; exact I).
  split; [exact H1|]. split; [exact H2|]. split; [exact H3|]. split; [reflexivity|].
  destruct (rowsToObjects_records [BOM :: u "Title "; []; u "Author"]
              [[u " Dune "; u "x"; u "Herbert"]; [u "Emma"]] 1 [u "Emma"]
              H1 H2 H3 eq_refl) as [obj [Hobj [Hidk [Hcols _]]]].
  exists obj. split; [exact Hobj|]. split; [exact Hidk|].
  split; [exact (proj1 (Hcols 0%nat (BOM :: u "Title ") eq_refl))|].
  split; [exact (proj1 (Hcols 1%nat [] eq_refl))|].
  exact (proj1 (Hcols 2%nat (u "Author") eq_refl)).
Defined.

(** ** Submitting a query *)

(** C2 does not hold as it is told. A search for [ab] shows one book; the
    empty query submitted next is refused with the message for an empty
    query, and the result shown becomes empty. The casing used is the one
    for ASCII, which is what [toLowerCase] does on these strings. *)
Lemma runSearch_invalid_counterexample :
  @Strict.filtered asciiCasing stateShown = [bookAbc]
  /\ trim (Strict.query stateShown) = []
  /\ Strict.error (Strict.runSearch stateShown) = Strict.MSG_EMPTY
  /\ @Strict.filtered asciiCasing (Strict.runSearch stateShown) = []
  /\ @Strict.filtered asciiCasing (Strict.runSearch stateShown)
     <> @Strict.filtered asciiCasing stateShown.
Proof. repeat split; try (vm_compute; reflexivity). vm_compute. discriminate. Qed.

Lemma pageItems_nil (p : Z) : Paging.pageItems (@nil Strict.Book) p = [].
Proof. rewrite PagingFacts.pageItems_take_drop. now rewrite drop_nil. Qed.

(** C2, amended. In both variants a submitted query that fails validation
    (empty after trimming; in the first variant fewer than two code points;
    in the second no site selected) sets the error message of the field,
    sets the submitted query to the empty string and the page to 1, and
    keeps the loaded books; the result shown after it is empty. *)
Theorem runSearch_invalid_resets {C : Casing} {HC : CasingLaws C} :
  (forall st,
     trim (Strict.query st) = []
     \/ (length (arrayFrom (trim (Strict.query st))) < 2)%nat ->
     let st' := Strict.runSearch st in
     Strict.error st' <> []
     /\ Strict.submittedQuery st' = []
     /\ Strict.currentPage st' = 1%Z
     /\ Strict.books st' = Strict.books st
     /\ Strict.filtered st' = []
     /\ Strict.pageItems st' = [])
  /\ (forall BASE_URL fetch st,
        Lenient.site st = [] \/ trim (Lenient.query st) = [] ->
        let st' := Lenient.runSearch BASE_URL fetch st in
        Lenient.error st' <> []
        /\ Lenient.submittedQuery st' = []
        /\ Lenient.currentPage st' = 1%Z
        /\ Lenient.site st' = Lenient.site st
        /\ Lenient.cache st' = Lenient.cache st
        /\ Lenient.filtered st' = []
        /\ Lenient.pageItems st' = []).
Proof.
  assert (Hn : Csv.normalizeText (Some []) = [])
    by now apply normalizeText_nil_iff.
  assert (HS : forall st, Strict.submittedQuery st = [] -> Strict.filtered st = []).
  { intros st Hs. unfold Strict.filtered. now rewrite Hs, Hn. }
  assert (HL : forall st, Lenient.submittedQuery st = [] -> Lenient.filtered st = []).
  { intros st Hs. unfold Lenient.filtered. rewrite Hs.
    change (Lenient.normalizeBase (Some [])) with (Csv.normalizeText (Some [])).
    now rewrite Hn. }
  split.
  - intros st Hbad st'.
    assert (Hst : st' = Strict.withSearch st Strict.MSG_EMPTY []
                  \/ st' = Strict.withSearch st Strict.MSG_TOO_SHORT []).
    { unfold st', Strict.runSearch. cbv zeta. unfold streq.
      destruct (bool_decide (trim (Strict.query st) = [])) eqn:He; [now left|].
      apply bool_decide_eq_false in He.
      destruct Hbad as [Hbad|Hbad]; [contradiction|].
      apply Nat.ltb_lt in Hbad. rewrite Hbad. now right. }
    assert (Hsub : Strict.submittedQuery st' = []) by (destruct Hst as [-> | ->]; reflexivity).
    repeat split; trivial.
    + destruct Hst as [-> | ->]; discriminate.
    + destruct Hst as [-> | ->]; reflexivity.
    + destruct Hst as [-> | ->]; reflexivity.
    + now apply HS.
    + unfold Strict.pageItems. rewrite (HS st' Hsub). apply pageItems_nil.
  - intros BASE_URL fetch st Hbad st'.
    assert (Hst : st' = Lenient.mkState (Lenient.loading st) (Lenient.loadError st)
                          (Lenient.site st) (Lenient.selectedField st) (Lenient.query st)
                          [] Lenient.MSG_NO_SITE 1 (Lenient.cache st)
                  \/ st' = Lenient.mkState (Lenient.loading st) (Lenient.loadError st)
                          (Lenient.site st) (Lenient.selectedField st) (Lenient.query st)
                          [] Lenient.MSG_EMPTY 1 (Lenient.cache st)).
    { unfold st', Lenient.runSearch. cbv zeta. unfold streq.
      destruct (bool_decide (Lenient.site st = [])) eqn:Hs; [now left|].
      apply bool_decide_eq_false in Hs.
      destruct Hbad as [Hbad|Hbad]; [contradiction|].
      rewrite (bool_decide_eq_true_2 _ Hbad). now right. }
    assert (Hsub : Lenient.submittedQuery st' = []) by (destruct Hst as [-> | ->]; reflexivity).
    repeat split; trivial.
    + destruct Hst as [-> | ->]; discriminate.
    + destruct Hst as [-> | ->]; reflexivity.
    + destruct Hst as [-> | ->]; reflexivity.
    + destruct Hst as [-> | ->]; reflexivity.
    + now apply HL.
    + unfold Lenient.pageItems. rewrite (HL st' Hsub). apply pageItems_nil.
Qed.

Lemma runSearch_invalid_resets_witness :
  ((trim (Strict.query stateOneLetter) = []
    \/ (length (arrayFrom (trim (Strict.query stateOneLetter))) < 2)%nat)
   /\ Strict.error (Strict.runSearch stateOneLetter) <> []
   /\ @Strict.filtered asciiCasing (Strict.runSearch stateOneLetter) = [])
  /\ ((Lenient.site stateNoSite = [] \/ trim (Lenient.query stateNoSite) = [])
      /\ Lenient.error (Lenient.runSearch [] noFetch stateNoSite) <> []
      /\ @Lenient.filtered asciiCasing (Lenient.runSearch [] noFetch stateNoSite) = []).
Proof.
  pose proof (@runSearch_invalid_resets asciiCasing asciiCasing_laws) as [TS TL].
  assert (H1 : trim (Strict.query stateOneLetter) = []
    \/ (length (arrayFrom (trim (Strict.query stateOneLetter))) < 2)%nat)
    by (right; vm_compute; lia).
  assert (H2 : Lenient.site stateNoSite = [] \/ trim (Lenient.query stateNoSite) = [])
    by (left; reflexivity).
  split.
  - split; [exact H1|].
    destruct (TS stateOneLetter H1) as [He [_ [_ [_ [Hf _]]]]]. now split.
  - split; [exact H2|].
    destruct (TL [] noFetch stateNoSite H2)
      as [He [_ [_ [_ [_ [Hf _]]]]]]. now split.
Defined.

(** ** Counting the characters of a query *)

(** C1, at the query made of the letter [e] followed by the combining acute
    accent U+0301, which is read as the one character e-acute: the count is
    2, the mark being counted on its own, and the query passes the check of
    two characters. *)
Theorem runSearch_counts_combining_mark :
  trim queryAccent = queryAccent
  /\ Csv.countGraphemes (Some queryAccent) = 2%nat
  /\ length (arrayFrom (trim (Strict.query stateAccent))) = 2%nat
  /\ userPerceivedLength queryAccent = 1%nat
  /\ Strict.error (Strict.runSearch stateAccent) = []
  /\ Strict.submittedQuery (Strict.runSearch stateAccent) = queryAccent.
Proof. repeat split; vm_compute; reflexivity. Qed.

(** What does hold of the count: a pair of surrogates counts once, the
    count is never below the number of user-perceived characters, and so a
    query of two such characters or more always passes. *)
Lemma userPerceivedLength_le (s : jsstring) :
  (userPerceivedLength s <= Csv.countGraphemes (Some s))%nat.
Proof.
  unfold userPerceivedLength, Csv.countGraphemes. simpl default.
  destruct (arrayFrom s) as [|cp r]; simpl; [lia|].
  pose proof (List.filter_length_le (fun cp => negb (isCombiningMark cp)) r). lia.
Qed.

Lemma countGraphemes_surrogate_pairs :
  Csv.countGraphemes (Some [0xD83D; 0xDE00; 0xD83D; 0xDE01]) = 2%nat.
Proof. reflexivity. Qed.

Lemma runSearch_accepts_two_characters (st : Strict.State) :
  (2 <= userPerceivedLength (trim (Strict.query st)))%nat ->
  Strict.error (Strict.runSearch st) = []
  /\ Strict.submittedQuery (Strict.runSearch st) = trim (Strict.query st).
Proof.
  intros H. pose proof (userPerceivedLength_le (trim (Strict.query st))) as Hle.
  unfold Csv.countGraphemes in Hle. simpl default in Hle.
  unfold Strict.runSearch. cbv zeta. unfold streq.
  destruct (bool_decide (trim (Strict.query st) = [])) eqn:He.
  - apply bool_decide_eq_true in He. rewrite He in H.
    unfold userPerceivedLength in H. simpl in H. lia.
  - destruct (Nat.ltb_spec (length (arrayFrom (trim (Strict.query st)))) 2); [lia|].
    now split.
Qed.

(** * Further properties *)

(** ** The parser as a whole *)

Module ScanFacts.
Import Csv ParserFacts.

(** Induction for functions that read one or two code units at a time. *)
Lemma two_step_ind (P : jsstring -> Prop) :
  P [] ->
  (forall c rest, P rest -> (forall d rest', rest = d :: rest' -> P rest') ->
     P (c :: rest)) ->
  forall l, P l.
Proof.
  intros Hnil Hcons l.
  assert (H : P l /\ (forall d l', l = d :: l' -> P l')).
  { induction l as [|c l [IH1 IH2]].
    - split; [exact Hnil | discriminate].
    - split; [now apply Hcons | now intros d l' [= _ <-]]. }
  apply H.
Qed.

(** A property of the loop variables kept by every iteration on the code
    units of the text holds at the end of the scan. *)
Lemma scan_invariant (P : PState -> Prop) (Q : N -> Prop) :
  (forall st ch next, Q ch -> P st -> P (fst (step st ch next))) ->
  forall text st, Forall Q text -> P st -> P (scan text st).
Proof.
  intros Hstep text. induction text as [|c rest IH1 IH2] using two_step_ind;
    intros st Hq Hst; [exact Hst|].
  rewrite scan_cons. pose proof (Hstep st c (head rest) (Forall_inv Hq) Hst) as H.
  apply Forall_inv_tail in Hq.
  destruct (step st c (head rest)) as [st' skip]. simpl in H.
  destruct skip; [|now apply IH1].
  destruct rest as [|d rest']; [exact H|].
  apply (IH2 d rest' eq_refl); [now apply Forall_inv_tail in Hq | exact H].
Qed.

Lemma flushRow_content (rs : list (list jsstring)) (r : list jsstring) (f : jsstring) :
  Forall (fun x => hasContent x = true) rs ->
  Forall (fun x => hasContent x = true) (flushRow rs r f).
Proof.
  intros H. unfold flushRow. cbv zeta.
  destruct (hasContent (r ++ [f])) eqn:Hc; [|exact H].
  apply List.Forall_app. split; [exact H | now repeat constructor].
Qed.

Lemma step_rows_content (st : PState) (ch : N) (next : option N) :
  Forall (fun x => hasContent x = true) (rows st) ->
  Forall (fun x => hasContent x = true) (rows (fst (step st ch next))).
Proof.
  intros H. unfold step.
  repeat match goal with |- context [if ?b then _ else _] => destruct b end;
    simpl; trivial. now apply flushRow_content.
Qed.

Lemma hasContent_exists (r : list jsstring) :
  hasContent r = true <-> exists v, In v r /\ ~ allWs v.
Proof.
  unfold hasContent. rewrite existsb_exists. split; intros [v [Hin Hv]]; exists v;
    (split; [exact Hin|]).
  - apply negb_true_iff in Hv. unfold streq in Hv. apply bool_decide_eq_false in Hv.
    now rewrite <- trim_nil_iff.
  - apply negb_true_iff. unfold streq. apply bool_decide_eq_false.
    now rewrite trim_nil_iff.
Qed.

Lemma flushRow_app (rs rs' : list (list jsstring)) (r : list jsstring) (f : jsstring) :
  flushRow (rs ++ rs') r f = rs ++ flushRow rs' r f.
Proof. unfold flushRow. cbv zeta. destruct (hasContent _); [now rewrite <- app_assoc | reflexivity]. Qed.

Lemma step_shiftRows (rs : list (list jsstring)) (st : PState) (ch : N)
    (next : option N) :
  step (shiftRows rs st) ch next
  = (shiftRows rs (fst (step st ch next)), snd (step st ch next)).
Proof.
  unfold step, shiftRows. simpl.
  repeat match goal with |- context [if ?b then _ else _] => destruct b end;
    simpl; try reflexivity. now rewrite flushRow_app.
Qed.

Lemma scan_shiftRows (rs : list (list jsstring)) (text : jsstring) (st : PState) :
  scan text (shiftRows rs st) = shiftRows rs (scan text st).
Proof.
  revert st. induction text as [|c rest IH1 IH2] using two_step_ind; intros st;
    [reflexivity|].
  rewrite !scan_cons, step_shiftRows.
  destruct (step st c (head rest)) as [st' skip]. simpl.
  destruct skip; [|apply IH1].
  destruct rest as [|d rest']; [reflexivity|]. now apply (IH2 d rest').
Qed.

(** What the step reads of the next code unit: whether it is a quote, and
    whether it is a line feed. *)
Lemma step_next_irrelevant (st : PState) (ch : N) (next next' : option N) :
  next <> Some DQUOTE -> next' <> Some DQUOTE ->
  next <> Some LF -> next' <> Some LF ->
  step st ch next = step st ch next'.
Proof.
  intros H1 H2 H3 H4. unfold step.
  now rewrite !(bool_decide_eq_false_2 _ H1), !(bool_decide_eq_false_2 _ H2),
    !(bool_decide_eq_false_2 _ H3), !(bool_decide_eq_false_2 _ H4).
Qed.

Lemma endRow_endRow (st : PState) : endRow (endRow st) = endRow st.
Proof. unfold endRow. simpl. reflexivity. Qed.

Lemma step_no_skip (st : PState) (ch : N) (next : option N) :
  next <> Some DQUOTE -> next <> Some LF -> snd (step st ch next) = false.
Proof.
  intros H1 H2. unfold step.
  rewrite (bool_decide_eq_false_2 _ H1), (bool_decide_eq_false_2 _ H2), !andb_false_r.
  destruct (ch =? DQUOTE), (negb (inQuotes st) && (ch =? COMMA)),
    (negb (inQuotes st) && ((ch =? LF) || (ch =? CR))); reflexivity.
Qed.

Lemma step_lf_irrelevant (st : PState) (ch : N) :
  inQuotes st = true \/ ch <> CR -> step st ch (Some LF) = step st ch None.
Proof.
  intros [H|H]; unfold step.
  - rewrite H. destruct (ch =? DQUOTE); reflexivity.
  - apply N.eqb_neq in H. rewrite H.
    destruct (ch =? DQUOTE), (inQuotes st), (ch =? COMMA), (ch =? LF); reflexivity.
Qed.

(** The last step of a chunk, when the text goes on with [h]. *)
Lemma scan_last_unit (st : PState) (c h : N) (rest : jsstring) :
  h <> DQUOTE ->
  scan (c :: h :: rest) st = scan (h :: rest) (scan [c] st).
Proof.
  intros Hh. rewrite (scan_cons c [] st), scan_cons.
  change (head (h :: rest)) with (Some h). change (@head N []) with (@None N).
  pose proof (step_no_skip st c None ltac:(discriminate) ltac:(discriminate)) as Hn.
  destruct (N.eq_dec h LF) as [->|Hlf].
  - destruct (inQuotes st) eqn:Hq; [|destruct (N.eq_dec c CR) as [->|Hc]].
    + rewrite step_lf_irrelevant by now left.
      destruct (step st c None) as [st' skip]. simpl in Hn. now subst skip.
    + assert (E1 : step st CR (Some LF) = (endRow st, true))
        by (rewrite step_terminator by (trivial; now right); reflexivity).
      assert (E2 : step st CR None = (endRow st, false))
        by (rewrite step_terminator by (trivial; now right); reflexivity).
      rewrite E1, E2. cbv beta iota.
      change (scan [] (endRow st)) with (endRow st).
      rewrite scan_lf by exact Hq. now rewrite endRow_endRow.
    + rewrite step_lf_irrelevant by now right.
      destruct (step st c None) as [st' skip]. simpl in Hn. now subst skip.
  - rewrite (step_next_irrelevant st c (Some h) None) by congruence.
    destruct (step st c None) as [st' skip]. simpl in Hn. now subst skip.
Qed.

(** The scan can be cut before any code unit that is not a quote. *)
Lemma scan_app (t1 t2 : jsstring) (st : PState) :
  head t2 <> Some DQUOTE ->
  scan (t1 ++ t2) st = scan t2 (scan t1 st).
Proof.
  intros Hh. destruct t2 as [|h t2]; [now rewrite app_nil_r|].
  assert (Hq : h <> DQUOTE) by (intros ->; now apply Hh). clear Hh.
  revert st. induction t1 as [|c rest IH1 IH2] using two_step_ind; intros st;
    [reflexivity|].
  destruct rest as [|d rest'].
  - simpl app. now apply scan_last_unit.
  - simpl app.
    rewrite (scan_cons c (d :: rest' ++ h :: t2) st), (scan_cons c (d :: rest') st).
    change (head (d :: rest' ++ h :: t2)) with (Some d).
    change (head (d :: rest')) with (Some d).
    destruct (step st c (Some d)) as [st' skip].
    destruct skip; [now apply (IH2 d rest') | apply IH1].
Qed.

End ScanFacts.

(** X1. No row of the result of [parseCSV] is blank: every row has a field
    that is not made of white space only (so no row is empty either). *)
Theorem parseCSV_rows_not_blank (text : jsstring) :
  Forall (fun r => exists v, In v r /\ ~ allWs v) (Csv.parseCSV text).
Proof.
  assert (H : Forall (fun r => Csv.hasContent r = true) (Csv.parseCSV text)).
  { unfold Csv.parseCSV. cbv zeta. apply ScanFacts.flushRow_content.
    apply (ScanFacts.scan_invariant
             (fun st => Forall (fun r => Csv.hasContent r = true) (Csv.rows st))
             (fun _ => True)).
    - intros st ch next _. apply ScanFacts.step_rows_content.
    - apply List.Forall_forall. trivial.
    - constructor. }
  eapply List.Forall_impl; [|exact H].
  intros r. apply ScanFacts.hasContent_exists.
Qed.



(** X3. In a text without quotes, no field of the result holds a comma, a
    line feed or a carriage return. *)
Theorem parseCSV_without_quotes (text : jsstring) :
  ~ In DQUOTE text -> Forall (Forall plainField) (Csv.parseCSV text).
Proof.
  intros Hq.
  set (P := fun st : Csv.PState =>
              Csv.inQuotes st = false
              /\ Forall (Forall plainField) (Csv.rows st)
              /\ Forall plainField (Csv.row st)
              /\ plainField (Csv.field st)).
  assert (Hflush : forall rs r f, Forall (Forall plainField) rs ->
            Forall plainField r -> plainField f ->
            Forall (Forall plainField) (Csv.flushRow rs r f)).
  { intros rs r f Hrs Hr Hf. unfold Csv.flushRow. cbv zeta.
    destruct (Csv.hasContent _); [|exact Hrs].
    apply List.Forall_app. split; [exact Hrs|]. constructor; [|constructor].
    apply List.Forall_app. split; [exact Hr | now constructor]. }
  assert (H : P (Csv.scan text Csv.initial)).
  { apply (ScanFacts.scan_invariant P (fun c => c <> DQUOTE)).
    - intros st ch next Hch [Hin [Hrs [Hr Hf]]]. unfold Csv.step.
      apply N.eqb_neq in Hch. rewrite Hch, Hin. simpl.
      destruct (ch =? COMMA) eqn:Hc.
      + simpl. repeat split; trivial; [|constructor].
        apply List.Forall_app. split; [exact Hr | now constructor].
      + destruct ((ch =? LF) || (ch =? CR)) eqn:Ht.
        * simpl. repeat split; trivial; try constructor. now apply Hflush.
        * simpl. repeat split; trivial.
          apply orb_false_iff in Ht. destruct Ht as [Hlf Hcr].
          apply List.Forall_app. split; [exact Hf|]. constructor; [|constructor].
          apply N.eqb_neq in Hch, Hc, Hlf, Hcr. tauto.
    - apply List.Forall_forall. intros c Hc ->. now apply Hq.
    - repeat split; constructor. }
  destruct H as [_ [Hrs [Hr Hf]]]. unfold Csv.parseCSV. cbv zeta. now apply Hflush.
Qed.

Lemma parseCSV_without_quotes_witness :
  ~ In DQUOTE textCrlf /\ Forall (Forall plainField) (Csv.parseCSV textCrlf).
Proof.
  assert (H : ~ In DQUOTE textCrlf) by (vm_compute; intuition discriminate).
  split; [exact H | exact (parseCSV_without_quotes textCrlf H)].
Defined.

(** X4. When the quotes of [t1] are closed at its end, the text made of
    [t1], a line end (a line feed, or a carriage return and a line feed)
    and [t2] is parsed into the rows of [t1] followed by the rows of
    [t2]. *)
Theorem parseCSV_lines_compose (t1 t2 : jsstring) :
  Csv.inQuotes (Csv.scan t1 Csv.initial) = false ->
  Csv.parseCSV (t1 ++ LF :: t2) = Csv.parseCSV t1 ++ Csv.parseCSV t2
  /\ Csv.parseCSV (t1 ++ CR :: LF :: t2) = Csv.parseCSV t1 ++ Csv.parseCSV t2.
Proof.
  intros Hq.
  assert (E : endRow (Csv.scan t1 Csv.initial)
              = shiftRows (Csv.parseCSV t1) Csv.initial).
  { unfold endRow, shiftRows, Csv.parseCSV. cbv zeta. rewrite Hq. simpl.
    now rewrite app_nil_r. }
  assert (F : forall st, Csv.flushRow (Csv.rows (shiftRows (Csv.parseCSV t1) st))
                (Csv.row (shiftRows (Csv.parseCSV t1) st))
                (Csv.field (shiftRows (Csv.parseCSV t1) st))
              = Csv.parseCSV t1 ++ Csv.flushRow (Csv.rows st) (Csv.row st) (Csv.field st)).
  { intros st. unfold shiftRows. simpl. apply ScanFacts.flushRow_app. }
  split.
  - unfold Csv.parseCSV at 1. cbv zeta.
    rewrite ScanFacts.scan_app by (simpl; discriminate).
    rewrite ParserFacts.scan_lf by exact Hq.
    rewrite E, ScanFacts.scan_shiftRows. apply F.
  - unfold Csv.parseCSV at 1. cbv zeta.
    rewrite ScanFacts.scan_app by (simpl; discriminate).
    rewrite ParserFacts.scan_crlf by exact Hq.
    rewrite E, ScanFacts.scan_shiftRows. apply F.
Qed.

Lemma parseCSV_lines_compose_witness :
  Csv.inQuotes (Csv.scan lineDoe Csv.initial) = false
  /\ Csv.parseCSV (lineDoe ++ LF :: lineHi) = Csv.parseCSV lineDoe ++ Csv.parseCSV lineHi
  /\ Csv.parseCSV (lineDoe ++ CR :: LF :: lineHi)
     = Csv.parseCSV lineDoe ++ Csv.parseCSV lineHi.
Proof.
  assert (H : Csv.inQuotes (Csv.scan lineDoe Csv.initial) = false) by reflexivity.
  split; [exact H | exact (parseCSV_lines_compose lineDoe lineHi H)].
Defined.

(** ** Code points *)

Lemma arrayFrom_concat (s : jsstring) : concat (arrayFrom s) = s.
Proof.
  induction s as [|c rest IH1 IH2] using ScanFacts.two_step_ind; [reflexivity|].
  destruct rest as [|d rest']; [reflexivity|].
  cbn [arrayFrom]. destruct (isHighSurrogate c && isLowSurrogate d).
  - simpl. f_equal. f_equal. now apply (IH2 d rest').
  - simpl. f_equal. exact IH1.
Qed.

Lemma arrayFrom_length (s : jsstring) :
  (length (arrayFrom s) <= length s <= 2 * length (arrayFrom s))%nat.
Proof.
  induction s as [|c rest IH1 IH2] using ScanFacts.two_step_ind; [simpl; lia|].
  destruct rest as [|d rest']; [simpl; lia|].
  cbn [arrayFrom]. destruct (isHighSurrogate c && isLowSurrogate d).
  - specialize (IH2 d rest' eq_refl). simpl in *. lia.
  - simpl in *. lia.
Qed.

(** X5. The elements of [Array.from(s)] joined give [s] back, and the count
    of [countGraphemes] lies between half the number of code units and
    that number. *)
Theorem countGraphemes_bounds (s : jsstring) :
  concat (arrayFrom s) = s
  /\ (Csv.countGraphemes (Some s) <= length s <= 2 * Csv.countGraphemes (Some s))%nat
  /\ Csv.countGraphemes None = 0%nat.
Proof.
  split; [apply arrayFrom_concat|]. split; [apply arrayFrom_length | reflexivity].
Qed.

(** X6. In the first variant [runSearch] accepts the query (no error
    message) exactly when its trimmed form has two code points or more, and
    then submits the trimmed form; so four code units are always enough and
    one never is. In every case the page is set to 1 and the books, the
    selected field and the typed query are kept. *)
Theorem strict_runSearch_accepts_iff (st : Strict.State) :
  let st' := Strict.runSearch st in
  let trimmed := trim (Strict.query st) in
  (Strict.error st' = [] <-> (2 <= Csv.countGraphemes (Some trimmed))%nat)
  /\ (Strict.error st' = [] -> Strict.submittedQuery st' = trimmed)
  /\ (Strict.error st' <> [] -> Strict.submittedQuery st' = [])
  /\ ((4 <= length trimmed)%nat -> Strict.error st' = [])
  /\ ((length trimmed < 2)%nat -> Strict.error st' <> [])
  /\ Strict.currentPage st' = 1%Z
  /\ Strict.books st' = Strict.books st
  /\ Strict.selectedField st' = Strict.selectedField st
  /\ Strict.query st' = Strict.query st.
Proof.
  intros st' trimmed.
  pose proof (arrayFrom_length trimmed) as Hlen.
  unfold Csv.countGraphemes. simpl default.
  assert (Hcases :
    (trimmed = [] /\ st' = Strict.withSearch st Strict.MSG_EMPTY [])
    \/ (trimmed <> [] /\ (length (arrayFrom trimmed) < 2)%nat
        /\ st' = Strict.withSearch st Strict.MSG_TOO_SHORT [])
    \/ ((2 <= length (arrayFrom trimmed))%nat /\ st' = Strict.withSearch st [] trimmed)).
  { unfold st', Strict.runSearch. cbv zeta. fold trimmed. unfold streq.
    destruct (bool_decide (trimmed = [])) eqn:He.
    - apply bool_decide_eq_true in He. now left.
    - apply bool_decide_eq_false in He.
      destruct (Nat.ltb_spec (length (arrayFrom trimmed)) 2); [right; left | right; right];
        tauto. }
  destruct Hcases as [[He ->]|[[Hne [Hlt ->]]|[Hge ->]]]; simpl.
  - rewrite He in *. simpl in *.
    repeat split; trivial; try discriminate; try lia; intros; try lia; discriminate.
  - repeat split; trivial; try discriminate; intros; try lia; discriminate.
  - repeat split; trivial; intros; try lia; congruence.
Qed.

Lemma strict_runSearch_accepts_iff_witness :
  (4 <= length (trim (Strict.query stateEmoji)))%nat
  /\ Strict.error (Strict.runSearch stateEmoji) = []
  /\ Strict.submittedQuery (Strict.runSearch stateEmoji) = queryEmoji
  /\ (length (trim (Strict.query stateOneLetter)) < 2)%nat
  /\ Strict.error (Strict.runSearch stateOneLetter) <> []
  /\ Strict.submittedQuery (Strict.runSearch stateOneLetter) = [].
Proof.
  pose proof (strict_runSearch_accepts_iff stateEmoji) as [_ [A2 [_ [A4 _]]]].
  pose proof (strict_runSearch_accepts_iff stateOneLetter) as [_ [_ [B3 [_ [B5 _]]]]].
  assert (H1 : (4 <= length (trim (Strict.query stateEmoji)))%nat) by (vm_compute; lia).
  assert (H2 : (length (trim (Strict.query stateOneLetter)) < 2)%nat) by (vm_compute; lia).
  split; [exact H1|]. split; [exact (A4 H1)|]. split; [exact (A2 (A4 H1))|].
  split; [exact H2|]. split; [exact (B5 H2) | exact (B3 (B5 H2))].
Defined.

(** ** Records and books *)

Module ObjectFacts.
Import Csv RecordFacts.

Lemma columns_lookup_last (headers r : list jsstring) (cols : list nat)
    (obj : gmap jsstring jsstring) (i : nat) (rest : list nat) :
  columnKey headers i <> PROTO_KEY ->
  columnKey headers i ∉ List.map (columnKey headers) rest ->
  foldl (setColumn headers r) obj (cols ++ i :: rest) !! columnKey headers i
  = Some (cell r i).
Proof.
  intros Hp Hrest. rewrite foldl_app. simpl foldl.
  rewrite columns_lookup_other by assumption.
  unfold setColumn. now apply objSet_lookup_eq.
Qed.

Lemma seq_split_at (n i : nat) :
  (i < n)%nat -> seq 0 n = seq 0 i ++ i :: seq (S i) (n - S i).
Proof.
  intros Hi. replace n with (i + S (n - S i))%nat at 1 by lia.
  rewrite seq_app. reflexivity.
Qed.

Lemma toObject_lookup_last (headers : list jsstring) (idx : nat) (r : list jsstring)
    (i : nat) :
  (i < length headers)%nat ->
  columnKey headers i <> PROTO_KEY ->
  (forall j, (i < j < length headers)%nat -> columnKey headers j <> columnKey headers i) ->
  toObject headers idx r !! columnKey headers i = Some (cell r i).
Proof.
  intros Hi Hp Hlast. unfold toObject. rewrite (seq_split_at _ _ Hi).
  apply columns_lookup_last; [exact Hp|].
  rewrite list_elem_of_In, in_map_iff. intros [j [Hj Hin]].
  apply in_seq in Hin. apply (Hlast j); [lia | exact Hj].
Qed.

Lemma toObject_lookup_none (headers : list jsstring) (idx : nat) (r : list jsstring)
    (k : jsstring) :
  k <> ID_KEY ->
  k ∉ List.map (columnKey headers) (seq 0 (length headers)) ->
  toObject headers idx r !! k = None.
Proof.
  intros Hid Hk. unfold toObject. rewrite columns_lookup_other by assumption.
  now apply lookup_singleton_ne.
Qed.

(** The keys of a record. *)
Lemma columns_dom (headers r : list jsstring) (cols : list nat)
    (obj : gmap jsstring jsstring) (k : jsstring) :
  is_Some (foldl (setColumn headers r) obj cols !! k) <->
  is_Some (obj !! k)
  \/ (k <> PROTO_KEY /\ In k (List.map (columnKey headers) cols)).
Proof.
  revert obj. induction cols as [|a cols IH]; intros obj; simpl.
  - tauto.
  - rewrite IH. unfold setColumn, objSet, streq.
    destruct (bool_decide_reflect (columnKey headers a = PROTO_KEY)) as [Hp|Hp].
    + split; [tauto|]. intros [H|[Hk [H|H]]]; [tauto | congruence | tauto].
    + rewrite lookup_insert_is_Some. split.
      * intros [[H|[_ H]]|H]; [subst k|..]; tauto.
      * intros [H|[Hk [H|H]]]; [|subst k; tauto | tauto].
        destruct (decide (columnKey headers a = k)); tauto.
Qed.

Lemma toObject_dom (headers : list jsstring) (idx : nat) (r : list jsstring)
    (k : jsstring) :
  is_Some (toObject headers idx r !! k) <->
  k = ID_KEY
  \/ (k <> PROTO_KEY /\ In k (List.map (columnKey headers) (seq 0 (length headers)))).
Proof.
  unfold toObject. rewrite columns_dom.
  assert (H : is_Some (({[ID_KEY := toStringNat idx]} : gmap jsstring jsstring) !! k)
              <-> k = ID_KEY).
  { destruct (decide (ID_KEY = k)) as [<-|Hne].
    - rewrite lookup_singleton_eq. split; [reflexivity | eauto].
    - rewrite lookup_singleton_ne by assumption. split; [intros [? [=]] | congruence]. }
  now rewrite H.
Qed.

(** The values of a record. *)
Lemma cell_trimmed (r : list jsstring) (i : nat) : trim (cell r i) = cell r i.
Proof. apply trim_idempotent. Qed.

Lemma columns_values (P : jsstring -> Prop) (headers r : list jsstring)
    (cols : list nat) (obj : gmap jsstring jsstring) :
  (forall i, P (cell r i)) ->
  (forall k v, obj !! k = Some v -> P v) ->
  forall k v, foldl (setColumn headers r) obj cols !! k = Some v -> P v.
Proof.
  intros Hcell. revert obj. induction cols as [|a cols IH]; intros obj Hobj k v; simpl.
  - apply Hobj.
  - apply IH. intros k' v'. unfold setColumn, objSet.
    destruct (streq _ PROTO_KEY); [apply Hobj|].
    rewrite lookup_insert. case_decide; [intros [= <-]; apply Hcell | apply Hobj].
Qed.

Lemma digits_no_white_space (d : Decimal.uint) :
  noWs (u (NilEmpty.string_of_uint d)).
Proof. unfold noWs. induction d; simpl; constructor; trivial. Qed.

Lemma toStringNat_no_white_space (n : nat) : noWs (toStringNat n).
Proof.
  unfold toStringNat, NilZero.string_of_uint.
  destruct (Nat.to_uint n) eqn:E; try apply digits_no_white_space.
  repeat constructor.
Qed.

Lemma noWs_trim (s : jsstring) : noWs s -> trim s = s.
Proof.
  intros H. unfold trim. rewrite trimStart_id.
  - apply trimEnd_id. intros init c ->. apply List.Forall_app in H.
    destruct H as [_ H]. now apply Forall_inv in H.
  - intros c r ->. now apply Forall_inv in H.
Qed.

Lemma rowsToObjects_elem (headersRaw : list jsstring) (dataRows : list (list jsstring))
    (obj : gmap jsstring jsstring) :
  In obj (rowsToObjects (headersRaw :: dataRows)) ->
  exists idx r,
    obj = toObject (List.map (fun h => normalizeHeader (Some h)) headersRaw) idx r.
Proof.
  simpl. rewrite <- list_elem_of_In, list_elem_of_lookup. intros [idx H].
  rewrite list_lookup_imap in H.
  destruct (dataRows !! idx) as [r|]; [|discriminate].
  injection H as <-. now exists idx, r.
Qed.

End ObjectFacts.

(** X7. All the records of a table have the same keys: [__id] and the
    column keys other than [__proto__], whatever the length of the rows. *)
Theorem rowsToObjects_same_keys (rows : list (list jsstring))
    (o1 o2 : gmap jsstring jsstring) (k : jsstring) :
  In o1 (Csv.rowsToObjects rows) -> In o2 (Csv.rowsToObjects rows) ->
  (is_Some (o1 !! k) <-> is_Some (o2 !! k))
  /\ (is_Some (o1 !! k) <->
      k = Csv.ID_KEY \/ (k <> Csv.PROTO_KEY /\ In k (columnKeys (default [] (head rows))))).
Proof.
  destruct rows as [|headersRaw dataRows]; [intros []|].
  intros H1 H2.
  apply ObjectFacts.rowsToObjects_elem in H1, H2.
  destruct H1 as [i1 [r1 ->]]. destruct H2 as [i2 [r2 ->]].
  rewrite !ObjectFacts.toObject_dom. simpl. unfold columnKeys. tauto.
Qed.

Lemma rowsToObjects_same_keys_witness :
  exists o1 o2,
    Csv.rowsToObjects rowsBooks !! 0%nat = Some o1
    /\ Csv.rowsToObjects rowsBooks !! 1%nat = Some o2
    /\ In o1 (Csv.rowsToObjects rowsBooks) /\ In o2 (Csv.rowsToObjects rowsBooks)
    /\ (is_Some (o1 !! u "Author") <-> is_Some (o2 !! u "Author")).
Proof.
  eexists. eexists. split; [reflexivity|]. split; [reflexivity|].
  assert (H1 : In (Csv.toObject [u "Title"; []; u "Author"] 0
                     [u " Dune "; u "x"; u "Herbert"]) (Csv.rowsToObjects rowsBooks))
    by (left; reflexivity).
  assert (H2 : In (Csv.toObject [u "Title"; []; u "Author"] 1 [u "Emma"])
                  (Csv.rowsToObjects rowsBooks))
    by (right; left; reflexivity).
  split; [exact H1|]. split; [exact H2|].
  exact (proj1 (rowsToObjects_same_keys rowsBooks _ _ (u "Author") H1 H2)).
Defined.

(** X8. When several columns have the same key, a record holds the cell of
    the last of them: for every column that no later column repeats (and
    whose key is not [__proto__]) the record of a row holds, under the key
    of the column, the trimmed cell of the row at that column. This covers
    a column named [__id], whose cell then replaces the identifier. *)
Theorem rowsToObjects_last_column_wins (headersRaw : list jsstring)
    (dataRows : list (list jsstring)) (idx : nat) (r : list jsstring) (i : nat) :
  let headers := List.map (fun h => Csv.normalizeHeader (Some h)) headersRaw in
  dataRows !! idx = Some r ->
  (i < length headersRaw)%nat ->
  Csv.columnKey headers i <> Csv.PROTO_KEY ->
  (forall j, (i < j < length headersRaw)%nat ->
     Csv.columnKey headers j <> Csv.columnKey headers i) ->
  exists obj,
    Csv.rowsToObjects (headersRaw :: dataRows) !! idx = Some obj
    /\ obj !! Csv.columnKey headers i = Some (trim (default [] (r !! i))).
Proof.
  intros headers Hr Hi Hp Hlast. exists (Csv.toObject headers idx r). split.
  - simpl. fold headers. now rewrite list_lookup_imap, Hr.
  - assert (Hlen : length headers = length headersRaw) by apply length_map.
    apply ObjectFacts.toObject_lookup_last; rewrite ?Hlen; assumption.
Qed.

Lemma rowsToObjects_last_column_wins_witness :
  [[u " Dune "; u "1"; u " 2 "]; [u "Emma"]] !! 0%nat = Some [u " Dune "; u "1"; u " 2 "]
  /\ (2 < length [BOM :: Strict.K_TITLE; u "a"; u " a "])%nat
  /\ exists obj,
       Csv.rowsToObjects rowsTwice !! 0%nat = Some obj /\ obj !! u "a" = Some (u "2").
Proof.
  split; [reflexivity|]. split; [simpl; lia|].
  apply (rowsToObjects_last_column_wins [BOM :: Strict.K_TITLE; u "a"; u " a "]
           [[u " Dune "; u "1"; u " 2 "]; [u "Emma"]] 0 [u " Dune "; u "1"; u " 2 "] 2).
  - reflexivity.
  - simpl. lia.
  - vm_compute. discriminate.
  - intros j Hj. simpl in Hj. lia.
Defined.

(** X9. No value of a record starts or ends with white space: trimming a
    value gives the value back, the identifier included. *)
Theorem rowsToObjects_values_trimmed (rows : list (list jsstring))
    (obj : gmap jsstring jsstring) (k v : jsstring) :
  In obj (Csv.rowsToObjects rows) -> obj !! k = Some v -> trim v = v.
Proof.
  destruct rows as [|headersRaw dataRows]; [intros []|].
  intros Hin. apply ObjectFacts.rowsToObjects_elem in Hin.
  destruct Hin as [idx [r ->]]. unfold Csv.toObject.
  apply (ObjectFacts.columns_values (fun v => trim v = v)).
  - apply ObjectFacts.cell_trimmed.
  - intros k' v'. rewrite lookup_singleton_Some. intros [_ <-].
    apply ObjectFacts.noWs_trim, ObjectFacts.toStringNat_no_white_space.
Qed.

Lemma rowsToObjects_values_trimmed_witness :
  In (Csv.toObject [Strict.K_TITLE; u "a"; u "a"] 0 [u " Dune "; u "1"; u " 2 "])
     (Csv.rowsToObjects rowsTwice)
  /\ Csv.toObject [Strict.K_TITLE; u "a"; u "a"] 0 [u " Dune "; u "1"; u " 2 "]
       !! Strict.K_TITLE = Some (u "Dune")
  /\ trim (u "Dune") = u "Dune".
Proof.
  assert (H1 : In (Csv.toObject [Strict.K_TITLE; u "a"; u "a"] 0
                     [u " Dune "; u "1"; u " 2 "]) (Csv.rowsToObjects rowsTwice))
    by (left; reflexivity).
  assert (H2 : Csv.toObject [Strict.K_TITLE; u "a"; u "a"] 0 [u " Dune "; u "1"; u " 2 "]
                 !! Strict.K_TITLE = Some (u "Dune")) by (vm_compute; reflexivity).
  split; [exact H1|]. split; [exact H2|].
  exact (rowsToObjects_values_trimmed rowsTwice _ _ _ H1 H2).
Defined.

Module BookFacts.

Lemma lookup_map {A B} (f : A -> B) (l : list A) (i : nat) :
  List.map f l !! i = f <$> l !! i.
Proof.
  revert i. induction l as [|a l IH]; intros [|i]; simpl; trivial.
Qed.

Lemma bookGet_toBook (o : gmap jsstring jsstring) (key : jsstring) :
  In key bookKeys ->
  Strict.bookGet (Strict.toBook o) key = Some (trim (default [] (o !! key))).
Proof.
  intros [<-|[<-|[<-|[]]]]; reflexivity.
Qed.

Lemma toBook_same (o : gmap jsstring jsstring) : Lenient.toBook o = Strict.toBook o.
Proof. reflexivity. Qed.

Lemma bookKeys_not_special (key : jsstring) :
  In key bookKeys -> key <> Csv.ID_KEY /\ key <> Csv.PROTO_KEY.
Proof. intros [<-|[<-|[<-|[]]]]; split; discriminate. Qed.

End BookFacts.

(** X10. A column that the table does not have gives the empty string, not
    an error: when none of the column keys is the name of a field of the
    books, that field is empty in every book built from the table. The two
    variants build the same book from a record, and there are as many
    books as data rows. *)
Theorem books_missing_column (headersRaw : list jsstring)
    (dataRows : list (list jsstring)) (key : jsstring) (b : Strict.Book) :
  In key bookKeys ->
  ~ In key (columnKeys headersRaw) ->
  In b (List.map Strict.toBook (Csv.rowsToObjects (headersRaw :: dataRows))) ->
  Strict.bookGet b key = Some []
  /\ List.map Lenient.toBook (Csv.rowsToObjects (headersRaw :: dataRows))
     = List.map Strict.toBook (Csv.rowsToObjects (headersRaw :: dataRows))
  /\ length (List.map Strict.toBook (Csv.rowsToObjects (headersRaw :: dataRows)))
     = length dataRows.
Proof.
  intros Hkey Hmiss Hb. split; [|split].
  - apply in_map_iff in Hb. destruct Hb as [o [<- Ho]].
    apply ObjectFacts.rowsToObjects_elem in Ho. destruct Ho as [idx [r ->]].
    rewrite BookFacts.bookGet_toBook by assumption.
    rewrite ObjectFacts.toObject_lookup_none; [reflexivity | |].
    + now apply BookFacts.bookKeys_not_special.
    + rewrite list_elem_of_In. exact Hmiss.
  - apply map_ext. intros o. apply BookFacts.toBook_same.
  - rewrite length_map. simpl. apply length_imap.
Qed.

Lemma books_missing_column_witness :
  In Strict.K_AUTHOR bookKeys
  /\ ~ In Strict.K_AUTHOR (columnKeys [BOM :: Strict.K_TITLE; u "a"; u " a "])
  /\ In (Strict.mkBook (Some (u "1")) (u "Emma") [] [])
        (List.map Strict.toBook (Csv.rowsToObjects rowsTwice))
  /\ Strict.bookGet (Strict.mkBook (Some (u "1")) (u "Emma") [] []) Strict.K_AUTHOR
     = Some [].
Proof.
  assert (H1 : In Strict.K_AUTHOR bookKeys) by (right; left; reflexivity).
  assert (H2 : ~ In Strict.K_AUTHOR (columnKeys [BOM :: Strict.K_TITLE; u "a"; u " a "]))
    by (vm_compute; intuition discriminate).
  assert (H3 : In (Strict.mkBook (Some (u "1")) (u "Emma") [] [])
                  (List.map Strict.toBook (Csv.rowsToObjects rowsTwice)))
    by (right; left; vm_compute; reflexivity).
  split; [exact H1|]. split; [exact H2|]. split; [exact H3|].
  exact (proj1 (books_missing_column [BOM :: Strict.K_TITLE; u "a"; u " a "]
                  [[u " Dune "; u "1"; u " 2 "]; [u "Emma"]] Strict.K_AUTHOR _ H1 H2 H3)).
Defined.

Module BookLookup.

Lemma books_lookup (headersRaw : list jsstring) (dataRows : list (list jsstring))
    (idx : nat) (r : list jsstring) :
  dataRows !! idx = Some r ->
  List.map Strict.toBook (Csv.rowsToObjects (headersRaw :: dataRows)) !! idx
  = Some (Strict.toBook
            (Csv.toObject (List.map (fun h => Csv.normalizeHeader (Some h)) headersRaw)
                          idx r)).
Proof.
  intros Hr. rewrite BookFacts.lookup_map. simpl.
  now rewrite list_lookup_imap, Hr.
Qed.

Lemma column_key_of_field (headers : list jsstring) (i : nat) (key : jsstring) :
  headers !! i = Some key -> In key bookKeys -> Csv.columnKey headers i = key.
Proof.
  intros Hh Hkey. unfold Csv.columnKey. rewrite Hh. simpl. unfold streq.
  rewrite bool_decide_eq_false_2; [reflexivity|].
  intros E. rewrite E in Hkey. destruct Hkey as [H|[H|[H|[]]]]; discriminate H.
Qed.

Lemma book_field (headers : list jsstring) (idx : nat) (r : list jsstring)
    (i : nat) (key : jsstring) :
  headers !! i = Some key -> In key bookKeys ->
  (forall j, (i < j < length headers)%nat -> Csv.columnKey headers j <> key) ->
  Strict.bookGet (Strict.toBook (Csv.toObject headers idx r)) key
  = Some (trim (default [] (r !! i))).
Proof.
  intros Hh Hkey Hlast.
  pose proof (column_key_of_field headers i key Hh Hkey) as Hck.
  rewrite BookFacts.bookGet_toBook by assumption. rewrite <- Hck.
  rewrite ObjectFacts.toObject_lookup_last.
  - simpl. f_equal. apply ObjectFacts.cell_trimmed.
  - now apply lookup_lt_Some in Hh.
  - rewrite Hck. now apply BookFacts.bookKeys_not_special.
  - intros j Hj. rewrite Hck. now apply Hlast.
Qed.

End BookLookup.

(** X11. A column of the table whose header cell, normalised, is the name of
    a field of the books, and which no later column repeats, fills that
    field: the book of a data row holds the trimmed cell of the row at that
    column (the empty string when the row is too short). When no column
    key is [__id], the [id] of the book is the position of the row. *)
Theorem books_from_column (headersRaw : list jsstring)
    (dataRows : list (list jsstring)) (idx : nat) (r : list jsstring)
    (i : nat) (raw : jsstring) :
  let headers := List.map (fun h => Csv.normalizeHeader (Some h)) headersRaw in
  dataRows !! idx = Some r ->
  headersRaw !! i = Some raw ->
  In (Csv.normalizeHeader (Some raw)) bookKeys ->
  (forall j, (i < j < length headersRaw)%nat ->
     Csv.columnKey headers j <> Csv.normalizeHeader (Some raw)) ->
  exists b,
    List.map Strict.toBook (Csv.rowsToObjects (headersRaw :: dataRows)) !! idx = Some b
    /\ Strict.bookGet b (Csv.normalizeHeader (Some raw))
       = Some (trim (default [] (r !! i)))
    /\ (~ In Csv.ID_KEY (columnKeys headersRaw) -> Strict.id b = Some (toStringNat idx)).
Proof.
  intros headers Hr Hraw Hkey Hlast.
  exists (Strict.toBook (Csv.toObject headers idx r)).
  assert (Hh : headers !! i = Some (Csv.normalizeHeader (Some raw)))
    by (unfold headers; now rewrite BookFacts.lookup_map, Hraw).
  split; [now apply BookLookup.books_lookup|]. split.
  - apply BookLookup.book_field; trivial.
    intros j Hj. apply Hlast. unfold headers in Hj. now rewrite length_map in Hj.
  - intros Hid. simpl. apply RecordFacts.toObject_id.
    rewrite list_elem_of_In. exact Hid.
Qed.

Lemma books_from_column_witness :
  [[u " Dune "; u "1"; u " 2 "]; [u "Emma"]] !! 0%nat = Some [u " Dune "; u "1"; u " 2 "]
  /\ [BOM :: Strict.K_TITLE; u "a"; u " a "] !! 0%nat = Some (BOM :: Strict.K_TITLE)
  /\ In (Csv.normalizeHeader (Some (BOM :: Strict.K_TITLE))) bookKeys
  /\ ~ In Csv.ID_KEY (columnKeys [BOM :: Strict.K_TITLE; u "a"; u " a "])
  /\ exists b,
       List.map Strict.toBook (Csv.rowsToObjects rowsTwice) !! 0%nat = Some b
       /\ Strict.bookGet b Strict.K_TITLE = Some (u "Dune")
       /\ Strict.id b = Some (u "0").
Proof.
  assert (H3 : In (Csv.normalizeHeader (Some (BOM :: Strict.K_TITLE))) bookKeys)
    by (left; reflexivity).
  assert (H4 : ~ In Csv.ID_KEY (columnKeys [BOM :: Strict.K_TITLE; u "a"; u " a "]))
    by (vm_compute; intuition discriminate).
  split; [reflexivity|]. split; [reflexivity|]. split; [exact H3|]. split; [exact H4|].
  destruct (books_from_column [BOM :: Strict.K_TITLE; u "a"; u " a "]
              [[u " Dune "; u "1"; u " 2 "]; [u "Emma"]] 0 [u " Dune "; u "1"; u " 2 "]
              0 (BOM :: Strict.K_TITLE) eq_refl eq_refl H3) as [b [Hb [Hg Hid]]].
  - intros j Hj. vm_compute in Hj.
    destruct j as [|[|[|j]]]; try lia; vm_compute; discriminate.
  - exists b. split; [exact Hb|]. split; [exact Hg | exact (Hid H4)].
Defined.

(** ** The normalisers on ASCII strings *)

Module NormalFacts.

Lemma lowerUnit_idempotent (c : N) : lowerUnit (lowerUnit c) = lowerUnit c.
Proof.
  unfold lowerUnit.
  destruct (N.leb_spec 0x41 c); [|simpl; destruct (N.leb_spec 0x41 c); [lia | reflexivity]].
  destruct (N.leb_spec c 0x5A); simpl.
  - destruct (N.leb_spec (c + 0x20) 0x5A); [lia|]. now rewrite andb_false_r.
  - destruct (N.leb_spec 0x41 c); [|lia]. destruct (N.leb_spec c 0x5A); [lia | reflexivity].
Qed.

Lemma lowerUnit_ascii (c : N) : isAscii c -> isAscii (lowerUnit c).
Proof.
  unfold isAscii, lowerUnit. intros H.
  destruct (N.leb_spec 0x41 c); simpl; [|exact H].
  destruct (N.leb_spec c 0x5A); [lia | exact H].
Qed.

Lemma map_lower_idempotent (s : jsstring) :
  List.map lowerUnit (List.map lowerUnit s) = List.map lowerUnit s.
Proof. rewrite List.map_map. apply map_ext. apply lowerUnit_idempotent. Qed.

Lemma map_lower_ascii (s : jsstring) :
  Forall isAscii s -> Forall isAscii (List.map lowerUnit s).
Proof. induction 1; simpl; constructor; [now apply lowerUnit_ascii | assumption]. Qed.

Lemma trimStart_map_lower (s : jsstring) :
  trimStart (List.map lowerUnit s) = List.map lowerUnit (trimStart s).
Proof.
  induction s as [|c s IH]; simpl; [reflexivity|].
  rewrite isWhiteSpace_lowerUnit. destruct (isWhiteSpace c); [exact IH | reflexivity].
Qed.

Lemma trim_map_lower (s : jsstring) :
  trim (List.map lowerUnit s) = List.map lowerUnit (trim s).
Proof.
  unfold trim, trimEnd.
  now rewrite trimStart_map_lower, <- List.map_rev, trimStart_map_lower, List.map_rev.
Qed.

Lemma replaceWsFrom_map_lower (rep : jsstring) (inRun : bool) (s : jsstring) :
  List.map lowerUnit rep = rep ->
  replaceWsFrom rep inRun (List.map lowerUnit s)
  = List.map lowerUnit (replaceWsFrom rep inRun s).
Proof.
  intros Hrep. revert inRun. induction s as [|c s IH]; intros inRun; simpl; [reflexivity|].
  rewrite isWhiteSpace_lowerUnit. destruct (isWhiteSpace c).
  - rewrite IH, List.map_app. destruct inRun; simpl; [reflexivity | now rewrite Hrep].
  - simpl. now rewrite IH.
Qed.

Lemma replaceWsFrom_collapsed (inRun : bool) (x : jsstring) :
  collapsedFrom inRun x -> replaceWsFrom [SPACE] inRun x = x.
Proof.
  revert inRun. induction x as [|c x IH]; intros inRun; simpl; [reflexivity|].
  destruct (isWhiteSpace c).
  - intros [-> [-> H]]. simpl. f_equal. now apply IH.
  - intros H. f_equal. now apply IH.
Qed.

Lemma replaceWsFrom_ascii (inRun : bool) (x : jsstring) :
  Forall isAscii x -> Forall isAscii (replaceWsFrom [SPACE] inRun x).
Proof.
  intros H. revert inRun. induction H as [|c x Hc _ IH]; intros inRun; simpl;
    [constructor|].
  destruct (isWhiteSpace c).
  - destruct inRun; simpl; [apply IH|]. constructor; [reflexivity | apply IH].
  - constructor; [exact Hc | apply IH].
Qed.

Lemma filter_nonWs_replaceWsFrom (inRun : bool) (x : jsstring) :
  List.filter nonWs (replaceWsFrom [SPACE] inRun x) = List.filter nonWs x.
Proof.
  revert inRun. induction x as [|c x IH]; intros inRun; simpl; [reflexivity|].
  unfold nonWs at 2. destruct (isWhiteSpace c) eqn:Hc; simpl.
  - destruct inRun; simpl; apply IH.
  - unfold nonWs at 1. rewrite Hc. simpl. f_equal. apply IH.
Qed.

Section WithCasing.
Context {C : Casing} {HC : CasingLaws C}.

(** The normal form of an ASCII string, with the letters lowered first. *)
Lemma normalizeText_lowered (s : jsstring) :
  Forall isAscii s ->
  Csv.normalizeText (Some s) = replaceWs [SPACE] (trim (List.map lowerUnit s)).
Proof. intros H. now rewrite normalizeText_ascii, trim_map_lower. Qed.

Lemma normalizeText_is_ascii (s : jsstring) :
  Forall isAscii s -> Forall isAscii (Csv.normalizeText (Some s)).
Proof.
  intros H. rewrite normalizeText_ascii by assumption.
  apply replaceWsFrom_ascii, map_lower_ascii. now apply isAscii_trim.
Qed.

Lemma normalizeText_fixed (s : jsstring) :
  Forall isAscii s ->
  Csv.normalizeText (Some (Csv.normalizeText (Some s))) = Csv.normalizeText (Some s).
Proof.
  intros H.
  pose proof (normalizeText_ascii_ends s H) as [Hhead Hlast].
  rewrite (normalizeText_ascii (Csv.normalizeText (Some s)))
    by now apply normalizeText_is_ascii.
  assert (Ht : trim (Csv.normalizeText (Some s)) = Csv.normalizeText (Some s)).
  { unfold trim. rewrite trimStart_id by exact Hhead. now apply trimEnd_id. }
  rewrite Ht. rewrite (normalizeText_ascii s H) at 1.
  unfold replaceWs. rewrite <- replaceWsFrom_map_lower by reflexivity.
  rewrite map_lower_idempotent. fold (replaceWs [SPACE] (List.map lowerUnit (trim s))).
  rewrite <- normalizeText_ascii by assumption.
  apply replaceWsFrom_collapsed.
  unfold Csv.normalizeText. apply replaceWs_space_collapsed.
Qed.

Lemma normalizeText_case (s : jsstring) :
  Forall isAscii s ->
  Csv.normalizeText (Some (List.map lowerUnit s)) = Csv.normalizeText (Some s).
Proof.
  intros H. rewrite normalizeText_lowered by now apply map_lower_ascii.
  rewrite map_lower_idempotent. now rewrite <- normalizeText_lowered.
Qed.

Lemma normalizeNoSpace_ascii (s : jsstring) :
  Forall isAscii s ->
  Lenient.normalizeNoSpace (Some s) = List.filter nonWs (List.map lowerUnit s).
Proof.
  intros H. rewrite normalizeNoSpace_filter, normalizeBase_ascii by assumption.
  unfold replaceWs. rewrite filter_nonWs_replaceWsFrom, <- trim_map_lower.
  apply filter_nonWs_trim.
Qed.

End WithCasing.

End NormalFacts.

(** X12. On ASCII strings [normalizeText] is idempotent and blind to the
    case of the letters: normalising a normal form changes nothing, and
    two strings that are equal once A-Z are lowered have the same normal
    form, so that two states that differ only by such a change of the
    submitted query show the same result. *)
Theorem normalizeText_idempotent {C : Casing} {HC : CasingLaws C} (s : jsstring) :
  Forall isAscii s ->
  Csv.normalizeText (Some (Csv.normalizeText (Some s))) = Csv.normalizeText (Some s)
  /\ Csv.normalizeText (Some (List.map lowerUnit s)) = Csv.normalizeText (Some s)
  /\ (forall s', Forall isAscii s' -> List.map lowerUnit s' = List.map lowerUnit s ->
        Csv.normalizeText (Some s') = Csv.normalizeText (Some s)
        /\ forall books field q e p q' e' p',
             Strict.filtered (Strict.mkState books field q' s' e' p')
             = Strict.filtered (Strict.mkState books field q s e p)).
Proof.
  intros H. split; [now apply NormalFacts.normalizeText_fixed|].
  split; [now apply NormalFacts.normalizeText_case|].
  intros s' H' E.
  assert (En : Csv.normalizeText (Some s') = Csv.normalizeText (Some s)).
  { rewrite <- (NormalFacts.normalizeText_case s'), <- (NormalFacts.normalizeText_case s)
      by assumption. now rewrite E. }
  split; [exact En|]. intros. unfold Strict.filtered. simpl. now rewrite En.
Qed.

Lemma normalizeText_idempotent_witness :
  Forall isAscii (u " The  BOOK ")
  /\ @Csv.normalizeText asciiCasing (Some (@Csv.normalizeText asciiCasing (Some (u " The  BOOK "))))
     = u "the book"
  /\ Forall isAscii (u "the  Book")
  /\ List.map lowerUnit (u "the  Book") = List.map lowerUnit (u "The  BOOK")
  /\ @Csv.normalizeText asciiCasing (Some (u "the  Book"))
     = @Csv.normalizeText asciiCasing (Some (u "The  BOOK")).
Proof.
  assert (H1 : Forall isAscii (u " The  BOOK ")) by ascii.
  assert (H2 : Forall isAscii (u "The  BOOK")) by ascii.
  assert (H3 : Forall isAscii (u "the  Book")) by ascii.
  split; [exact H1|].
  split; [rewrite (proj1 (@normalizeText_idempotent asciiCasing asciiCasing_laws _ H1));
          reflexivity|].
  split; [exact H3|]. split; [reflexivity|].
  exact (proj1 (proj2 (proj2 (@normalizeText_idempotent asciiCasing asciiCasing_laws _ H2))
                  (u "the  Book") H3 eq_refl)).
Defined.

(** X13. On ASCII strings [normalizeNoSpace] is the string with A-Z lowered
    and every white-space code unit removed, and the test of the two-site
    filter is the containment of the query in the field, both taken in
    that form: case and white space play no part in it. *)
Theorem lenient_match_ascii {C : Casing} {HC : CasingLaws C}
    (selected q : jsstring) (b : Strict.Book) :
  let target := default [] (Strict.bookGet b selected) in
  Forall isAscii q -> Forall isAscii target ->
  Lenient.normalizeNoSpace (Some q) = List.filter nonWs (List.map lowerUnit q)
  /\ Lenient.matches selected (Lenient.normalizeBase (Some q))
                     (Lenient.normalizeNoSpace (Some q)) b
     = includes (List.filter nonWs (List.map lowerUnit target))
                (List.filter nonWs (List.map lowerUnit q)).
Proof.
  intros target Hq Ht.
  split; [now apply NormalFacts.normalizeNoSpace_ascii|].
  unfold Lenient.matches. cbv zeta. fold target.
  rewrite <- !NormalFacts.normalizeNoSpace_ascii by assumption.
  destruct (includes (Lenient.normalizeBase (Some target)) _) eqn:Hb; [|reflexivity].
  rewrite !normalizeNoSpace_filter. symmetry. simpl. now apply includes_filter.
Qed.

Lemma lenient_match_ascii_witness :
  Forall isAscii (u "BOOKONE")
  /\ Forall isAscii (default [] (Strict.bookGet bookOne Strict.K_TITLE))
  /\ @Lenient.matches asciiCasing Strict.K_TITLE
       (@Lenient.normalizeBase asciiCasing (Some (u "BOOKONE")))
       (@Lenient.normalizeNoSpace asciiCasing (Some (u "BOOKONE"))) bookOne = true.
Proof.
  assert (H1 : Forall isAscii (u "BOOKONE")) by ascii.
  assert (H2 : Forall isAscii (default [] (Strict.bookGet bookOne Strict.K_TITLE)))
    by ascii.
  split; [exact H1|]. split; [exact H2|].
  rewrite (proj2 (@lenient_match_ascii asciiCasing asciiCasing_laws
                    Strict.K_TITLE (u "BOOKONE") bookOne H1 H2)).
  reflexivity.
Defined.

(** ** The results *)

Module FilterFacts.

Lemma includes_trans (s q q' : jsstring) :
  includes s q = true -> includes q q' = true -> includes s q' = true.
Proof.
  rewrite !includes_spec. intros [x [y ->]] [x' [y' ->]].
  exists (x ++ x'), (y' ++ y). now rewrite <- !app_assoc.
Qed.


Lemma filter_sublist {A} (f : A -> bool) (l : list A) : List.filter f l `sublist_of` l.
Proof.
  induction l as [|a l IH]; simpl; [constructor|].
  destruct (f a); now constructor.
Qed.

Lemma lenient_matches_stripped {C : Casing} (selected : jsstring)
    (q : option jsstring) (b : Strict.Book) :
  Lenient.matches selected (Lenient.normalizeBase q) (Lenient.normalizeNoSpace q) b
  = includes (Lenient.normalizeNoSpace (Some (default [] (Strict.bookGet b selected))))
             (Lenient.normalizeNoSpace q).
Proof.
  unfold Lenient.matches. cbv zeta.
  destruct (includes (Lenient.normalizeBase _) (Lenient.normalizeBase q)) eqn:Hb;
    [|reflexivity].
  rewrite !normalizeNoSpace_filter. simpl. symmetry. now apply includes_filter.
Qed.

End FilterFacts.

(** X14. The result keeps the order of the books (it is a sublist of them),
    and a query that contains another one finds no book that the other does
    not find: in the first variant when the normal form of the one contains
    that of the other, in the second when this holds of their forms without
    white space. *)
Theorem filtered_narrows {C : Casing} {HC : CasingLaws C} :
  (forall st, Strict.filtered st `sublist_of` Strict.books st)
  /\ (forall st, Lenient.filtered st `sublist_of` Lenient.books st)
  /\ (forall books field q e p q1 q2 b,
        trim q1 <> [] ->
        includes (Csv.normalizeText (Some q2)) (Csv.normalizeText (Some q1)) = true ->
        In b (Strict.filtered (Strict.mkState books field q q2 e p)) ->
        In b (Strict.filtered (Strict.mkState books field q q1 e p)))
  /\ (forall l le s field q e p c q1 q2 b,
        trim q1 <> [] ->
        includes (Lenient.normalizeNoSpace (Some q2))
                 (Lenient.normalizeNoSpace (Some q1)) = true ->
        In b (Lenient.filtered (Lenient.mkState l le s field q q2 e p c)) ->
        In b (Lenient.filtered (Lenient.mkState l le s field q q1 e p c))).
Proof.
  split; [|split; [|split]].
  - intros st. unfold Strict.filtered.
    destruct (streq _ []); [apply sublist_nil_l | apply FilterFacts.filter_sublist].
  - intros st. unfold Lenient.filtered.
    destruct (streq _ []); [apply sublist_nil_l | apply FilterFacts.filter_sublist].
  - intros books field q e p q1 q2 b Hq1 Hinc. unfold Strict.filtered. simpl.
    unfold streq.
    rewrite (bool_decide_eq_false_2 (Csv.normalizeText (Some q1) = []))
      by now rewrite normalizeText_nil_iff.
    destruct (bool_decide _); [intros []|].
    rewrite !filter_In. unfold Strict.matches. intros [Hb Hm]. split; [exact Hb|].
    now apply (FilterFacts.includes_trans _ _ _ Hm).
  - intros l le s field q e p c q1 q2 b Hq1 Hinc. unfold Lenient.filtered.
    cbn [Lenient.submittedQuery Lenient.selectedField].
    change (Lenient.books (Lenient.mkState l le s field q q2 e p c))
      with (Lenient.books (Lenient.mkState l le s field q q1 e p c)).
    unfold streq.
    rewrite (bool_decide_eq_false_2 (Lenient.normalizeBase (Some q1) = []))
      by now rewrite normalizeBase_nil_iff.
    destruct (bool_decide _); [intros []|].
    rewrite !filter_In, !FilterFacts.lenient_matches_stripped.
    intros [Hb Hm]. split; [exact Hb|].
    now apply (FilterFacts.includes_trans _ _ _ Hm).
Qed.

Lemma filtered_narrows_witness :
  trim (u "dune") <> []
  /\ includes (@Csv.normalizeText asciiCasing (Some (u "Dune  Mess")))
              (@Csv.normalizeText asciiCasing (Some (u "dune"))) = true
  /\ In (Strict.mkBook (Some (u "1")) (u "Dune Messiah") (u "Herbert") [])
        (@Strict.filtered asciiCasing
           (Strict.mkState booksShelf Strict.K_TITLE [] (u "Dune  Mess") [] 1))
  /\ In (Strict.mkBook (Some (u "1")) (u "Dune Messiah") (u "Herbert") [])
        (@Strict.filtered asciiCasing
           (Strict.mkState booksShelf Strict.K_TITLE [] (u "dune") [] 1))
  /\ (trim (u "dune") <> []
      /\ includes (@Lenient.normalizeNoSpace asciiCasing (Some (u "dunemess")))
                  (@Lenient.normalizeNoSpace asciiCasing (Some (u "dune"))) = true
      /\ In (Strict.mkBook (Some (u "1")) (u "Dune Messiah") (u "Herbert") [])
            (@Lenient.filtered asciiCasing
               (Lenient.mkState false [] (u "3") Strict.K_TITLE [] (u "dune") [] 1
                                {[ u "3" := booksShelf ]}))).
Proof.
  pose proof (@filtered_narrows asciiCasing asciiCasing_laws) as [_ [_ [T3 T4]]].
  assert (H1 : trim (u "dune") <> []) by (vm_compute; discriminate).
  assert (H2 : includes (@Csv.normalizeText asciiCasing (Some (u "Dune  Mess")))
                 (@Csv.normalizeText asciiCasing (Some (u "dune"))) = true)
    by (vm_compute; reflexivity).
  assert (H3 : In (Strict.mkBook (Some (u "1")) (u "Dune Messiah") (u "Herbert") [])
        (@Strict.filtered asciiCasing
           (Strict.mkState booksShelf Strict.K_TITLE [] (u "Dune  Mess") [] 1)))
    by (left; vm_compute; reflexivity).
  assert (H4 : includes (@Lenient.normalizeNoSpace asciiCasing (Some (u "dunemess")))
                  (@Lenient.normalizeNoSpace asciiCasing (Some (u "dune"))) = true)
    by (vm_compute; reflexivity).
  assert (H5 : In (Strict.mkBook (Some (u "1")) (u "Dune Messiah") (u "Herbert") [])
            (@Lenient.filtered asciiCasing
               (Lenient.mkState false [] (u "3") Strict.K_TITLE [] (u "dunemess") [] 1
                                {[ u "3" := booksShelf ]})))
    by (left; vm_compute; reflexivity).
  split; [exact H1|]. split; [exact H2|]. split; [exact H3|].
  split; [exact (T3 _ _ _ _ _ _ _ _ H1 H2 H3)|].
  split; [exact H1|]. split; [exact H4|].
  exact (T4 _ _ _ _ _ _ _ _ _ _ _ H1 H4 H5).
Defined.

(** X15. Results are shown only after a search: in both variants a state
    with a result has [hasSearched], and in the second a site is selected.
    In the first variant [hasSearched] holds after [runSearch] exactly when
    the query was accepted; in the second it holds after [runSearch] only
    when neither message is set and the trimmed query was submitted. *)
Theorem results_only_after_search {C : Casing} {HC : CasingLaws C} :
  (forall st, Strict.filtered st <> [] -> Strict.hasSearched st = true)
  /\ (forall st, Lenient.filtered st <> [] ->
        Lenient.hasSearched st = true /\ Lenient.site st <> [])
  /\ (forall st, Strict.hasSearched (Strict.runSearch st) = true <->
                 Strict.error (Strict.runSearch st) = [])
  /\ (forall BASE_URL fetch st,
        let st' := Lenient.runSearch BASE_URL fetch st in
        Lenient.hasSearched st' = true ->
        Lenient.error st' = [] /\ Lenient.loadError st' = []
        /\ Lenient.submittedQuery st' = trim (Lenient.query st)).
Proof.
  split; [|split; [|split]].
  - intros st. unfold Strict.filtered, Strict.hasSearched, streq.
    destruct (bool_decide (Csv.normalizeText _ = [])) eqn:E; [congruence|].
    intros _. apply bool_decide_eq_false in E. rewrite normalizeText_nil_iff in E.
    now rewrite (bool_decide_eq_false_2 _ E).
  - intros st. unfold Lenient.filtered, Lenient.hasSearched, Lenient.books, streq.
    destruct (bool_decide (Lenient.normalizeBase _ = [])) eqn:E; [congruence|].
    apply bool_decide_eq_false in E. rewrite normalizeBase_nil_iff in E.
    rewrite (bool_decide_eq_false_2 _ E).
    destruct (bool_decide (Lenient.site st = [])) eqn:Es; [simpl; congruence|].
    apply bool_decide_eq_false in Es. now split.
  - intros st. unfold Strict.hasSearched.
    rewrite strict_runSearch_submitted_trimmed.
    unfold Strict.runSearch. cbv zeta. unfold streq.
    destruct (bool_decide (trim (Strict.query st) = [])) eqn:E;
      [simpl; split; discriminate|].
    destruct (_ <? 2)%nat; simpl; [split; discriminate|].
    rewrite E. now split.
  - intros BASE_URL fetch st st'. unfold st', Lenient.hasSearched, Lenient.runSearch.
    cbv zeta. unfold streq.
    destruct (bool_decide (Lenient.site st = [])); [simpl; discriminate|].
    destruct (bool_decide (trim (Lenient.query st) = [])); [simpl; discriminate|].
    destruct (Lenient.loadSiteBooksIfNeeded _ _ _ _); simpl; [discriminate|].
    now intros _.
Qed.

Lemma results_only_after_search_witness :
  @Strict.filtered asciiCasing stateShown <> []
  /\ Strict.hasSearched stateShown = true
  /\ @Lenient.filtered asciiCasing stateFoobar <> []
  /\ Lenient.hasSearched stateFoobar = true
  /\ Lenient.hasSearched (Lenient.runSearch [] noFetch stateTyped) = true
  /\ Lenient.submittedQuery (Lenient.runSearch [] noFetch stateTyped) = u "foobar".
Proof.
  pose proof (@results_only_after_search asciiCasing asciiCasing_laws) as [T1 [T2 [_ T4]]].
  assert (H1 : @Strict.filtered asciiCasing stateShown <> []) by (vm_compute; discriminate).
  assert (H2 : @Lenient.filtered asciiCasing stateFoobar <> [])
    by (vm_compute; discriminate).
  assert (H3 : Lenient.hasSearched (Lenient.runSearch [] noFetch stateTyped) = true)
    by reflexivity.
  split; [exact H1|]. split; [exact (T1 _ H1)|]. split; [exact H2|].
  split; [exact (proj1 (T2 _ H2))|]. split; [exact H3|].
  exact (proj2 (proj2 (T4 [] noFetch stateTyped H3))).
Defined.



(** ** Pages *)

Module PageFacts.
Import Paging PagingFacts.
Local Open Scope Z_scope.

Lemma safePage_id (n : nat) (p : Z) : 1 <= p <= totalPages n -> safePage n p = p.
Proof. unfold safePage. lia. Qed.


Lemma totalPages_covers (n : nat) : Z.of_nat n <= 10 * totalPages n.
Proof.
  rewrite totalPages_ceil. pose proof (ceilTenth_bounds (Z.of_nat n)). lia.
Qed.

Lemma totalPages_tight (n : nat) : 1 < totalPages n -> 10 * (totalPages n - 1) < Z.of_nat n.
Proof.
  rewrite totalPages_ceil. pose proof (ceilTenth_bounds (Z.of_nat n)). lia.
Qed.

Lemma chunks_concat {A} (l : list A) (m : nat) :
  concat (List.map (fun k => take 10 (drop (10 * k) l)) (seq 0 m)) = take (10 * m) l.
Proof.
  induction m as [|m IH].
  - reflexivity.
  - rewrite seq_S, List.map_app, concat_app, IH. simpl. rewrite app_nil_r.
    rewrite take_take_drop. f_equal. lia.
Qed.

Lemma pageItems_chunk {A} (l : list A) (k : nat) :
  (k < Z.to_nat (totalPages (length l)))%nat ->
  pageItems l (Z.of_nat (S k)) = take 10 (drop (10 * k) l).
Proof.
  intros Hk. rewrite pageItems_take_drop, safePage_id by lia.
  f_equal. f_equal. unfold PAGE_SIZE. lia.
Qed.

Lemma pageItems_length {A} (l : list A) (p : Z) :
  length (pageItems l p)
  = Nat.min 10 (length l - Z.to_nat ((safePage (length l) p - 1) * 10)).
Proof. rewrite pageItems_take_drop, length_take, length_drop. reflexivity. Qed.

End PageFacts.

(** X17. The pages [1 .. totalPages] put one after the other are the
    results: every result is on one page, in the order of the results. *)
Theorem pages_partition_results {A} (results : list A) :
  concat (allPages results) = results.
Proof.
  unfold allPages, pageNumbers. rewrite List.map_map.
  rewrite (map_ext_in _ (fun k => take 10 (drop (10 * k) results))).
  - rewrite PageFacts.chunks_concat. apply take_ge.
    pose proof (PageFacts.totalPages_covers (length results)). lia.
  - intros k Hk. apply in_seq in Hk. apply PageFacts.pageItems_chunk. lia.
Qed.

(** X18. A page never has more than 10 items and all its items are results;
    every page before the last has exactly 10; and when there is a result,
    the page shown is never empty, whatever page is asked for. *)
Theorem page_sizes {A} (results : list A) (pageNumber : Z) :
  let n := length results in
  let page := Paging.safePage n pageNumber in
  (length (Paging.pageItems results pageNumber) <= 10)%nat
  /\ (forall x, In x (Paging.pageItems results pageNumber) -> In x results)
  /\ ((page < Paging.totalPages n)%Z ->
      length (Paging.pageItems results pageNumber) = 10%nat)
  /\ (results <> [] -> Paging.pageItems results pageNumber <> [])
  /\ (results = [] -> Paging.pageItems results pageNumber = [] /\ page = 1%Z).
Proof.
  intros n page.
  pose proof (PageFacts.pageItems_length results pageNumber) as Hlen.
  fold n in Hlen. fold page in Hlen.
  pose proof (PagingFacts.safePage_range n pageNumber) as Hr. fold page in Hr.
  split; [lia|]. split; [|split; [|split]].
  - intros x. rewrite PagingFacts.pageItems_take_drop.
    set (start := Z.to_nat ((Paging.safePage (length results) pageNumber - 1)
                              * Paging.PAGE_SIZE)).
    intros Hx. rewrite <- (firstn_skipn start results). apply in_or_app. right.
    rewrite <- (firstn_skipn 10 (drop start results)). apply in_or_app. now left.
  - intros Hlt. pose proof (PageFacts.totalPages_tight n ltac:(lia)). lia.
  - intros Hne Hnil. apply (f_equal length) in Hnil. simpl in Hnil.
    assert (Hn : (0 < n)%nat) by (unfold n; destruct results; [congruence | simpl; lia]).
    destruct (Z.eq_dec (Paging.totalPages n) 1%Z) as [E|E]; [lia|].
    pose proof (PageFacts.totalPages_tight n ltac:(lia)). lia.
  - intros ->. split.
    + destruct (Paging.pageItems [] pageNumber); [reflexivity|].
      simpl in Hlen. unfold n in Hlen. simpl in Hlen. lia.
    + change (Paging.totalPages n) with 1%Z in Hr. lia.
Qed.

Lemma page_sizes_witness :
  (Paging.safePage (length (seq 0 23)) 2 < Paging.totalPages (length (seq 0 23)))%Z
  /\ length (Paging.pageItems (seq 0 23) 2) = 10%nat
  /\ seq 0 23 <> []
  /\ Paging.pageItems (seq 0 23) 99 <> []
  /\ In 22%nat (Paging.pageItems (seq 0 23) 99)
  /\ In 22%nat (seq 0 23).
Proof.
  pose proof (page_sizes (seq 0 23) 2) as [_ [_ [A3 _]]].
  pose proof (page_sizes (seq 0 23) 99) as [_ [B2 [_ [B4 _]]]].
  assert (H1 : (Paging.safePage (length (seq 0 23)) 2
                < Paging.totalPages (length (seq 0 23)))%Z) by reflexivity.
  assert (H2 : seq 0 23 <> []) by discriminate.
  assert (H3 : In 22%nat (Paging.pageItems (seq 0 23) 99))
    by (vm_compute; tauto).
  split; [exact H1|]. split; [exact (A3 H1)|]. split; [exact H2|].
  split; [exact (B4 H2)|]. split; [exact H3 | exact (B2 _ H3)].
Defined.

(** X19. The pager is rendered exactly when loading is over and there are
    two pages or more. From a page in range, the two buttons lead to a page
    in range: the next one and the previous one, staying on the last and on
    the first page; going forward and back from a page that is not the last
    returns to it. *)
Theorem pager_buttons (n : nat) (p : Z) :
  (Paging.pagerShown false n = true <-> (1 < Paging.totalPages n)%Z)
  /\ Paging.pagerShown true n = false
  /\ ((1 <= p <= Paging.totalPages n)%Z ->
      (1 <= Paging.prevPage p <= Paging.totalPages n)%Z
      /\ (1 <= Paging.nextPage n p <= Paging.totalPages n)%Z
      /\ (p < Paging.totalPages n -> Paging.nextPage n p = p + 1)%Z
      /\ (1 < p -> Paging.prevPage p = p - 1)%Z
      /\ Paging.nextPage n (Paging.totalPages n) = Paging.totalPages n
      /\ Paging.prevPage 1 = 1%Z
      /\ (p < Paging.totalPages n -> Paging.prevPage (Paging.nextPage n p) = p)%Z).
Proof.
  split; [|split].
  - unfold Paging.pagerShown, Paging.PAGE_SIZE. simpl. rewrite Z.ltb_lt.
    rewrite PagingFacts.totalPages_ceil.
    pose proof (PagingFacts.ceilTenth_bounds (Z.of_nat n)). lia.
  - reflexivity.
  - intros Hp. unfold Paging.prevPage, Paging.nextPage. repeat split; lia.
Qed.

Lemma pager_buttons_witness :
  (1 <= 2 <= Paging.totalPages 23)%Z
  /\ Paging.nextPage 23 2 = 3%Z /\ Paging.prevPage 2 = 1%Z
  /\ Paging.prevPage (Paging.nextPage 23 2) = 2%Z.
Proof.
  assert (H : (1 <= 2 <= Paging.totalPages 23)%Z) by (split; vm_compute; discriminate).
  pose proof (proj2 (proj2 (pager_buttons 23 2)) H) as [_ [_ [T3 [T4 [_ [_ T7]]]]]].
  split; [exact H|]. split; [exact (T3 eq_refl)|]. split; [exact (T4 eq_refl)|].
  exact (T7 eq_refl).
Defined.


(** ** Loading the books of a site *)

Module LoadFacts.

Lemma load_cached (BASE_URL : jsstring) (fetch : jsstring -> Lenient.FetchResult)
    (c : gmap jsstring (list Strict.Book)) (site : jsstring) :
  is_Some (c !! site) -> Lenient.loadSiteBooksIfNeeded BASE_URL fetch c site = inr c.
Proof.
  intros [bs H]. unfold Lenient.loadSiteBooksIfNeeded.
  destruct (streq site []); [reflexivity|]. now rewrite H.
Qed.

Lemma load_result (BASE_URL : jsstring) (fetch : jsstring -> Lenient.FetchResult)
    (c c' : gmap jsstring (list Strict.Book)) (site : jsstring) :
  Lenient.loadSiteBooksIfNeeded BASE_URL fetch c site = inr c' ->
  (site = [] /\ c' = c)
  \/ (is_Some (c !! site) /\ c' = c)
  \/ (site <> [] /\ c !! site = None /\
      exists filename status text,
        Lenient.CSV_BY_SITE site = Some filename
        /\ fetch (BASE_URL ++ filename) = Lenient.Response true status text
        /\ c' = <[site := List.map Lenient.toBook (Csv.rowsToObjects (Csv.parseCSV text))]> c).
Proof.
  unfold Lenient.loadSiteBooksIfNeeded, streq.
  destruct (bool_decide (site = [])) eqn:E.
  { apply bool_decide_eq_true in E. intros H. injection H as H. subst c'. now left. }
  apply bool_decide_eq_false in E.
  destruct (c !! site) eqn:Hc.
  { intros H. injection H as H. subst c'. right. left. eauto. }
  destruct (Lenient.CSV_BY_SITE site) as [filename|] eqn:Hf; [|discriminate].
  destruct (fetch (BASE_URL ++ filename)) as [[|] status text|m] eqn:Hx;
    try discriminate.
  intros H. injection H as H. subst c'. right. right.
  repeat split; trivial. now exists filename, status, text.
Qed.

Lemma load_other (BASE_URL : jsstring) (fetch : jsstring -> Lenient.FetchResult)
    (c c' : gmap jsstring (list Strict.Book)) (site : jsstring) :
  Lenient.loadSiteBooksIfNeeded BASE_URL fetch c site = inr c' ->
  forall other, other <> site -> c' !! other = c !! other.
Proof.
  intros H other Ho. apply load_result in H.
  destruct H as [[_ ->]|[[_ ->]|[_ [_ [f [s [t [_ [_ ->]]]]]]]]]; trivial.
  now apply lookup_insert_ne.
Qed.


End LoadFacts.



(** X22. The outcomes of [runSearch] in the second variant, for a selected
    site and a query that is not blank. When the books are at hand (cached,
    or fetched with success) the trimmed query is submitted, both messages
    are cleared, and the books searched are those of the site. When the
    server answers without success, the load message names the file and
    holds the status, the submitted query is emptied, so that no result is
    shown, and the cache is as before. In all cases loading is over and the
    page is 1. *)
Theorem lenient_runSearch_outcomes {C : Casing} {HC : CasingLaws C}
    (BASE_URL : jsstring) (fetch : jsstring -> Lenient.FetchResult)
    (st : Lenient.State) :
  let st' := Lenient.runSearch BASE_URL fetch st in
  Lenient.site st <> [] -> trim (Lenient.query st) <> [] ->
  Lenient.loading st' = false /\ Lenient.currentPage st' = 1%Z
  /\ Lenient.site st' = Lenient.site st /\ Lenient.error st' = []
  /\ (forall c', Lenient.loadSiteBooksIfNeeded BASE_URL fetch (Lenient.cache st)
                   (Lenient.site st) = inr c' ->
        Lenient.submittedQuery st' = trim (Lenient.query st)
        /\ Lenient.loadError st' = []
        /\ Lenient.cache st' = c'
        /\ is_Some (c' !! Lenient.site st)
        /\ Lenient.books st' = default [] (c' !! Lenient.site st))
  /\ (forall filename status text,
        Lenient.cache st !! Lenient.site st = None ->
        Lenient.CSV_BY_SITE (Lenient.site st) = Some filename ->
        fetch (BASE_URL ++ filename) = Lenient.Response false status text ->
        Lenient.loadError st'
        = filename ++ Lenient.MSG_LOAD_TAIL ++ toStringNat status ++ u ")"
        /\ includes (Lenient.loadError st') filename = true
        /\ includes (Lenient.loadError st') (toStringNat status) = true
        /\ Lenient.submittedQuery st' = []
        /\ Lenient.filtered st' = []
        /\ Lenient.cache st' = Lenient.cache st).
Proof.
  intros st' Hs Hq.
  assert (E : st' = match Lenient.loadSiteBooksIfNeeded BASE_URL fetch (Lenient.cache st)
                          (Lenient.site st) with
                    | inr c =>
                        Lenient.mkState false [] (Lenient.site st)
                          (Lenient.selectedField st) (Lenient.query st)
                          (trim (Lenient.query st)) [] 1 c
                    | inl message =>
                        Lenient.mkState false message (Lenient.site st)
                          (Lenient.selectedField st) (Lenient.query st) [] [] 1
                          (Lenient.cache st)
                    end).
  { unfold st', Lenient.runSearch. cbv zeta. unfold streq.
    now rewrite (bool_decide_eq_false_2 _ Hs), (bool_decide_eq_false_2 _ Hq). }
  split; [rewrite E; destruct (Lenient.loadSiteBooksIfNeeded _ _ _ _); reflexivity|].
  split; [rewrite E; destruct (Lenient.loadSiteBooksIfNeeded _ _ _ _); reflexivity|].
  split; [rewrite E; destruct (Lenient.loadSiteBooksIfNeeded _ _ _ _); reflexivity|].
  split; [rewrite E; destruct (Lenient.loadSiteBooksIfNeeded _ _ _ _); reflexivity|].
  split.
  - intros c' Hl. rewrite E, Hl. simpl.
    pose proof (LoadFacts.load_result _ _ _ _ _ Hl) as Hres.
    assert (Hsome : is_Some (c' !! Lenient.site st)).
    { destruct Hres as [[Hn _]|[[Hc ->]|[_ [_ [f [s [t [_ [_ ->]]]]]]]]];
        [contradiction | exact Hc | rewrite lookup_insert_eq; eauto]. }
    repeat split; trivial.
    unfold Lenient.books, streq. simpl. now rewrite (bool_decide_eq_false_2 _ Hs).
  - intros filename status text Hc Hf Hx.
    assert (Hl : Lenient.loadSiteBooksIfNeeded BASE_URL fetch (Lenient.cache st)
                   (Lenient.site st)
                 = inl (filename ++ Lenient.MSG_LOAD_TAIL ++ toStringNat status ++ u ")")).
    { unfold Lenient.loadSiteBooksIfNeeded, streq.
      now rewrite (bool_decide_eq_false_2 _ Hs), Hc, Hf, Hx. }
    rewrite E, Hl. simpl. split; [reflexivity|]. split; [|split; [|split; [|split]]].
    + apply includes_spec. exists [], (Lenient.MSG_LOAD_TAIL ++ toStringNat status ++ u ")").
      reflexivity.
    + apply includes_spec. exists (filename ++ Lenient.MSG_LOAD_TAIL), (u ")").
      now rewrite <- !app_assoc.
    + reflexivity.
    + unfold Lenient.filtered. simpl.
      change (Lenient.normalizeBase (Some [])) with (Csv.normalizeText (Some [])).
      assert (Hn : Csv.normalizeText (Some []) = []) by now apply normalizeText_nil_iff.
      now rewrite Hn.
    + reflexivity.
Qed.

Lemma lenient_runSearch_outcomes_witness :
  Lenient.site (stateAsk (u "3")) <> []
  /\ trim (Lenient.query (stateAsk (u "3"))) <> []
  /\ Lenient.submittedQuery (Lenient.runSearch (u "/lib/") fetchThree (stateAsk (u "3")))
     = u "dune"
  /\ Lenient.books (Lenient.runSearch (u "/lib/") fetchThree (stateAsk (u "3")))
     = [Strict.mkBook (Some (u "0")) (u "Dune") (u "Herbert") []]
  /\ Lenient.site (stateAsk (u "4")) <> []
  /\ trim (Lenient.query (stateAsk (u "4"))) <> []
  /\ Lenient.cache (stateAsk (u "4")) !! Lenient.site (stateAsk (u "4")) = None
  /\ Lenient.CSV_BY_SITE (Lenient.site (stateAsk (u "4"))) = Some (u "books_4.csv")
  /\ fetchThree (u "/lib/" ++ u "books_4.csv") = Lenient.Response false 404 []
  /\ includes (Lenient.loadError
                 (Lenient.runSearch (u "/lib/") fetchThree (stateAsk (u "4"))))
              (u "404") = true
  /\ @Lenient.filtered asciiCasing
       (Lenient.runSearch (u "/lib/") fetchThree (stateAsk (u "4"))) = [].
Proof.
  assert (A1 : Lenient.site (stateAsk (u "3")) <> []) by discriminate.
  assert (A2 : trim (Lenient.query (stateAsk (u "3"))) <> []) by (vm_compute; discriminate).
  assert (B1 : Lenient.site (stateAsk (u "4")) <> []) by discriminate.
  assert (B2 : trim (Lenient.query (stateAsk (u "4"))) <> []) by (vm_compute; discriminate).
  pose proof (@lenient_runSearch_outcomes asciiCasing asciiCasing_laws
                (u "/lib/") fetchThree (stateAsk (u "3")) A1 A2) as [_ [_ [_ [_ [T5 _]]]]].
  pose proof (@lenient_runSearch_outcomes asciiCasing asciiCasing_laws
                (u "/lib/") fetchThree (stateAsk (u "4")) B1 B2) as [_ [_ [_ [_ [_ T6]]]]].
  destruct (T5 _ eq_refl) as [S1 [_ [_ [_ S5]]]].
  destruct (T6 (u "books_4.csv") 404%nat [] eq_refl eq_refl eq_refl)
    as [_ [_ [F3 [_ [F5 _]]]]].
  split; [exact A1|]. split; [exact A2|].
  split; [rewrite S1; reflexivity|]. split; [rewrite S5; reflexivity|].
  split; [exact B1|]. split; [exact B2|].
  split; [reflexivity|]. split; [reflexivity|]. split; [reflexivity|].
  split; [exact F3 | exact F5].
Defined.

(** X23. Choosing a site empties the result: whatever the state and the
    server, after [selectSite] the site is the chosen one, the submitted
    query and the field message are empty, the page is 1, no result is
    shown, and the cache differs from the old one at most at the chosen
    site. Once the chosen site is in the cache, the search that follows
    does not depend on the server. *)
Theorem selectSite_resets {C : Casing} {HC : CasingLaws C}
    (BASE_URL : jsstring) (fetch : jsstring -> Lenient.FetchResult)
    (next : jsstring) (st : Lenient.State) :
  let st' := Lenient.selectSite BASE_URL fetch next st in
  Lenient.site st' = next
  /\ Lenient.submittedQuery st' = [] /\ Lenient.error st' = []
  /\ Lenient.currentPage st' = 1%Z
  /\ Lenient.hasSearched st' = false
  /\ Lenient.filtered st' = []
  /\ Lenient.query st' = Lenient.query st
  /\ Lenient.selectedField st' = Lenient.selectedField st
  /\ (forall other, other <> next ->
        Lenient.cache st' !! other = Lenient.cache st !! other)
  /\ (next = [] -> Lenient.cache st' = Lenient.cache st /\ Lenient.books st' = []
                   /\ Lenient.loadError st' = [])
  /\ (is_Some (Lenient.cache st' !! next) ->
      forall BASE1 fetch1 BASE2 fetch2,
        Lenient.runSearch BASE1 fetch1 st' = Lenient.runSearch BASE2 fetch2 st').
Proof.
  intros st'.
  assert (Hn : Csv.normalizeText (Some []) = []) by now apply normalizeText_nil_iff.
  assert (Hf : forall s, Lenient.submittedQuery s = [] -> Lenient.filtered s = []).
  { intros s Hs. unfold Lenient.filtered. rewrite Hs.
    change (Lenient.normalizeBase (Some [])) with (Csv.normalizeText (Some [])).
    now rewrite Hn. }
  assert (Hcases :
    (next = [] /\ st' = Lenient.mkState (Lenient.loading st) [] next
                          (Lenient.selectedField st) (Lenient.query st) [] [] 1
                          (Lenient.cache st))
    \/ (exists c, Lenient.loadSiteBooksIfNeeded BASE_URL fetch (Lenient.cache st) next
                  = inr c
                  /\ st' = Lenient.mkState false [] next (Lenient.selectedField st)
                             (Lenient.query st) [] [] 1 c)
    \/ (exists m, st' = Lenient.mkState false m next (Lenient.selectedField st)
                          (Lenient.query st) [] [] 1 (Lenient.cache st))).
  { unfold st', Lenient.selectSite, streq.
    destruct (bool_decide (next = [])) eqn:En.
    - apply bool_decide_eq_true in En. now left.
    - destruct (Lenient.loadSiteBooksIfNeeded _ _ _ _) as [m|c] eqn:Hl;
        right; [right; now exists m | left; now exists c]. }
  assert (Hcache : forall other, other <> next ->
            Lenient.cache st' !! other = Lenient.cache st !! other).
  { intros other Ho. destruct Hcases as [[_ ->]|[[c [Hl ->]]|[m ->]]]; simpl; trivial.
    now apply (LoadFacts.load_other BASE_URL fetch _ _ _ Hl). }
  assert (Hsub : Lenient.submittedQuery st' = [])
    by (destruct Hcases as [[_ ->]|[[c [_ ->]]|[m ->]]]; reflexivity).
  split; [destruct Hcases as [[_ ->]|[[c [_ ->]]|[m ->]]]; reflexivity|].
  split; [exact Hsub|].
  split; [destruct Hcases as [[_ ->]|[[c [_ ->]]|[m ->]]]; reflexivity|].
  split; [destruct Hcases as [[_ ->]|[[c [_ ->]]|[m ->]]]; reflexivity|].
  split; [unfold Lenient.hasSearched; now rewrite Hsub|].
  split; [now apply Hf|].
  split; [destruct Hcases as [[_ ->]|[[c [_ ->]]|[m ->]]]; reflexivity|].
  split; [destruct Hcases as [[_ ->]|[[c [_ ->]]|[m ->]]]; reflexivity|].
  split; [exact Hcache|]. split.
  - intros ->. unfold st', Lenient.selectSite. simpl. now repeat split.
  - intros Hsome BASE1 fetch1 BASE2 fetch2.
    assert (Hsite : Lenient.site st' = next)
      by (destruct Hcases as [[_ ->]|[[c [_ ->]]|[m ->]]]; reflexivity).
    unfold Lenient.runSearch. cbv zeta. rewrite Hsite.
    now rewrite !(LoadFacts.load_cached _ _ _ _ Hsome).
Qed.

Lemma selectSite_resets_witness :
  (is_Some (Lenient.cache (Lenient.selectSite (u "/lib/") fetchThree (u "3") stateFoobar)
              !! u "3")
   /\ Lenient.runSearch (u "/lib/") fetchThree
        (Lenient.selectSite (u "/lib/") fetchThree (u "3") stateFoobar)
      = Lenient.runSearch [] noFetch
          (Lenient.selectSite (u "/lib/") fetchThree (u "3") stateFoobar)
   /\ @Lenient.filtered asciiCasing
        (Lenient.selectSite (u "/lib/") fetchThree (u "3") stateFoobar) = [])
  /\ (u "4" <> u "3"
      /\ Lenient.cache (Lenient.selectSite (u "/lib/") fetchThree (u "3") stateFresh)
           !! u "4" = Lenient.cache stateFresh !! u "4")
  /\ (([] : jsstring) = []
      /\ Lenient.books (Lenient.selectSite (u "/lib/") fetchThree [] stateFoobar) = []).
Proof.
  pose proof (@selectSite_resets asciiCasing asciiCasing_laws
                (u "/lib/") fetchThree (u "3") stateFoobar)
    as [_ [_ [_ [_ [_ [A6 [_ [_ [_ [_ A11]]]]]]]]]].
  pose proof (@selectSite_resets asciiCasing asciiCasing_laws
                (u "/lib/") fetchThree (u "3") stateFresh)
    as [_ [_ [_ [_ [_ [_ [_ [_ [B9 _]]]]]]]]].
  pose proof (@selectSite_resets asciiCasing asciiCasing_laws
                (u "/lib/") fetchThree [] stateFoobar)
    as [_ [_ [_ [_ [_ [_ [_ [_ [_ [C10 _]]]]]]]]]].
  assert (H1 : is_Some (Lenient.cache
                 (Lenient.selectSite (u "/lib/") fetchThree (u "3") stateFoobar) !! u "3"))
    by (vm_compute; eauto).
  assert (H2 : u "4" <> u "3") by discriminate.
  split; [split; [exact H1|]; split; [exact (A11 H1 _ _ _ _) | exact A6]|].
  split; [split; [exact H2 | exact (B9 _ H2)]|].
  split; [reflexivity | exact (proj1 (proj2 (C10 eq_refl)))].
Defined.

(** X24. From the text to the books. For a header line and data lines of
    fields without quotes, commas and line ends, none of the lines blank,
    joined by line feeds or by carriage returns and line feeds,
    [loadBooks] gives one book for each data line, and the book of a line
    holds, in the field named by a header cell once normalised (and not
    repeated by a later column), the trimmed field of the line at that
    column. *)
Theorem loadBooks_plain_text (sep : jsstring) (header : list jsstring)
    (lines : list (list jsstring)) (idx : nat) (r : list jsstring)
    (i : nat) (raw : jsstring) :
  let headers := List.map (fun h => Csv.normalizeHeader (Some h)) header in
  let text := joinLines sep (List.map joinFields (header :: lines)) in
  sep = [LF] \/ sep = [CR; LF] ->
  Forall (fun l => Forall plainField l /\ Csv.hasContent l = true) (header :: lines) ->
  lines !! idx = Some r ->
  header !! i = Some raw ->
  In (Csv.normalizeHeader (Some raw)) bookKeys ->
  (forall j, (i < j < length header)%nat ->
     Csv.columnKey headers j <> Csv.normalizeHeader (Some raw)) ->
  Csv.parseCSV text = header :: lines
  /\ length (Strict.loadBooks text) = length lines
  /\ exists b,
       Strict.loadBooks text !! idx = Some b
       /\ Strict.bookGet b (Csv.normalizeHeader (Some raw))
          = Some (trim (default [] (r !! i))).
Proof.
  intros headers text Hsep Hall Hr Hraw Hkey Hlast.
  assert (Hparse : Csv.parseCSV text = header :: lines).
  { unfold text. rewrite PlainLines.parse_plain_lines; trivial.
    - apply forallb_filter_id, forallb_forall. intros l Hl.
      rewrite List.Forall_forall in Hall. now apply Hall.
    - eapply List.Forall_impl; [|exact Hall]. intros l [Hp Hc]. split; [|exact Hp].
      intros ->. discriminate Hc. }
  split; [exact Hparse|]. unfold Strict.loadBooks. rewrite Hparse. split.
  - rewrite length_map. simpl. apply length_imap.
  - exists (Strict.toBook (Csv.toObject headers idx r)).
    assert (Hh : headers !! i = Some (Csv.normalizeHeader (Some raw)))
      by (unfold headers; now rewrite BookFacts.lookup_map, Hraw).
    split; [now apply BookLookup.books_lookup|].
    apply BookLookup.book_field; trivial.
    intros j Hj. apply Hlast. unfold headers in Hj. now rewrite length_map in Hj.
Qed.

Lemma loadBooks_plain_text_witness :
  ([LF] = [LF] \/ [LF] = [CR; LF])
  /\ Forall (fun l => Forall plainField l /\ Csv.hasContent l = true)
        ([Strict.K_TITLE; u " a "] :: [[u " Dune "; u "1"]; [u "Emma"]])
  /\ [[u " Dune "; u "1"]; [u "Emma"]] !! 0%nat = Some [u " Dune "; u "1"]
  /\ [Strict.K_TITLE; u " a "] !! 0%nat = Some Strict.K_TITLE
  /\ In (Csv.normalizeHeader (Some Strict.K_TITLE)) bookKeys
  /\ exists b,
       Strict.loadBooks
         (joinLines [LF]
            (List.map joinFields
               ([Strict.K_TITLE; u " a "] :: [[u " Dune "; u "1"]; [u "Emma"]])))
         !! 0%nat = Some b
       /\ Strict.bookGet b Strict.K_TITLE = Some (u "Dune").
Proof.
  assert (H1 : [LF] = [LF] \/ [LF] = [CR; LF]) by now left.
  assert (H2 : Forall (fun l => Forall plainField l /\ Csv.hasContent l = true)
        ([Strict.K_TITLE; u " a "] :: [[u " Dune "; u "1"]; [u "Emma"]])).
  { unfold plainField.
    repeat (first [constructor | discriminate | reflexivity]). }
  assert (H5 : In (Csv.normalizeHeader (Some Strict.K_TITLE)) bookKeys)
    by (left; reflexivity).
  split; [exact H1|]. split; [exact H2|]. split; [reflexivity|]. split; [reflexivity|].
  split; [exact H5|].
  destruct (loadBooks_plain_text [LF] [Strict.K_TITLE; u " a "]
              [[u " Dune "; u "1"]; [u "Emma"]] 0 [u " Dune "; u "1"] 0 Strict.K_TITLE
              H1 H2 eq_refl eq_refl H5) as [_ [_ [b [Hb Hg]]]].
  - intros j Hj. simpl in Hj.
    destruct j as [|[|j]]; try lia. vm_compute. discriminate.
  - exists b. split; [exact Hb | exact Hg].
Defined.
